(** * Business Ops Dashboard API

    A shallow embedding of [main.py] and [schemas.py]: the FastAPI handlers
    over a document store, and the properties the specification states
    about them.

    Conventions of the model:
    - a stored document is a Python [dict]: a finite map from field names
      to values ([gmap string value]); field names are top-level keys;
    - amounts are Python floats; they are modelled as exact rationals [Q],
      so rounding, [inf] and [nan] are outside the model;
    - a [datetime.date] is its proleptic Gregorian ordinal
      ([date.toordinal()]), a [datetime.datetime] an integer time stamp;
    - an [ObjectId] is its 24 hex digits in lower case; a reference is
      stored as the string the client sent, in whatever case;
    - the store encodes a document before it writes it and has no encoding
      for a [datetime.date];
    - the upload directory is flat, a map from file names to contents; a
      name the file system refuses makes [open] raise;
    - a handler that raises returns [Raise e]; mutations made before the
      exception stay in the store, as in Python;
    - the store, the upload directory and the notifier's outbox are passed
      explicitly; ids, the clock and today's date come with each request.

    Contents: values, exceptions and dates; the schemas; the document
    store; the handlers and the API; the vocabulary of the properties; a
    concrete runtime with example data; the properties; the properties on
    the example data. *)

From Stdlib Require Import Ascii String QArith Qminmax Lqa.
From stdpp Require Import base gmap strings list fin_maps.

(** ** Values and documents *)

Inductive value :=
| VNone
| VNum (q : Q)
| VStr (s : string)
| VDate (d : Z)
| VDateTime (t : Z)
| VList (l : list string)
| VOid (o : string).

#[global] Instance Q_eq_dec : EqDecision Q.
Proof. solve_decision. Defined.

#[global] Instance value_eq_dec : EqDecision value.
Proof. solve_decision. Defined.

Abbreviation document := (gmap string value).
Abbreviation collection := (list (gmap string value)).
Abbreviation database := (gmap string (list (gmap string value))).

(** [d.get(k, default)] *)
Definition get (d : document) (k : string) (default : value) : value :=
  match d !! k with
  | Some v => v
  | None => default
  end.

(** Python truth value of a stored value. *)
Definition truthy (v : value) : bool :=
  match v with
  | VNone => false
  | VNum q => negb (Qeq_bool q 0)
  | VStr s => negb (String.eqb s "")
  | VList l => negb (bool_decide (l = []))
  | VDate _ | VDateTime _ | VOid _ => true
  end.

(** [v or default] *)
Definition or_else (v default : value) : value :=
  if truthy v then v else default.

(** [Optional[str]] and [Optional[date]] fields of a payload. *)
Definition opt_str (o : option string) : value :=
  match o with Some s => VStr s | None => VNone end.

Definition opt_date (o : option Z) : value :=
  match o with Some d => VDate d | None => VNone end.

(** A query parameter [Optional[str]] used as [if p:]. *)
Definition given (p : option string) : option string :=
  match p with
  | Some s => if String.eqb s "" then None else Some s
  | None => None
  end.

Definition Qleb (x y : Q) : bool := Qle_bool x y.
Definition Qltb (x y : Q) : bool := negb (Qle_bool y x).

(** ** Exceptions *)

Inductive exn :=
| HTTPException (status_code : Z) (detail : string)
| RequestValidationError
| InvalidId
| TypeError
| ValueError
| OverflowError
| KeyError
| WriteError
| InvalidDocument
| OSError
| RuntimeError.

Inductive result (A : Type) :=
| Ret (a : A)
| Raise (e : exn).
Arguments Ret {A} a.
Arguments Raise {A} e.

#[global] Instance result_bind : MBind result := λ A B f m,
  match m with
  | Ret a => f a
  | Raise e => Raise e
  end.

(** [try: body  except Exception: handler] *)
Definition try_except {A} (body : result A) (handler : exn → result A) : result A :=
  match body with
  | Ret a => Ret a
  | Raise e => handler e
  end.

(** A [for] loop that builds a list, stopping at the first exception. *)
Fixpoint for_each {A B} (f : A → result B) (l : list A) : result (list B) :=
  match l with
  | [] => Ret []
  | a :: l' => b ← f a; bs ← for_each f l'; Ret (b :: bs)
  end.

(** Arithmetic as Python applies it to stored values. *)
Definition as_num (v : value) : result Q :=
  match v with
  | VNum q => Ret q
  | _ => Raise TypeError
  end.

(** [sum(vs)]: a left fold from the integer 0. *)
Definition py_sum (vs : list value) : result Q :=
  foldl (λ acc v, a ← acc; q ← as_num v; Ret (a + q)%Q) (Ret 0%Q) vs.

(** ** Dates *)

Definition date_min : Z := 1.
Definition date_max : Z := 3652059.

(** [d + timedelta(days=n)]; [date_plus_days d (-30)] is
    [d - timedelta(days=30)]. *)
Definition date_plus_days (d n : Z) : result Z :=
  if bool_decide (date_min ≤ d + n ≤ date_max)%Z then Ret (d + n)%Z
  else Raise OverflowError.

Definition as_date (v : value) : result Z :=
  match v with
  | VDate d => Ret d
  | _ => Raise TypeError
  end.

(** ** bson.ObjectId *)

Definition is_hex (a : ascii) : bool :=
  let n := nat_of_ascii a in
  (((48 <=? n) && (n <=? 57)) || ((97 <=? n) && (n <=? 102))
   || ((65 <=? n) && (n <=? 70)))%nat.

Definition is_space (a : ascii) : bool :=
  let n := nat_of_ascii a in
  (((9 <=? n) && (n <=? 13)) || (n =? 32))%nat.

Definition lower_ascii (a : ascii) : ascii :=
  let n := nat_of_ascii a in
  if ((65 <=? n) && (n <=? 90))%nat then ascii_of_nat (n + 32) else a.

(** [str.lower()] on ASCII text. *)
Fixpoint lower (s : string) : string :=
  match s with
  | EmptyString => EmptyString
  | String a s' => String (lower_ascii a) (lower s')
  end.

(** [bytes.fromhex], with the bytes written back as lower-case hex: two hex
    digits per byte, ASCII white space allowed between bytes. *)
Fixpoint fromhex (s : string) : option string :=
  match s with
  | EmptyString => Some EmptyString
  | String a s' =>
      if is_space a then fromhex s'
      else
        match s' with
        | String b s'' =>
            if is_hex a && is_hex b
            then String (lower_ascii a) <$> (String (lower_ascii b) <$> fromhex s'')
            else None
        | EmptyString => None
        end
  end.

(** [ObjectId(s)]: an id is represented by its [str()], the lower-case hex
    digits.  A string of any other length than 24, or not hexadecimal, raises
    [InvalidId]. *)
Definition ObjectId (s : string) : result string :=
  if (String.length s =? 24)%nat then
    match fromhex s with
    | Some o => Ret o
    | None => Raise InvalidId
    end
  else Raise InvalidId.

(** ** schemas.py *)

Inductive po_status := PoActive | PoClosed | PoPartiallyBilled.
Inductive payment_status := Pending | Partial | Paid.
#[global] Instance payment_status_eq_dec : EqDecision payment_status.
Proof. solve_decision. Defined.
Inductive agreement_type := TypeAgreement | TypeNDA.
Inductive renewal_status := Active | Due | Expired.

Definition po_status_str (s : po_status) : string :=
  match s with
  | PoActive => "Active"
  | PoClosed => "Closed"
  | PoPartiallyBilled => "Partially Billed"
  end.

Definition payment_status_str (s : payment_status) : string :=
  match s with
  | Pending => "Pending"
  | Partial => "Partial"
  | Paid => "Paid"
  end.

Definition agreement_type_str (s : agreement_type) : string :=
  match s with
  | TypeAgreement => "Agreement"
  | TypeNDA => "NDA"
  end.

Definition renewal_status_str (s : renewal_status) : string :=
  match s with
  | Active => "Active"
  | Due => "Due"
  | Expired => "Expired"
  end.

(** Each module is one pydantic model: the record is a parsed payload,
    [valid] the [Field(ge=0)] constraints, [model_dump] the dict the
    handlers store.  [EmailStr] is kept as the string it validated. *)

Module Customer.
Record t := {
  name : string;
  contact_person : option string;
  email : option string;
  phone : option string;
  industry : option string;
  tax_id : option string;
  address : option string;
  notes : option string;
  company_profile_url : option string;
  kyc_url : option string;
  master_service_agreement_url : option string
}.

Definition model_dump (p : t) : document :=
  list_to_map [
    ("name", VStr (name p));
    ("contact_person", opt_str (contact_person p));
    ("email", opt_str (email p));
    ("phone", opt_str (phone p));
    ("industry", opt_str (industry p));
    ("tax_id", opt_str (tax_id p));
    ("address", opt_str (address p));
    ("notes", opt_str (notes p));
    ("company_profile_url", opt_str (company_profile_url p));
    ("kyc_url", opt_str (kyc_url p));
    ("master_service_agreement_url", opt_str (master_service_agreement_url p))
  ].
End Customer.

Module Po.
Record t := {
  po_number : string;
  customer_id : string;
  po_date : option Z;
  amount : Q;
  description : option string;
  validity : option string;
  status : po_status;
  po_pdf_url : option string;
  related_docs_url : list string
}.

Definition valid (p : t) : bool := Qleb 0 (amount p).

Definition model_dump (p : t) : document :=
  list_to_map [
    ("po_number", VStr (po_number p));
    ("customer_id", VStr (customer_id p));
    ("po_date", opt_date (po_date p));
    ("amount", VNum (amount p));
    ("description", opt_str (description p));
    ("validity", opt_str (validity p));
    ("status", VStr (po_status_str (status p)));
    ("po_pdf_url", opt_str (po_pdf_url p));
    ("related_docs_url", VList (related_docs_url p))
  ].
End Po.

Module Invoice.
Record t := {
  invoice_number : string;
  po_id : string;
  customer_id : string;
  invoice_date : option Z;
  due_date : option Z;
  amount : Q;
  amount_received : Q;
  payment_status : payment_status;
  mode_of_payment : option string;
  payment_timeline : option string;
  invoice_pdf_url : option string;
  proof_of_payment_url : option string
}.

Definition valid (p : t) : bool :=
  Qleb 0 (amount p) && Qleb 0 (amount_received p).

Definition model_dump (p : t) : document :=
  list_to_map [
    ("invoice_number", VStr (invoice_number p));
    ("po_id", VStr (po_id p));
    ("customer_id", VStr (customer_id p));
    ("invoice_date", opt_date (invoice_date p));
    ("due_date", opt_date (due_date p));
    ("amount", VNum (amount p));
    ("amount_received", VNum (amount_received p));
    ("payment_status", VStr (payment_status_str (payment_status p)));
    ("mode_of_payment", opt_str (mode_of_payment p));
    ("payment_timeline", opt_str (payment_timeline p));
    ("invoice_pdf_url", opt_str (invoice_pdf_url p));
    ("proof_of_payment_url", opt_str (proof_of_payment_url p))
  ].
End Invoice.

Module Agreement.
Record t := {
  name : string;
  type : agreement_type;
  customer_id : string;
  start_date : option Z;
  end_date : option Z;
  terms_summary : option string;
  renewal_status : renewal_status;
  renewal_due : option Z;
  signed_copy_url : option string;
  supporting_docs_url : list string
}.

Definition model_dump (p : t) : document :=
  list_to_map [
    ("name", VStr (name p));
    ("type", VStr (agreement_type_str (type p)));
    ("customer_id", VStr (customer_id p));
    ("start_date", opt_date (start_date p));
    ("end_date", opt_date (end_date p));
    ("terms_summary", opt_str (terms_summary p));
    ("renewal_status", VStr (renewal_status_str (renewal_status p)));
    ("renewal_due", opt_date (renewal_due p));
    ("signed_copy_url", opt_str (signed_copy_url p));
    ("supporting_docs_url", VList (supporting_docs_url p))
  ].
End Agreement.

(** [date: Optional[date]] of [Payment]: in the class body the name [date]
    is the field itself, so the annotation names no type; the schema allows
    arbitrary types and the field is not validated.  It keeps what the client
    sent, for a date a string. *)
Module Payment.
Record t := {
  payment_id : string;
  invoice_id : string;
  customer_id : string;
  date : option string;
  amount : Q;
  mode : option string;
  remarks : option string
}.

Definition valid (p : t) : bool := Qleb 0 (amount p).

Definition model_dump (p : t) : document :=
  list_to_map [
    ("payment_id", VStr (payment_id p));
    ("invoice_id", VStr (invoice_id p));
    ("customer_id", VStr (customer_id p));
    ("date", opt_str (date p));
    ("amount", VNum (amount p));
    ("mode", opt_str (mode p));
    ("remarks", opt_str (remarks p))
  ].
End Payment.

(** ** The document store

    [database.py] is not among the sources; [db] is used as a pymongo
    database: named collections of documents, kept here in insertion order. *)

(** Modelled from the spec: a document is identified by the id assigned at
    its creation, the field [_id]. *)
Definition has_id (o : string) (d : document) : Prop :=
  d !! "_id" = Some (VOid o).

#[global] Instance has_id_dec o d : Decision (has_id o d).
Proof. unfold has_id. apply _. Defined.

(** Modelled from the spec: a filter [{k: s, ...}] with string operands
    matches the documents whose field [k] is the string [s]. *)
Definition matches (q : gmap string string) (d : document) : Prop :=
  map_Forall (λ k s, d !! k = Some (VStr s)) q.

#[global] Instance matches_dec q d : Decision (matches q d).
Proof. unfold matches. apply _. Defined.

(** Modelled from the spec: [collection.find(q)] of the store behind
    [database.py], a query by filter. *)
Definition find (q : gmap string string) (c : collection) : collection :=
  filter (matches q) c.

(** Modelled from the spec: [collection.count_documents(q)]. *)
Definition count_documents (q : gmap string string) (c : collection) : nat :=
  length (find q c).

(** Modelled from the spec: [collection.find_one({"_id": o})], fetch by id;
    [None] when no document has the id. *)
Definition find_one (o : string) (c : collection) : option document :=
  head (filter (has_id o) c).

(** Modelled from the spec: [db[name].insert_one(data)]; the driver adds the
    generated [_id] to the document. *)
Definition insert_one (name oid : string) (data : document) (db : database)
  : database :=
  <[name := (db !!! name) ++ [<["_id" := VOid oid]> data]]> db.

(** Modelled from the spec: an update in place; the first document with id
    [o] receives the fields of [set]. *)
Fixpoint set_first (o : string) (set : document) (c : collection) : collection :=
  match c with
  | [] => []
  | d :: c' =>
      if bool_decide (has_id o d) then (set ∪ d) :: c'
      else d :: set_first o set c'
  end.

(** Modelled from the spec: [db[name].update_one({"_id": o}, {"$set": set})].
    Nothing changes when no document matches; the store refuses to change
    the [_id] of a document. *)
Definition update_one (name o : string) (set : document) (db : database)
  : result database :=
  match db !! name with
  | None => Ret db
  | Some c =>
      match find_one o c with
      | None => Ret db
      | Some _ =>
          match set !! "_id" with
          | Some v =>
              if bool_decide (v = VOid o) then Ret (<[name := set_first o set c]> db)
              else Raise WriteError
          | None => Ret (<[name := set_first o set c]> db)
          end
      end
  end.

(** Modelled from the spec: the store of [database.py] encodes a document
    before it writes it.  The driver has an encoding for [None], numbers,
    strings, lists, ids and [datetime]s; a [datetime.date] has none, and
    [insert_one] raises [InvalidDocument] before anything is written. *)
Definition is_date (v : value) : bool :=
  match v with
  | VDate _ => true
  | _ => false
  end.

Definition encodable (data : document) : Prop :=
  map_Forall (λ _ v, is_date v = false) data.

#[global] Instance encodable_dec data : Decision (encodable data).
Proof. unfold encodable. apply _. Defined.

Definition bson_encode (data : document) : result () :=
  if bool_decide (encodable data) then Ret () else Raise InvalidDocument.
Arguments bson_encode : simpl never.

(** ** The Python runtime and the driver

    Library functions the handlers call whose results the properties below do
    not depend on.  [sort_desc k] is [cursor.sort(k, -1)]: some reordering of
    the documents found. *)
Class Runtime := {
  fromisoformat : string → option Z;
  date_isoformat : Z → string;
  datetime_isoformat : Z → string;
  strftime_compact : Z → string;
  float_of_str : string → option Q;
  str_other : value → string;
  round2 : Q → Q;
  sort_desc : string → collection → collection;
  sort_desc_perm : ∀ k c, sort_desc k c ≡ₚ c
}.

(** ** The world of a request *)

Record email := {
  to_emails : list string;
  subject : string;
  body : string
}.

(** The store, the upload directory (file name to content) and the mails
    handed to the notifier so far. *)
Record world := {
  db : database;
  uploads : gmap string string;
  outbox : list email
}.

(** What a request reads from outside: the id the driver generates for an
    insert, the clock ([datetime.now(timezone.utc)], read once per request),
    [date.today()] and the environment variable [ADMIN_EMAIL]. *)
Record Env := {
  fresh_id : string;
  now : Z;
  today : Z;
  ADMIN_EMAIL : option string
}.

Record summary := {
  purchase_orders : nat;
  invoices : nat;
  paid_invoices : nat;
  partial_invoices : nat;
  pending_invoices : nat;
  outstanding_amount : Q;
  upcoming_60 : nat;
  upcoming_30 : nat;
  upcoming_7 : nat;
  upcoming_invoices_pos : nat
}.

Inductive response :=
| RMessage (message : string)
| RDiagnostic (collections : list string)
| RId (id : string)
| RDocs (docs : list (gmap string value))
| RPayment (id : string) (invoice_amount_received : Q) (invoice_status : string)
| RChecked (checked : nat)
| RUrl (url : string)
| RFile (content : string)
| RSummary (s : summary).

Inductive request :=
| GetRoot
| GetTest
| PostCustomers (payload : Customer.t)
| GetCustomers
| PostPos (payload : Po.t)
| GetPos (customer_id : option string)
| PostInvoices (payload : Invoice.t)
| GetInvoices (po_id customer_id : option string)
| PostPayments (payload : Payment.t)
| GetPayments (invoice_id : option string)
| PostAgreements (payload : Agreement.t)
| GetAgreements (customer_id : option string) (due_within_days : option Z)
| PostCheckRenewals
| PostUpload (entity entity_id field filename content : string)
| GetUpload (filename : string)
| GetDashboardSummary.

Definition newline : string := String (ascii_of_nat 10) EmptyString.

Definition count_true (l : list bool) : nat :=
  length (filter (λ b, b = true) l).

(** [data["created_at"] = now; data["updated_at"] = now] *)
Definition stamp (t : Z) (data : document) : document :=
  <["updated_at" := VDateTime t]> (<["created_at" := VDateTime t]> data).

(** The status rule of [create_invoice] and [list_invoices]. *)
Definition invoice_status (amt rec : Q) : payment_status :=
  if Qleb rec 0 then Pending
  else if Qltb rec amt then Partial
  else Paid.

(** The status rule of [create_payment]. *)
Definition payment_applied_status (total_received amt : Q) : payment_status :=
  if Qleb amt total_received then Paid
  else if Qltb 0 total_received then Partial
  else Pending.

(** The status rule of [create_agreement] and [list_agreements]. *)
Definition renewal_status_of (end_date renewal_due today : Z) : renewal_status :=
  if bool_decide (end_date < today)%Z then Expired
  else if bool_decide (renewal_due ≤ today ∧ today ≤ end_date)%Z then Due
  else Active.

(** [if p: q[k] = p] *)
Definition with_filter (k : string) (p : option string) (q : gmap string string)
  : gmap string string :=
  match given p with
  | Some s => <[k := s]> q
  | None => q
  end.

(** The reference check every creation handler starts with:
[[
    try:
        doc = db[name].find_one({"_id": ObjectId(ref)})
        if not doc:
            raise HTTPException(status_code=404, detail=missing)
    except Exception:
        raise HTTPException(status_code=400, detail=invalid)
]] *)
Definition resolve (name ref missing invalid : string) (db : database)
  : result document :=
  try_except
    (o ← ObjectId ref;
     match find_one o (db !!! name) with
     | Some d => Ret d
     | None => Raise (HTTPException 404 missing)
     end)
    (λ _, Raise (HTTPException 400 invalid)).

(** [inv["_id"]] of a fetched document. *)
Definition id_of (d : document) : result string :=
  match d !! "_id" with
  | Some (VOid o) => Ret o
  | _ => Raise KeyError
  end.

Section handlers.
Context `{Runtime}.

(** [str(v)] *)
Definition py_str (v : value) : string :=
  match v with
  | VStr s => s
  | VNone => "None"
  | VOid o => o
  | VDate d => date_isoformat d
  | _ => str_other v
  end.

(** [float(v)] *)
Definition py_float (v : value) : result Q :=
  match v with
  | VNum q => Ret q
  | VStr s =>
      match float_of_str s with
      | Some q => Ret q
      | None => Raise ValueError
      end
  | _ => Raise TypeError
  end.

Definition isoformat_value (v : value) : value :=
  match v with
  | VDate d => VStr (date_isoformat d)
  | VDateTime t => VStr (datetime_isoformat t)
  | _ => v
  end.

Definition oid_str (doc : document) : document :=
  if bool_decide (doc = ∅) then doc
  else
    let d :=
      match doc !! "_id" with
      | Some v => <["id" := VStr (py_str v)]> (delete "_id" doc)
      | None => doc
      end in
    isoformat_value <$> d.

(** *** Customers *)

Definition create_customer (env : Env) (payload : Customer.t) (db : database)
  : result response * database :=
  let data := stamp (now env) (Customer.model_dump payload) in
  match bson_encode data with
  | Raise e => (Raise e, db)
  | Ret _ => (Ret (RId (fresh_id env)), insert_one "customer" (fresh_id env) data db)
  end.

Definition list_customers (db : database) : result response :=
  let docs := sort_desc "created_at" (find ∅ (db !!! "customer")) in
  Ret (RDocs (oid_str <$> docs)).

(** *** Purchase orders *)

Definition create_po (env : Env) (payload : Po.t) (db : database)
  : result response * database :=
  match resolve "customer" (Po.customer_id payload)
          "Customer not found" "Invalid customer_id" db with
  | Raise e => (Raise e, db)
  | Ret _ =>
      let data := stamp (now env) (Po.model_dump payload) in
      match bson_encode data with
      | Raise e => (Raise e, db)
      | Ret _ => (Ret (RId (fresh_id env)), insert_one "po" (fresh_id env) data db)
      end
  end.

(** The body of the loop of [list_pos]. *)
Definition po_row (db : database) (d : document) : result document :=
  let po_id := py_str (get d "_id" VNone) in
  let invs := find {["po_id" := po_id]} (db !!! "invoice") in
  billed ← py_sum ((λ i, get i "amount" (VNum 0)) <$> invs);
  amount ← py_float (get d "amount" (VNum 0));
  Ret (<["po_balance" := VNum (Qmax 0 (amount - billed))]>
         (<["billed_amount" := VNum billed]> d)).

Definition list_pos (customer_id : option string) (db : database)
  : result response :=
  let q := with_filter "customer_id" customer_id ∅ in
  let docs := sort_desc "created_at" (find q (db !!! "po")) in
  docs' ← for_each (po_row db) docs;
  Ret (RDocs (oid_str <$> docs')).

(** *** Invoices *)

(** "normalize payment status by current amounts" *)
Definition normalize_payment_status (data : document) : result document :=
  amt ← as_num (or_else (get data "amount" (VNum 0)) (VNum 0));
  rec ← as_num (or_else (get data "amount_received" (VNum 0)) (VNum 0));
  Ret (<["payment_status" := VStr (payment_status_str (invoice_status amt rec))]> data).

Definition create_invoice (env : Env) (payload : Invoice.t) (db : database)
  : result response * database :=
  match resolve "po" (Invoice.po_id payload) "PO not found" "Invalid po_id" db with
  | Raise e => (Raise e, db)
  | Ret _ =>
      match resolve "customer" (Invoice.customer_id payload)
              "Customer not found" "Invalid customer_id" db with
      | Raise e => (Raise e, db)
      | Ret _ =>
          match normalize_payment_status (Invoice.model_dump payload) with
          | Raise e => (Raise e, db)
          | Ret data =>
              match bson_encode (stamp (now env) data) with
              | Raise e => (Raise e, db)
              | Ret _ =>
                  (Ret (RId (fresh_id env)),
                   insert_one "invoice" (fresh_id env) (stamp (now env) data) db)
              end
          end
      end
  end.

(** The body of the loop of [list_invoices]. *)
Definition invoice_row (d : document) : result document :=
  amt ← py_float (get d "amount" (VNum 0));
  rec ← py_float (get d "amount_received" (VNum 0));
  Ret (<["payment_status" := VStr (payment_status_str (invoice_status amt rec))]>
         (<["balance_amount" := VNum (Qmax 0 (amt - rec))]> d)).

Definition list_invoices (po_id customer_id : option string) (db : database)
  : result response :=
  let q := with_filter "customer_id" customer_id (with_filter "po_id" po_id ∅) in
  let docs := sort_desc "created_at" (find q (db !!! "invoice")) in
  docs' ← for_each invoice_row docs;
  Ret (RDocs (oid_str <$> docs')).

(** *** Payments *)

(** "Update invoice totals": the sum over all payments stored with the
    payload's [invoice_id], and the status it gives the invoice. *)
Definition invoice_totals (invoice_id : string) (inv : document) (db : database)
  : result (Q * payment_status) :=
  total_received ←
    py_sum ((λ p, get p "amount" (VNum 0))
              <$> find {["invoice_id" := invoice_id]} (db !!! "payment"));
  amt ← py_float (get inv "amount" (VNum 0));
  Ret (total_received, payment_applied_status total_received amt).

Definition create_payment (env : Env) (payload : Payment.t) (db : database)
  : result response * database :=
  match resolve "invoice" (Payment.invoice_id payload)
          "Invoice not found" "Invalid invoice_id" db with
  | Raise e => (Raise e, db)
  | Ret inv =>
      match resolve "customer" (Payment.customer_id payload)
              "Customer not found" "Invalid customer_id" db with
      | Raise e => (Raise e, db)
      | Ret _ =>
          let data := stamp (now env) (Payment.model_dump payload) in
          match bson_encode data with
          | Raise e => (Raise e, db)
          | Ret _ =>
              let db1 := insert_one "payment" (fresh_id env) data db in
              match invoice_totals (Payment.invoice_id payload) inv db1 with
              | Raise e => (Raise e, db1)
              | Ret (total_received, status) =>
                  match
                    o ← id_of inv;
                    update_one "invoice" o
                      (<["updated_at" := VDateTime (now env)]>
                         (<["payment_status" := VStr (payment_status_str status)]>
                            {["amount_received" := VNum total_received]}))
                      db1
                  with
                  | Raise e => (Raise e, db1)
                  | Ret db2 =>
                      (Ret (RPayment (fresh_id env) total_received
                              (payment_status_str status)), db2)
                  end
              end
          end
      end
  end.

Definition list_payments (invoice_id : option string) (db : database)
  : result response :=
  let q := with_filter "invoice_id" invoice_id ∅ in
  let docs := sort_desc "created_at" (find q (db !!! "payment")) in
  Ret (RDocs (oid_str <$> docs)).

(** *** Agreements *)

(** The renewal fields written once [end_date] is known to be set: the body
    of [if end_date:] in [create_agreement] and [list_agreements]. *)
Definition with_renewal (today : Z) (end_date : value) (d : document)
  : result document :=
  e ← as_date end_date;
  renewal_due ← date_plus_days e (-30);
  Ret (<["renewal_status" :=
           VStr (renewal_status_str (renewal_status_of e renewal_due today))]>
         (<["renewal_due" := VDate renewal_due]> d)).

(** "auto compute renewal_due" of [create_agreement]: a string is parsed
    without a guard. *)
Definition computed_renewal (today : Z) (data : document) : result document :=
  let end_date := get data "end_date" VNone in
  if truthy end_date then
    end_date' ←
      match end_date with
      | VStr s =>
          match fromisoformat s with
          | Some e => Ret (VDate e)
          | None => Raise ValueError
          end
      | v => Ret v
      end;
    with_renewal today end_date' data
  else Ret data.

(** The handler returns its response and the task it adds to
    [background_tasks]: the id to call [check_and_notify_agreement] with. *)
Definition create_agreement (env : Env) (payload : Agreement.t) (db : database)
  : result (response * list string) * database :=
  match resolve "customer" (Agreement.customer_id payload)
          "Customer not found" "Invalid customer_id" db with
  | Raise e => (Raise e, db)
  | Ret _ =>
      match computed_renewal (today env) (Agreement.model_dump payload) with
      | Raise e => (Raise e, db)
      | Ret data =>
          match bson_encode (stamp (now env) data) with
          | Raise e => (Raise e, db)
          | Ret _ =>
              (Ret (RId (fresh_id env), [fresh_id env]),
               insert_one "agreement" (fresh_id env) (stamp (now env) data) db)
          end
      end
  end.

(** [end_date] of a stored agreement after
[[
    if isinstance(end_date, str):
        try: end_date = date.fromisoformat(end_date)
        except Exception: end_date = None
]] *)
Definition parsed_end_date (d : document) : value :=
  match get d "end_date" VNone with
  | VStr s =>
      match fromisoformat s with
      | Some e => VDate e
      | None => VNone
      end
  | v => v
  end.

(** The body of the loop of [list_agreements]; [None] is [continue]. *)
Definition agreement_row (today : Z) (due_within_days : option Z) (d : document)
  : result (option document) :=
  let end_date := parsed_end_date d in
  d' ← (if truthy end_date then with_renewal today end_date d else Ret d);
  keep ←
    match due_within_days with
    | Some n =>
        if truthy end_date then
          e ← as_date end_date;
          if bool_decide (today ≤ e)%Z then
            upper ← date_plus_days today n;
            Ret (bool_decide (e ≤ upper)%Z)
          else Ret false
        else Ret true
    | None => Ret true
    end;
  Ret (if keep : bool then Some (oid_str d') else None).

Definition list_agreements (env : Env) (customer_id : option string)
    (due_within_days : option Z) (db : database) : result response :=
  let q := with_filter "customer_id" customer_id ∅ in
  let docs := sort_desc "created_at" (find q (db !!! "agreement")) in
  rows ← for_each (agreement_row (today env) due_within_days) docs;
  Ret (RDocs (omap id rows)).

(** *** Renewal notifier *)

(** The stub prints the mail; the model records it. *)
Definition send_email_stub (to : list string) (subj text : string)
    (sent : list email) : list email :=
  sent ++ [{| to_emails := to; subject := subj; body := text |}].

Definition renewal_subject (ag : document) : string :=
  "Renewal due for " +:+ py_str (get ag "name" VNone)
    +:+ " (" +:+ py_str (get ag "type" VNone) +:+ ")".

Definition renewal_body (ag : document) (end_date : Z) : string :=
  "Agreement " +:+ py_str (get ag "name" VNone)
    +:+ " for customer " +:+ py_str (get ag "customer_id" VNone)
    +:+ " is due on " +:+ date_isoformat end_date +:+ "." +:+ newline
    +:+ "Please review and renew.".

Definition admin_emails (env : Env) : list string :=
  [default "admin@example.com" (ADMIN_EMAIL env)].

Definition check_and_notify_agreement (env : Env) (agreement_id : string)
    (db : database) (sent : list email) : result () * list email :=
  match ObjectId agreement_id with
  | Raise e => (Raise e, sent)
  | Ret o =>
      match find_one o (db !!! "agreement") with
      | None => (Ret (), sent)
      | Some ag =>
          let end_date := parsed_end_date ag in
          if negb (truthy end_date) then (Ret (), sent)
          else
            match
              e ← as_date end_date;
              renewal_due ← date_plus_days e (-30);
              Ret (e, renewal_due)
            with
            | Raise ex => (Raise ex, sent)
            | Ret (e, renewal_due) =>
                if bool_decide (renewal_due ≤ today env ∧ today env ≤ e)%Z then
                  (Ret (),
                   send_email_stub (admin_emails env) (renewal_subject ag)
                     (renewal_body ag e) sent)
                else (Ret (), sent)
            end
      end
  end.

(** The response and one task per agreement. *)
Definition manual_check_renewals (db : database) : response * list string :=
  let docs := find ∅ (db !!! "agreement") in
  (RChecked (length docs), (λ d, py_str (get d "_id" VNone)) <$> docs).

(** The tasks of one request run in order after its response; a task that
    raises ends the run. *)
Fixpoint run_background_tasks (env : Env) (tasks : list string) (db : database)
    (sent : list email) : list email :=
  match tasks with
  | [] => sent
  | agreement_id :: tasks' =>
      match check_and_notify_agreement env agreement_id db sent with
      | (Ret _, sent') => run_background_tasks env tasks' db sent'
      | (Raise _, sent') => sent'
      end
  end.

(** *** Uploads *)

(** [open(os.path.join(folder, name), "wb")] where [folder] holds files only
    and [name] is built from what the client sent.  A NUL byte makes [open]
    raise [ValueError]; a [/] makes the path name a directory that is not
    there ([FileNotFoundError], [NotADirectoryError]) and a name longer than
    [NAME_MAX] bytes is refused ([ENAMETOOLONG]): each an [OSError]. *)
Definition NAME_MAX : nat := 255.

Definition has_char (a : ascii) (s : string) : bool :=
  existsb (Ascii.eqb a) (list_ascii_of_string s).

Definition file_name_error (name : string) : option exn :=
  if has_char Ascii.zero name then Some ValueError
  else if has_char "/" name || (NAME_MAX <? String.length name)%nat then Some OSError
  else None.

Definition save_upload (env : Env) (entity entity_id field filename content : string)
    (files : gmap string string) : result (string * gmap string string) :=
  let ts := strftime_compact (now env) in
  let safe_name :=
    entity +:+ "_" +:+ entity_id +:+ "_" +:+ field +:+ "_" +:+ ts +:+ "_" +:+ filename in
  match file_name_error safe_name with
  | Some e => Raise e
  | None => Ret ("/uploads/" +:+ safe_name, <[safe_name := content]> files)
  end.

(** [.] and [..] exist in the folder and are no files: [FileResponse] raises
    [RuntimeError] when it is sent. *)
Definition serve_upload (filename : string) (files : gmap string string)
  : result response :=
  if bool_decide (filename ∈ ["."; ".."]) then Raise RuntimeError
  else
    match files !! filename with
    | Some content => Ret (RFile content)
    | None => Raise (HTTPException 404 "File not found")
    end.

Definition upload_document (env : Env)
    (entity entity_id field filename content : string) (w : world)
  : result response * world :=
  let entity := lower entity in
  if negb (bool_decide (entity ∈ ["customer"; "po"; "invoice"; "agreement"])) then
    (Raise (HTTPException 400 "Unsupported entity"), w)
  else
    match save_upload env entity entity_id field filename content (uploads w) with
    | Raise e => (Raise e, w)
    | Ret (url, files) =>
        match
          try_except
            (o ← ObjectId entity_id;
             update_one entity o
               (<["updated_at" := VDateTime (now env)]> {[field := VStr url]}) (db w))
            (λ _, Raise (HTTPException 400 "Invalid entity id or field"))
        with
        | Raise e => (Raise e, {| db := db w; uploads := files; outbox := outbox w |})
        | Ret db' =>
            (Ret (RUrl url), {| db := db'; uploads := files; outbox := outbox w |})
        end
    end.

(** *** Dashboard summary *)

Definition outstanding_total (invs : collection) : result Q :=
  foldl (λ acc inv,
           outstanding ← acc;
           amt ← py_float (get inv "amount" (VNum 0));
           rec ← py_float (get inv "amount_received" (VNum 0));
           Ret (outstanding + Qmax 0 (amt - rec))%Q)
        (Ret 0%Q) invs.

(** One agreement of the loop of [due_within]: does it count? *)
Definition due_in_window (today upper : Z) (ag : document) : result bool :=
  match get ag "end_date" VNone with
  | VStr s =>
      match fromisoformat s with
      | Some e => Ret (bool_decide (today ≤ e ∧ e ≤ upper)%Z)
      | None => Ret false
      end
  | v =>
      if negb (truthy v) then Ret false
      else e ← as_date v; Ret (bool_decide (today ≤ e ∧ e ≤ upper)%Z)
  end.

Definition due_within (today : Z) (days : Z) (db : database) : result nat :=
  upper ← date_plus_days today days;
  flags ← for_each (due_in_window today upper) (find ∅ (db !!! "agreement"));
  Ret (count_true flags).

(** One PO of the last loop: has it balance left to invoice? *)
Definition has_remaining (db : database) (p : document) : result bool :=
  let po_id := py_str (get p "_id" VNone) in
  billed ← py_sum ((λ i, get i "amount" (VNum 0))
                     <$> find {["po_id" := po_id]} (db !!! "invoice"));
  amount ← py_float (get p "amount" (VNum 0));
  Ret (Qltb 0 (amount - billed)).

Definition dashboard_summary (env : Env) (db : database) : result response :=
  let total_pos := count_documents ∅ (db !!! "po") in
  let total_invoices := count_documents ∅ (db !!! "invoice") in
  let paid := count_documents {["payment_status" := "Paid"]} (db !!! "invoice") in
  let partial := count_documents {["payment_status" := "Partial"]} (db !!! "invoice") in
  let pending := count_documents {["payment_status" := "Pending"]} (db !!! "invoice") in
  outstanding ← outstanding_total (find ∅ (db !!! "invoice"));
  up60 ← due_within (today env) 60 db;
  up30 ← due_within (today env) 30 db;
  up7 ← due_within (today env) 7 db;
  flags ← for_each (has_remaining db) (find ∅ (db !!! "po"));
  Ret (RSummary {|
    purchase_orders := total_pos;
    invoices := total_invoices;
    paid_invoices := paid;
    partial_invoices := partial;
    pending_invoices := pending;
    outstanding_amount := round2 outstanding;
    upcoming_60 := up60;
    upcoming_30 := up30;
    upcoming_7 := up7;
    upcoming_invoices_pos := count_true flags
  |}).

(** *** Health *)

Definition root : response := RMessage "Business Ops Dashboard API running".

Definition test_database (db : database) : response :=
  RDiagnostic (take 10 (map_to_list db).*1).

(** *** The API

    One request: the payload is validated against its schema, the handler
    runs, and after a response the background tasks of the request run. *)
Definition serve (env : Env) (req : request) (w : world) : result response * world :=
  let on_db (r : result response * database) : result response * world :=
    (r.1, {| db := r.2; uploads := uploads w; outbox := outbox w |}) in
  let read (r : result response) : result response * world := (r, w) in
  match req with
  | GetRoot => read (Ret root)
  | GetTest => read (Ret (test_database (db w)))
  | PostCustomers payload => on_db (create_customer env payload (db w))
  | GetCustomers => read (list_customers (db w))
  | PostPos payload =>
      if Po.valid payload then on_db (create_po env payload (db w))
      else read (Raise RequestValidationError)
  | GetPos customer_id => read (list_pos customer_id (db w))
  | PostInvoices payload =>
      if Invoice.valid payload then on_db (create_invoice env payload (db w))
      else read (Raise RequestValidationError)
  | GetInvoices po_id customer_id => read (list_invoices po_id customer_id (db w))
  | PostPayments payload =>
      if Payment.valid payload then on_db (create_payment env payload (db w))
      else read (Raise RequestValidationError)
  | GetPayments invoice_id => read (list_payments invoice_id (db w))
  | PostAgreements payload =>
      match create_agreement env payload (db w) with
      | (Ret (resp, tasks), db') =>
          (Ret resp,
           {| db := db'; uploads := uploads w;
              outbox := run_background_tasks env tasks db' (outbox w) |})
      | (Raise e, db') => on_db (Raise e, db')
      end
  | GetAgreements customer_id due_within_days =>
      read (list_agreements env customer_id due_within_days (db w))
  | PostCheckRenewals =>
      let '(resp, tasks) := manual_check_renewals (db w) in
      (Ret resp,
       {| db := db w; uploads := uploads w;
          outbox := run_background_tasks env tasks (db w) (outbox w) |})
  | PostUpload entity entity_id field filename content =>
      upload_document env entity entity_id field filename content w
  | GetUpload filename => read (serve_upload filename (uploads w))
  | GetDashboardSummary => read (dashboard_summary env (db w))
  end.

(** A session: requests served one after the other. *)
Fixpoint run (reqs : list (Env * request)) (w : world)
  : list (result response) * world :=
  match reqs with
  | [] => ([], w)
  | (env, req) :: reqs' =>
      let '(r, w') := serve env req w in
      let '(rs, w'') := run reqs' w' in
      (r :: rs, w'')
  end.

End handlers.

(** ** The specification's vocabulary *)

(** The amount of an invoice or a payment. *)
Definition amount_of (d : document) : Q :=
  match d !! "amount" with
  | Some (VNum q) => q
  | _ => 0%Q
  end.

(** Σ amount over a list of documents. *)
Definition total_amount (c : collection) : Q :=
  foldr (λ d acc, (amount_of d + acc)%Q) 0%Q c.

(** The payments stored with the string [invoice_id], the invoices stored
    with the string [po_id]: what the queries [find({"invoice_id": ...})] and
    [find({"po_id": ...})] of the handlers select.  A payment that names the
    same invoice in another spelling of its id is not among them. *)
Definition payments_of (invoice_id : string) (db : database) : collection :=
  filter (λ p, p !! "invoice_id" = Some (VStr invoice_id)) (db !!! "payment").



Definition invoices_of (po_id : string) (db : database) : collection :=
  filter (λ i, i !! "po_id" = Some (VStr po_id)) (db !!! "invoice").

(** A field of the stored invoice with id [o]. *)
Definition invoice_field (o k : string) (db : database) : option value :=
  d ← find_one o (db !!! "invoice"); d !! k.

(** Does the reference [ref] into collection [name] resolve? *)
Definition resolves (name ref : string) (db : database) : Prop :=
  ∃ o d, ObjectId ref = Ret o ∧ find_one o (db !!! name) = Some d.

(** The references a creation request declares: collection and id. *)
Definition references (req : request) : list (string * string) :=
  match req with
  | PostPos p => [("customer", Po.customer_id p)]
  | PostInvoices p => [("po", Invoice.po_id p); ("customer", Invoice.customer_id p)]
  | PostPayments p =>
      [("invoice", Payment.invoice_id p); ("customer", Payment.customer_id p)]
  | PostAgreements p => [("customer", Agreement.customer_id p)]
  | _ => []
  end.


(** The document [create_payment] inserts. *)
Definition payment_doc (ep : Env * Payment.t) : document :=
  <["_id" := VOid (fresh_id ep.1)]> (stamp (now ep.1) (Payment.model_dump ep.2)).

(** The fields [create_payment] sets on the invoice. *)
Definition invoice_update (t : Z) (total_received : Q) (status : payment_status)
  : document :=
  <["updated_at" := VDateTime t]>
    (<["payment_status" := VStr (payment_status_str status)]>
       {["amount_received" := VNum total_received]}).



Definition contains (needle hay : string) : Prop :=
  ∃ pre post, hay = pre +:+ needle +:+ post.

Section vocabulary.
Context `{Runtime}.

(** The mail of a renewal check. *)
Definition renewal_mail (env : Env) (ag : document) (end_date : Z) : email :=
  {| to_emails := admin_emails env;
     subject := renewal_subject ag;
     body := renewal_body ag end_date |}.

(** The agreement with id [agreement_id] exists as [ag], its end date is
    present and parses to [e], and [e − 30 days ≤ today ≤ e]. *)
Definition in_due_window (today : Z) (agreement_id : string) (db : database)
    (ag : document) (e : Z) : Prop :=
  ∃ o renewal_due,
    ObjectId agreement_id = Ret o
    ∧ find_one o (db !!! "agreement") = Some ag
    ∧ parsed_end_date ag = VDate e
    ∧ date_plus_days e (-30) = Ret renewal_due
    ∧ (renewal_due ≤ today ∧ today ≤ e)%Z.

(** The status GET /api/invoices derives from the stored amounts. *)
Definition recomputed_status (d : document) : option payment_status :=
  match py_float (get d "amount" (VNum 0)),
        py_float (get d "amount_received" (VNum 0)) with
  | Ret amt, Ret rec => Some (invoice_status amt rec)
  | _, _ => None
  end.

(** Invoices counted by the status they store, and by the status their
    stored amounts give. *)
Definition stored_status_is (st : payment_status) (d : document) : Prop :=
  d !! "payment_status" = Some (VStr (payment_status_str st)).

#[global] Instance stored_status_is_dec st d : Decision (stored_status_is st d).
Proof. unfold stored_status_is. apply _. Defined.



End vocabulary.

(** ** Vocabulary of the further properties *)

(** The sum of [f] over a list. *)
Definition Qsum {A} (f : A → Q) (l : list A) : Q :=
  foldr (λ x acc, (f x + acc)%Q) 0%Q l.

(** The number stored under [k] in a row, 0 when there is none. *)
Definition num_field (k : string) (d : document) : Q :=
  match d !! k with
  | Some (VNum q) => q
  | _ => 0%Q
  end.

(** A row of GET /api/pos reports a positive [po_balance]. *)
Definition positive_balance (row : document) : bool :=
  match row !! "po_balance" with
  | Some (VNum q) => Qltb 0 q
  | _ => false
  end.

Section vocabulary_more.
Context `{Runtime}.

(** [max(0.0, amt - rec)] of a stored invoice. *)
Definition balance_of (d : document) : Q :=
  match py_float (get d "amount" (VNum 0)),
        py_float (get d "amount_received" (VNum 0)) with
  | Ret amt, Ret rec => Qmax 0 (amt - rec)
  | _, _ => 0%Q
  end.

(** An agreement with the renewal fields [with_renewal] computes from the
    end date [e]. *)
Definition renewed (today e : Z) (d : document) : document :=
  <["renewal_status" :=
      VStr (renewal_status_str (renewal_status_of e (e - 30) today))]>
    (<["renewal_due" := VDate (e - 30)]> d).

End vocabulary_more.

(** Every document of [db] is still in [db'], under its id, and no
    collection has shrunk. *)
Definition keeps_documents (db db' : database) : Prop :=
  ∀ name,
    (length (db !!! name) ≤ length (db' !!! name))%nat
    ∧ ∀ o d, find_one o (db !!! name) = Some d →
             ∃ d', find_one o (db' !!! name) = Some d'.

(** A field name that addresses a top-level key of a document in [$set]:
    not empty, no [.] (a path into an embedded document), no leading [$],
    and not [_id]. *)
Definition plain_field (field : string) : bool :=
  match field with
  | EmptyString => false
  | String a _ =>
      negb (Ascii.eqb a "$") && negb (has_char "." field)
      && negb (String.eqb field "_id")
  end.

(** A document passes the query parameter [p] on field [k]: the parameter
    is absent or empty, or the field is that string. *)
Definition passes (k : string) (p : option string) (d : document) : Prop :=
  match p with
  | Some s => s = "" ∨ d !! k = Some (VStr s)
  | None => True
  end.

(** ** A runtime for the examples

    ISO dates in the form YYYY-MM-DD, whole seconds of UTC for time stamps,
    documents sorted by a [datetime] key.  The examples below hold no
    numeric strings and print no numbers, so [float_of_str] parses nothing
    and [str_other] prints a placeholder. *)
Module Sample.
Local Open Scope Z_scope.

Definition digit (n : Z) : ascii := ascii_of_nat (48 + Z.to_nat (n mod 10))%nat.

(** [n] in [k] decimal digits, zero padded. *)
Fixpoint digits (k : nat) (n : Z) : string :=
  match k with
  | O => EmptyString
  | S k' => digits k' (n / 10) +:+ String (digit n) EmptyString
  end.

(** Decimal value of a string of digits. *)
Fixpoint number (acc : Z) (s : string) : option Z :=
  match s with
  | EmptyString => Some acc
  | String a s' =>
      let n := nat_of_ascii a in
      if ((48 <=? n) && (n <=? 57))%nat
      then number (10 * acc + Z.of_nat (n - 48)) s'
      else None
  end.

Definition is_leap (y : Z) : bool :=
  ((y mod 4 =? 0) && negb (y mod 100 =? 0) || (y mod 400 =? 0))%Z.

Definition days_in_month (y m : Z) : Z :=
  if (m =? 2)%Z then (if is_leap y then 29 else 28)
  else if ((m =? 4) || (m =? 6) || (m =? 9) || (m =? 11))%Z then 30
  else 31.

(** [date(y, m, d).toordinal()] *)
Definition toordinal (y m d : Z) : Z :=
  let y' := if (m <=? 2)%Z then y - 1 else y in
  let era := y' / 400 in
  let yoe := y' - era * 400 in
  let mp := if (2 <? m)%Z then m - 3 else m + 9 in
  let doy := (153 * mp + 2) / 5 + d - 1 in
  let doe := yoe * 365 + yoe / 4 - yoe / 100 + doy in
  era * 146097 + doe - 305.

(** [date.fromordinal(n)] as (year, month, day) *)
Definition fromordinal (n : Z) : Z * Z * Z :=
  let z := n + 305 in
  let era := z / 146097 in
  let doe := z - era * 146097 in
  let yoe := (doe - doe / 1460 + doe / 36524 - doe / 146096) / 365 in
  let doy := doe - (365 * yoe + yoe / 4 - yoe / 100) in
  let mp := (5 * doy + 2) / 153 in
  let d := doy - (153 * mp + 2) / 5 + 1 in
  let m := if (mp <? 10)%Z then mp + 3 else mp - 9 in
  let y := yoe + era * 400 in
  (if (m <=? 2)%Z then y + 1 else y, m, d).

Definition fromisoformat (s : string) : option Z :=
  if (String.length s =? 10)%nat
     && (String.eqb (substring 4 1 s) "-") && (String.eqb (substring 7 1 s) "-")
  then
    y ← number 0 (substring 0 4 s);
    m ← number 0 (substring 5 2 s);
    d ← number 0 (substring 8 2 s);
    if ((1 <=? y) && (1 <=? m) && (m <=? 12) && (1 <=? d)
        && (d <=? days_in_month y m))%Z
    then Some (toordinal y m d) else None
  else None.

Definition date_isoformat (n : Z) : string :=
  let '(y, m, d) := fromordinal n in
  digits 4 y +:+ "-" +:+ digits 2 m +:+ "-" +:+ digits 2 d.

(** A time stamp is the number of seconds since 1970-01-01T00:00:00Z. *)
Definition clock (t : Z) : Z * Z * Z :=
  let s := t mod 86400 in (s / 3600, s mod 3600 / 60, s mod 60).

Definition datetime_isoformat (t : Z) : string :=
  let '(h, mi, s) := clock t in
  date_isoformat (t / 86400 + 719163) +:+ "T" +:+ digits 2 h +:+ ":"
    +:+ digits 2 mi +:+ ":" +:+ digits 2 s +:+ "+00:00".

Definition strftime_compact (t : Z) : string :=
  let '(y, m, d) := fromordinal (t / 86400 + 719163) in
  let '(h, mi, s) := clock t in
  digits 4 y +:+ digits 2 m +:+ digits 2 d +:+ digits 2 h +:+ digits 2 mi
    +:+ digits 2 s.

Definition float_of_str (s : string) : option Q := None.

Definition str_other (v : value) : string := "<object>".

(** [round(x, 2)], ties to even. *)
Definition round2 (x : Q) : Q :=
  let n := (Qnum (x * 100) / Z.pos (Qden (x * 100)))%Z in
  let r := (x * 100 - inject_Z n)%Q in
  let up :=
    match (r ?= 1 # 2)%Q with
    | Gt => true
    | Eq => Z.odd n
    | Lt => false
    end in
  (inject_Z (if up then n + 1 else n) / 100)%Q.

Definition sort_key (k : string) (d : document) : Z :=
  match d !! k with
  | Some (VDateTime t) => t
  | _ => 0
  end.

(** Descending by a [datetime] key, stable. *)
Fixpoint insert_desc (k : string) (d : document) (c : collection) : collection :=
  match c with
  | [] => [d]
  | d' :: c' =>
      if (sort_key k d' <? sort_key k d)%Z then d :: d' :: c'
      else d' :: insert_desc k d c'
  end.

Definition sort_desc (k : string) (c : collection) : collection :=
  foldr (insert_desc k) [] c.

Definition runtime : Runtime.
Proof.
  refine (Build_Runtime fromisoformat date_isoformat datetime_isoformat
            strftime_compact float_of_str str_other round2 sort_desc _).
  intros k c. induction c as [|d c IH]; simpl; [done|].
  rewrite <- IH at 2. generalize (sort_desc k c). clear. intros c.
  induction c as [|d' c IH]; simpl; [done|].
  destruct (sort_key k d' <? sort_key k d)%Z; [done|].
  rewrite IH. apply Permutation_swap.
Defined.

#[local] Existing Instance runtime.

(** *** Example data

    One customer, one purchase order of 1000 and what is created against
    them, on 2026-11-04 (ordinal 739924) at 08:00:00 UTC. *)

Definition request_env (id : string) : Env :=
  {| fresh_id := id; now := 1793779200; today := 739924; ADMIN_EMAIL := None |}.

Definition acme_id : string := "65f0a1b2c3d4e5f601020301".
Definition po_1_id : string := "65f0a1b2c3d4e5f601020302".
Definition invoice_1_id : string := "65f0a1b2c3d4e5f601020303".
Definition agreement_1_id : string := "65f0a1b2c3d4e5f601020304".
Definition payment_1_id : string := "65f0a1b2c3d4e5f601020305".
Definition payment_2_id : string := "65f0a1b2c3d4e5f601020306".
Definition unknown_id : string := "65f0a1b2c3d4e5f6010203ff".

Definition acme : Customer.t :=
  {| Customer.name := "Acme";
     Customer.contact_person := None;
     Customer.email := None;
     Customer.phone := None;
     Customer.industry := None;
     Customer.tax_id := None;
     Customer.address := None;
     Customer.notes := None;
     Customer.company_profile_url := None;
     Customer.kyc_url := None;
     Customer.master_service_agreement_url := None |}.

Definition po_for (customer_id : string) : Po.t :=
  {| Po.po_number := "PO-1";
     Po.customer_id := customer_id;
     Po.po_date := None;
     Po.amount := 1000;
     Po.description := None;
     Po.validity := None;
     Po.status := PoActive;
     Po.po_pdf_url := None;
     Po.related_docs_url := [] |}.

Definition invoice (amount : Q) : Invoice.t :=
  {| Invoice.invoice_number := "INV-1";
     Invoice.po_id := po_1_id;
     Invoice.customer_id := acme_id;
     Invoice.invoice_date := None;
     Invoice.due_date := None;
     Invoice.amount := amount;
     Invoice.amount_received := 0;
     Invoice.payment_status := Pending;
     Invoice.mode_of_payment := None;
     Invoice.payment_timeline := None;
     Invoice.invoice_pdf_url := None;
     Invoice.proof_of_payment_url := None |}.

Definition payment (amount : Q) : Payment.t :=
  {| Payment.payment_id := "UTR-1";
     Payment.invoice_id := invoice_1_id;
     Payment.customer_id := acme_id;
     Payment.date := None;
     Payment.amount := amount;
     Payment.mode := None;
     Payment.remarks := None |}.



Definition agreement (end_date : option Z) : Agreement.t :=
  {| Agreement.name := "MSA";
     Agreement.type := TypeAgreement;
     Agreement.customer_id := acme_id;
     Agreement.start_date := None;
     Agreement.end_date := end_date;
     Agreement.terms_summary := None;
     Agreement.renewal_status := Active;
     Agreement.renewal_due := None;
     Agreement.signed_copy_url := None;
     Agreement.supporting_docs_url := [] |}.

Definition empty : world := {| db := ∅; uploads := ∅; outbox := [] |}.

(** The world after a session. *)
Definition after (reqs : list (Env * request)) (w : world) : world := (run reqs w).2.

Definition with_po : world :=
  after [(request_env acme_id, PostCustomers acme);
         (request_env po_1_id, PostPos (po_for acme_id))] empty.

Definition with_invoice (amount : Q) : world :=
  after [(request_env invoice_1_id, PostInvoices (invoice amount))] with_po.

Definition with_payment (amount paid : Q) : world :=
  after [(request_env payment_1_id, PostPayments (payment paid))]
        (with_invoice amount).


(** An agreement with an end date cannot come from POST /api/agreements
    (the store does not encode a [datetime.date]); another client of the
    store wrote this one, with the end date as an ISO string. *)
Definition stored_agreement (end_date : string) : document :=
  <["_id" := VOid agreement_1_id]>
    (<["end_date" := VStr end_date]>
       (stamp 1793779200 (Agreement.model_dump (agreement None)))).

Definition with_stored_agreement (end_date : string) : world :=
  {| db := <["agreement" := [stored_agreement end_date]]> (db with_po);
     uploads := uploads with_po;
     outbox := outbox with_po |}.

(** The first document of a collection, the rows of a response. *)
Definition first_of (name : string) (w : world) : document :=
  default ∅ (head (db w !!! name)).

Definition rows_of (r : result response) : list document :=
  match r with
  | Ret (RDocs docs) => docs
  | _ => []
  end.

Definition summary_of (r : result response) : option summary :=
  match r with
  | Ret (RSummary s) => Some s
  | _ => None
  end.

End Sample.

(** * Properties *)

(** ** Comparisons, loops and queries *)

Lemma Qleb_le x y : Qleb x y = true ↔ (x <= y)%Q.
Proof. apply Qle_bool_iff. Qed.

Lemma Qleb_gt x y : Qleb x y = false ↔ (y < x)%Q.
Proof.
  unfold Qleb. split; intros Hxy.
  - apply Qnot_le_lt. intros Hle. apply Qle_bool_iff in Hle. congruence.
  - destruct (Qle_bool x y) eqn:E; [|done].
    apply Qle_bool_iff in E. lra.
Qed.

Lemma Qltb_lt x y : Qltb x y = true ↔ (x < y)%Q.
Proof.
  unfold Qltb. rewrite negb_true_iff. apply (Qleb_gt y x).
Qed.

Lemma Qltb_ge x y : Qltb x y = false ↔ (y <= x)%Q.
Proof.
  unfold Qltb. rewrite negb_false_iff. apply (Qleb_le y x).
Qed.

Lemma Qmax_0_nonneg x : (0 <= Qmax 0 x)%Q.
Proof. apply Q.le_max_l. Qed.

Lemma Qmax_0_pos x : (0 <= x)%Q → (Qmax 0 x == x)%Q.
Proof. intros Hx. by apply Q.max_r. Qed.

Lemma Qmax_0_neg x : (x <= 0)%Q → (Qmax 0 x == 0)%Q.
Proof. intros Hx. by apply Q.max_l. Qed.

Lemma for_each_Ret {A B} (f : A → result B) l l' :
  for_each f l = Ret l' → Forall2 (λ a b, f a = Ret b) l l'.
Proof.
  revert l'. induction l as [|a l IH]; simpl; intros l' Hl.
  - injection Hl as <-. constructor.
  - destruct (f a) as [b|] eqn:Hb; [|done]. simpl in Hl.
    destruct (for_each f l) as [bs|] eqn:Hbs; [|done]. simpl in Hl.
    injection Hl as <-. constructor; auto.
Qed.

Lemma for_each_total {A B} (f : A → result B) l :
  Forall (λ a, ∃ b, f a = Ret b) l → ∃ l', for_each f l = Ret l'.
Proof.
  induction 1 as [|a l [b Hb] _ [bs Hbs]]; simpl; [by eexists|].
  rewrite Hb. simpl. rewrite Hbs. simpl. by eexists.
Qed.

Lemma matches_singleton k s (d : document) :
  matches {[k := s]} d ↔ d !! k = Some (VStr s).
Proof. unfold matches. by rewrite map_Forall_singleton. Qed.

Lemma find_app q (c1 c2 : collection) : find q (c1 ++ c2) = find q c1 ++ find q c2.
Proof. apply filter_app. Qed.

Lemma find_one_Some o (c : collection) d :
  find_one o c = Some d → has_id o d ∧ d ∈ c.
Proof.
  unfold find_one. intros Hd. apply head_Some_elem_of in Hd.
  by apply list_elem_of_filter in Hd.
Qed.

Lemma find_one_cons o d (c : collection) :
  find_one o (d :: c) = if bool_decide (has_id o d) then Some d else find_one o c.
Proof.
  unfold find_one. case_bool_decide.
  - by rewrite filter_cons_True.
  - by rewrite filter_cons_False.
Qed.

Lemma find_one_set_first o o' (set : document) (c : collection) :
  set !! "_id" = None →
  find_one o' (set_first o set c) =
    if bool_decide (o' = o) then (set ∪.) <$> find_one o c else find_one o' c.
Proof.
  intros Hset. induction c as [|d c IH]; cbn [set_first].
  - unfold find_one. simpl. by case_bool_decide.
  - assert (∀ x, has_id x (set ∪ d) ↔ has_id x d) as Hid.
    { intros x. unfold has_id. rewrite lookup_union_r by done. done. }
    destruct (bool_decide (has_id o d)) eqn:Hd.
    + apply bool_decide_eq_true in Hd.
      rewrite !find_one_cons. rewrite (bool_decide_ext _ _ (Hid o')).
      rewrite (bool_decide_eq_true_2 (has_id o d)) by done.
      case_bool_decide as Ho.
      * subst o'. by rewrite bool_decide_eq_true_2.
      * rewrite bool_decide_eq_false_2; [done|].
        unfold has_id in *. congruence.
    + apply bool_decide_eq_false in Hd.
      rewrite !find_one_cons, IH.
      rewrite (bool_decide_eq_false_2 (has_id o d)) by done.
      destruct (bool_decide (has_id o' d)) eqn:Hd'; [|done].
      apply bool_decide_eq_true in Hd'.
      rewrite bool_decide_eq_false_2; [done|]. congruence.
Qed.

(** ** What the store can encode *)

Lemma encodable_empty : encodable ∅.
Proof. apply map_Forall_empty. Qed.

Lemma encodable_insert k v (d : document) :
  is_date v = false → encodable d → encodable (<[k := v]> d).
Proof. intros Hv Hd. by apply map_Forall_insert_2. Qed.

Lemma encodable_stamp t (d : document) : encodable d → encodable (stamp t d).
Proof. intros Hd. unfold stamp. by repeat apply encodable_insert. Qed.

Lemma encodable_lookup (d : document) k t : encodable d → d !! k ≠ Some (VDate t).
Proof. intros Hd Hk. by specialize (Hd k _ Hk). Qed.

Lemma bson_encode_Ret (d : document) : encodable d → bson_encode d = Ret ().
Proof. intros Hd. unfold bson_encode. by rewrite bool_decide_eq_true_2. Qed.

Lemma bson_encode_date (d : document) k t :
  d !! k = Some (VDate t) → bson_encode d = Raise InvalidDocument.
Proof.
  intros Hk. unfold bson_encode. rewrite bool_decide_eq_false_2; [done|].
  intros Hd. by eapply encodable_lookup.
Qed.

Lemma bson_encode_cases (d : document) :
  (encodable d ∧ bson_encode d = Ret ())
  ∨ (¬ encodable d ∧ bson_encode d = Raise InvalidDocument).
Proof. unfold bson_encode. case_bool_decide; [by left|by right]. Qed.

Lemma is_date_opt_str o : is_date (opt_str o) = false.
Proof. by destruct o. Qed.

Ltac dump_encodable :=
  cbn [list_to_map foldr fst snd];
  repeat (apply encodable_insert; [first [apply is_date_opt_str | reflexivity]|]);
  apply encodable_empty.

Lemma customer_dump_encodable p : encodable (Customer.model_dump p).
Proof. unfold Customer.model_dump. dump_encodable. Qed.

Lemma po_dump_encodable p : Po.po_date p = None → encodable (Po.model_dump p).
Proof. intros Hd. unfold Po.model_dump. rewrite Hd. dump_encodable. Qed.

Lemma invoice_dump_encodable p :
  Invoice.invoice_date p = None → Invoice.due_date p = None →
  encodable (Invoice.model_dump p).
Proof. intros Hi Hd. unfold Invoice.model_dump. rewrite Hi, Hd. dump_encodable. Qed.

Lemma payment_dump_encodable p : encodable (Payment.model_dump p).
Proof. unfold Payment.model_dump. dump_encodable. Qed.

Lemma agreement_dump_encodable p :
  Agreement.start_date p = None → Agreement.end_date p = None →
  Agreement.renewal_due p = None →
  encodable (Agreement.model_dump p).
Proof.
  intros Hs He Hr. unfold Agreement.model_dump. rewrite Hs, He, Hr. dump_encodable.
Qed.

Lemma invoice_dump_dates p :
  Invoice.model_dump p !! "invoice_date" = Some (opt_date (Invoice.invoice_date p))
  ∧ Invoice.model_dump p !! "due_date" = Some (opt_date (Invoice.due_date p)).
Proof. split; vm_compute; reflexivity. Qed.

Lemma po_dump_date p : Po.model_dump p !! "po_date" = Some (opt_date (Po.po_date p)).
Proof. vm_compute. reflexivity. Qed.

Lemma agreement_dump_start_date p :
  Agreement.model_dump p !! "start_date" = Some (opt_date (Agreement.start_date p)).
Proof. vm_compute. reflexivity. Qed.

Section properties.
Context `{Runtime}.

Lemma elem_of_sort_desc k (c : collection) d : d ∈ sort_desc k c ↔ d ∈ c.
Proof. by rewrite (sort_desc_perm k c). Qed.

(** Outside [_id] and [id], [oid_str] only rewrites dates. *)
Lemma oid_str_lookup (d : document) k :
  k ≠ "id" → k ≠ "_id" → oid_str d !! k = isoformat_value <$> d !! k.
Proof.
  intros Hid H_id. unfold oid_str. case_bool_decide as Hd.
  - subst d. by rewrite lookup_empty.
  - rewrite lookup_fmap. destruct (d !! "_id"); [|done].
    by rewrite lookup_insert_ne, lookup_delete_ne.
Qed.

(** ** Invoice status and balance *)

Lemma invoice_status_Pending amt rec :
  invoice_status amt rec = Pending ↔ (rec <= 0)%Q.
Proof.
  unfold invoice_status. destruct (Qleb rec 0) eqn:E.
  - apply Qleb_le in E. done.
  - apply Qleb_gt in E. split; [by destruct (Qltb rec amt)|lra].
Qed.

Lemma invoice_status_Partial amt rec :
  invoice_status amt rec = Partial ↔ (0 < rec ∧ rec < amt)%Q.
Proof.
  unfold invoice_status. destruct (Qleb rec 0) eqn:E.
  - apply Qleb_le in E. split; [done|lra].
  - apply Qleb_gt in E. destruct (Qltb rec amt) eqn:E'.
    + apply Qltb_lt in E'. done.
    + apply Qltb_ge in E'. split; [done|lra].
Qed.

Lemma invoice_status_Paid amt rec :
  invoice_status amt rec = Paid ↔ (0 < rec ∧ amt <= rec)%Q.
Proof.
  unfold invoice_status. destruct (Qleb rec 0) eqn:E.
  - apply Qleb_le in E. split; [done|lra].
  - apply Qleb_gt in E. destruct (Qltb rec amt) eqn:E'.
    + apply Qltb_lt in E'. split; [done|lra].
    + apply Qltb_ge in E'. done.
Qed.

Lemma invoice_row_numeric (d : document) a r :
  d !! "amount" = Some (VNum a) → d !! "amount_received" = Some (VNum r) →
  invoice_row d =
    Ret (<["payment_status" := VStr (payment_status_str (invoice_status a r))]>
           (<["balance_amount" := VNum (Qmax 0 (a - r))]> d)).
Proof.
  intros Ha Hr. unfold invoice_row, get. by rewrite Ha, Hr.
Qed.

Lemma list_invoices_rows po_id customer_id db out :
  list_invoices po_id customer_id db = Ret (RDocs out) →
  ∃ rows,
    Forall2 (λ d row, invoice_row d = Ret row)
      (sort_desc "created_at"
         (find (with_filter "customer_id" customer_id (with_filter "po_id" po_id ∅))
            (db !!! "invoice")))
      rows
    ∧ out = oid_str <$> rows.
Proof.
  unfold list_invoices. intros Hout.
  destruct (for_each invoice_row _) as [rows|] eqn:Hrows; [|done].
  simpl in Hout. injection Hout as <-.
  exists rows. split; [by apply for_each_Ret|done].
Qed.

(** C1 (amended): for every stored invoice with amount [a] and
    amount_received [r] that GET /api/invoices selects, the response holds a
    row for it whose payment_status is Pending iff [r ≤ 0], Partial iff
    [0 < r < a] and Paid iff [0 < r] and [r ≥ a], and whose balance_amount is
    [max(0, a − r)]: [a − r] when [r ≤ a], 0 when [r ≥ a], never negative. *)
Theorem list_invoices_status_balance po_id customer_id db out (d : document) a r :
  list_invoices po_id customer_id db = Ret (RDocs out) →
  d ∈ find (with_filter "customer_id" customer_id (with_filter "po_id" po_id ∅))
        (db !!! "invoice") →
  d !! "amount" = Some (VNum a) →
  d !! "amount_received" = Some (VNum r) →
  ∃ row st bal,
    row ∈ out
    ∧ row = oid_str (<["payment_status" := VStr (payment_status_str st)]>
                       (<["balance_amount" := VNum bal]> d))
    ∧ row !! "payment_status" = Some (VStr (payment_status_str st))
    ∧ row !! "balance_amount" = Some (VNum bal)
    ∧ (st = Pending ↔ (r <= 0)%Q)
    ∧ (st = Partial ↔ (0 < r ∧ r < a)%Q)
    ∧ (st = Paid ↔ (0 < r ∧ a <= r)%Q)
    ∧ bal = Qmax 0 (a - r)
    ∧ ((r <= a)%Q → (bal == a - r)%Q)
    ∧ ((a <= r)%Q → (bal == 0)%Q)
    ∧ (0 <= bal)%Q.
Proof.
  intros Hout Hd Ha Hr.
  destruct (list_invoices_rows _ _ _ _ Hout) as (rows & Hrows & ->).
  apply (elem_of_sort_desc "created_at") in Hd.
  apply list_elem_of_lookup in Hd as [i Hi].
  destruct (Forall2_lookup_l _ _ _ _ _ Hrows Hi) as (row & Hrow & Hrun).
  rewrite (invoice_row_numeric d a r Ha Hr) in Hrun. injection Hrun as <-.
  eexists _, (invoice_status a r), (Qmax 0 (a - r)).
  split; [|split; [reflexivity|]].
  { apply list_elem_of_fmap. eexists. split; [reflexivity|].
    apply list_elem_of_lookup. by exists i. }
  split.
  { rewrite oid_str_lookup by done. by rewrite lookup_insert_eq. }
  split.
  { rewrite oid_str_lookup by done.
    rewrite lookup_insert_ne by done. by rewrite lookup_insert_eq. }
  split; [apply invoice_status_Pending|].
  split; [apply invoice_status_Partial|].
  split; [apply invoice_status_Paid|].
  split; [done|].
  split; [intros; apply Qmax_0_pos; lra|].
  split; [intros; apply Qmax_0_neg; lra|].
  apply Qmax_0_nonneg.
Qed.

(** ** Sums of amounts *)

Lemma py_sum_snoc vs v :
  py_sum (vs ++ [v]) = a ← py_sum vs; q ← as_num v; Ret (a + q)%Q.
Proof. unfold py_sum. by rewrite foldl_snoc. Qed.

Lemma total_amount_app c1 c2 :
  (total_amount (c1 ++ c2) == total_amount c1 + total_amount c2)%Q.
Proof.
  induction c1 as [|d c1 IH]; simpl.
  - ring.
  - rewrite IH. ring.
Qed.

Lemma get_amount_num (d : document) q :
  get d "amount" (VNum 0) = VNum q → amount_of d = q.
Proof.
  unfold get, amount_of. destruct (d !! "amount") as [v|]; intros Hv.
  - by subst v.
  - by injection Hv.
Qed.

(** When [sum(d.get("amount", 0) for d in c)] returns, it is Σ amount. *)
Lemma py_sum_amounts (c : collection) t :
  py_sum ((λ d, get d "amount" (VNum 0)) <$> c) = Ret t →
  (t == total_amount c)%Q.
Proof.
  revert t. induction c as [|d c IH] using rev_ind; intros t.
  - intros [= <-]. reflexivity.
  - rewrite fmap_app. simpl. rewrite py_sum_snoc.
    destruct (py_sum _) as [a|]; [|done]. simpl.
    destruct (get d "amount" (VNum 0)) eqn:Hd; try done. simpl.
    intros [= <-]. rewrite total_amount_app, (IH a) by done. simpl.
    rewrite (get_amount_num _ _ Hd). ring.
Qed.

Lemma py_sum_amounts_snoc (c : collection) (d : document) t q :
  py_sum ((λ d, get d "amount" (VNum 0)) <$> c) = Ret t →
  d !! "amount" = Some (VNum q) →
  py_sum ((λ d, get d "amount" (VNum 0)) <$> (c ++ [d])) = Ret (t + q)%Q.
Proof.
  intros Ht Hd. rewrite fmap_app. simpl. rewrite py_sum_snoc, Ht. simpl.
  unfold get. by rewrite Hd.
Qed.

Lemma find_singleton k s (c : collection) :
  find {[k := s]} c = filter (λ d, d !! k = Some (VStr s)) c.
Proof. apply list_filter_iff. intros d. apply matches_singleton. Qed.

(** ** Reference checks *)

Lemma resolve_Ret name ref missing invalid db d :
  resolve name ref missing invalid db = Ret d ↔
  ∃ o, ObjectId ref = Ret o ∧ find_one o (db !!! name) = Some d.
Proof.
  unfold resolve. destruct (ObjectId ref) as [o|e]; simpl.
  - destruct (find_one o (db !!! name)) as [d'|] eqn:Hf; simpl.
    + split.
      * intros Hd. injection Hd as ->. by exists o.
      * intros (o' & Ho' & Hd). injection Ho' as <-. congruence.
    + split; [done|]. intros (o' & Ho' & Hd). injection Ho' as <-. congruence.
  - split; [done|]. by intros (? & ? & _).
Qed.

Lemma resolve_resolves name ref missing invalid db :
  (∃ d, resolve name ref missing invalid db = Ret d) ↔ resolves name ref db.
Proof.
  unfold resolves. split.
  - intros [d Hd]. apply resolve_Ret in Hd as (o & ? & ?). by exists o, d.
  - intros (o & d & ? & ?). exists d. apply resolve_Ret. by exists o.
Qed.

Lemma resolve_Ret_resolves name ref missing invalid db d :
  resolve name ref missing invalid db = Ret d → resolves name ref db.
Proof. intros Hd. apply (resolve_resolves name ref missing invalid). by exists d. Qed.

(** The reference check has two outcomes only: the document, or status 400
    with the "Invalid ..." detail. *)
Lemma resolve_cases name ref missing invalid db :
  (∃ d, resolve name ref missing invalid db = Ret d)
  ∨ resolve name ref missing invalid db = Raise (HTTPException 400 invalid).
Proof.
  unfold resolve. destruct (ObjectId ref) as [o|e]; simpl; [|by right].
  destruct (find_one o (db !!! name)); simpl; [left; by eexists|by right].
Qed.

Lemma resolve_unresolved name ref missing invalid db :
  ¬ resolves name ref db →
  resolve name ref missing invalid db = Raise (HTTPException 400 invalid).
Proof.
  intros Hno. destruct (resolve_cases name ref missing invalid db) as [Hd|]; [|done].
  by apply resolve_resolves in Hd.
Qed.

(** ** Store updates *)

Lemma insert_one_same name o data (db : database) :
  insert_one name o data db !!! name = db !!! name ++ [<["_id" := VOid o]> data].
Proof. unfold insert_one. by rewrite lookup_total_insert_eq. Qed.

Lemma insert_one_other name name' o data (db : database) :
  name ≠ name' → insert_one name o data db !!! name' = db !!! name'.
Proof. intros Hne. unfold insert_one. by rewrite lookup_total_insert_ne. Qed.

Lemma find_one_lookup o name (db : database) d :
  find_one o (db !!! name) = Some d → db !! name = Some (db !!! name).
Proof.
  rewrite lookup_total_alt. destruct (db !! name); [done|].
  simpl. unfold find_one. by rewrite filter_nil.
Qed.

Lemma update_one_found name o (set : document) (db : database) d :
  find_one o (db !!! name) = Some d → set !! "_id" = None →
  update_one name o set db = Ret (<[name := set_first o set (db !!! name)]> db).
Proof.
  intros Hd Hset. unfold update_one.
  rewrite (find_one_lookup _ _ _ _ Hd), Hd. by rewrite Hset.
Qed.

Lemma update_one_missing name o (set : document) (db : database) :
  find_one o (db !!! name) = None → update_one name o set db = Ret db.
Proof.
  intros Hd. unfold update_one. rewrite lookup_total_alt in Hd.
  destruct (db !! name) as [c|]; [|done]. simpl in Hd. by rewrite Hd.
Qed.

(** ** Payment application *)

Lemma id_of_found o (c : collection) d : find_one o c = Some d → id_of d = Ret o.
Proof.
  intros [Hid _]%find_one_Some. unfold id_of. unfold has_id in Hid. by rewrite Hid.
Qed.

(** What a successful [create_payment] did. *)
Lemma create_payment_Ret env p db resp db' :
  create_payment env p db = (Ret resp, db') →
  ∃ o inv total amt,
    ObjectId (Payment.invoice_id p) = Ret o
    ∧ find_one o (db !!! "invoice") = Some inv
    ∧ py_sum ((λ d, get d "amount" (VNum 0))
                <$> find {["invoice_id" := Payment.invoice_id p]}
                      (db !!! "payment" ++ [payment_doc (env, p)])) = Ret total
    ∧ py_float (get inv "amount" (VNum 0)) = Ret amt
    ∧ resp = RPayment (fresh_id env) total
               (payment_status_str (payment_applied_status total amt))
    ∧ db' = <["invoice" :=
               set_first o
                 (invoice_update (now env) total (payment_applied_status total amt))
                 (db !!! "invoice")]>
              (insert_one "payment" (fresh_id env)
                 (stamp (now env) (Payment.model_dump p)) db).
Proof.
  unfold create_payment.
  destruct (resolve "invoice" _ _ _ db) as [inv|] eqn:Hinv; [|done].
  destruct (resolve "customer" _ _ _ db) as [cust|] eqn:Hcust; [|done].
  apply resolve_Ret in Hinv as (o & Ho & Hinv).
  destruct (bson_encode _) as [[]|]; [|done].
  unfold invoice_totals. rewrite insert_one_same.
  fold (payment_doc (env, p)).
  destruct (py_sum _) as [total|] eqn:Htotal; [|done]. simpl.
  destruct (py_float _) as [amt|] eqn:Hamt; [|done]. simpl.
  rewrite (id_of_found _ _ _ Hinv). simpl.
  fold (invoice_update (now env) total (payment_applied_status total amt)).
  rewrite (update_one_found "invoice" o _ _ inv); cycle 1.
  { by rewrite insert_one_other. }
  { done. }
  rewrite insert_one_other by done.
  intros [= <- <-]. by exists o, inv, total, amt.
Qed.


Lemma payment_doc_invoice_id ep :
  payment_doc ep !! "invoice_id" = Some (VStr (Payment.invoice_id ep.2)).
Proof. destruct ep as [env p]. vm_compute. reflexivity. Qed.




Lemma run_cons env req reqs w :
  run ((env, req) :: reqs) w =
    let '(r, w1) := serve env req w in
    let '(rs, w2) := run reqs w1 in
    (r :: rs, w2).
Proof. reflexivity. Qed.










(** ** Purchase-order balance *)

Lemma invoice_dump_amount p :
  Invoice.model_dump p !! "amount" = Some (VNum (Invoice.amount p)).
Proof. vm_compute. reflexivity. Qed.

Lemma invoice_dump_received p :
  Invoice.model_dump p !! "amount_received" = Some (VNum (Invoice.amount_received p)).
Proof. vm_compute. reflexivity. Qed.

Lemma as_num_or_else q : ∃ q', as_num (or_else (VNum q) (VNum 0)) = Ret q'.
Proof. unfold or_else. destruct (truthy (VNum q)); by eexists. Qed.

(** [create_invoice] stores the payload with a status of its own. *)
Lemma normalize_payment_status_dump p :
  ∃ st, normalize_payment_status (Invoice.model_dump p)
        = Ret (<["payment_status" := VStr st]> (Invoice.model_dump p)).
Proof.
  unfold normalize_payment_status, get.
  rewrite invoice_dump_amount, invoice_dump_received.
  destruct (as_num_or_else (Invoice.amount p)) as [a ->].
  destruct (as_num_or_else (Invoice.amount_received p)) as [r ->].
  simpl. by eexists.
Qed.

(** The two outcomes of [create_invoice]: an error and the same store, or
    one more invoice holding the payload's amount and PO reference. *)
Lemma create_invoice_cases env p db r db' :
  create_invoice env p db = (r, db') →
  ((∃ e, r = Raise e) ∧ db' = db)
  ∨ ∃ doc,
      r = Ret (RId (fresh_id env))
      ∧ db' = <["invoice" := db !!! "invoice" ++ [doc]]> db
      ∧ doc !! "amount" = Some (VNum (Invoice.amount p))
      ∧ doc !! "po_id" = Some (VStr (Invoice.po_id p))
      ∧ resolves "po" (Invoice.po_id p) db
      ∧ resolves "customer" (Invoice.customer_id p) db.
Proof.
  unfold create_invoice.
  destruct (resolve "po" _ _ _ db) as [po|e] eqn:Hpo;
    [|intros [= <- <-]; left; eauto].
  destruct (resolve "customer" _ _ _ db) as [cust|e] eqn:Hcust;
    [|intros [= <- <-]; left; eauto].
  destruct (normalize_payment_status_dump p) as [st ->].
  destruct (bson_encode _) as [[]|e]; [|intros [= <- <-]; left; eauto].
  intros [= <- <-]. right. eexists. split; [done|]. split; [reflexivity|].
  split; [|split; [|split]].
  - unfold stamp. rewrite !lookup_insert_ne by done. apply invoice_dump_amount.
  - unfold stamp. rewrite !lookup_insert_ne by done. vm_compute. reflexivity.
  - by eapply resolve_Ret_resolves.
  - by eapply resolve_Ret_resolves.
Qed.

Lemma po_row_Ret db d row :
  po_row db d = Ret row ↔
  ∃ billed amount,
    py_sum ((λ i, get i "amount" (VNum 0))
              <$> find {["po_id" := py_str (get d "_id" VNone)]} (db !!! "invoice"))
      = Ret billed
    ∧ py_float (get d "amount" (VNum 0)) = Ret amount
    ∧ row = <["po_balance" := VNum (Qmax 0 (amount - billed))]>
              (<["billed_amount" := VNum billed]> d).
Proof.
  unfold po_row. split.
  - destruct (py_sum _) as [billed|]; [|done]. simpl.
    destruct (py_float _) as [amount|]; [|done]. simpl.
    intros [= <-]. by exists billed, amount.
  - intros (billed & amount & -> & -> & ->). done.
Qed.

Lemma Qmax_0_mono x y : (x <= y)%Q → (Qmax 0 x <= Qmax 0 y)%Q.
Proof. intros Hxy. apply Q.max_le_compat_l. exact Hxy. Qed.

(** One more invoice never lowers what is billed against a PO. *)
Lemma billed_after_invoice env p db r db' po_id billed :
  Invoice.valid p = true →
  create_invoice env p db = (r, db') →
  py_sum ((λ i, get i "amount" (VNum 0))
            <$> find {["po_id" := po_id]} (db !!! "invoice")) = Ret billed →
  db' !!! "po" = db !!! "po"
  ∧ ∃ billed',
      py_sum ((λ i, get i "amount" (VNum 0))
                <$> find {["po_id" := po_id]} (db' !!! "invoice")) = Ret billed'
      ∧ (billed <= billed')%Q.
Proof.
  intros Hvalid Hcreate Hbilled.
  apply create_invoice_cases in Hcreate
    as [[_ ->]|(doc & _ & -> & Hamount & Hpo & _)].
  { split; [done|]. exists billed. split; [done|]. lra. }
  split; [by rewrite lookup_total_insert_ne|].
  rewrite lookup_total_insert_eq, find_app.
  unfold find at 2. destruct (decide (matches {["po_id" := po_id]} doc)) as [Hm|Hm].
  - rewrite filter_cons_True, filter_nil by done.
    exists (billed + Invoice.amount p)%Q.
    split; [by apply py_sum_amounts_snoc|].
    unfold Invoice.valid in Hvalid. apply andb_true_iff in Hvalid as [Ha _].
    apply Qleb_le in Ha. lra.
  - rewrite filter_cons_False, filter_nil, app_nil_r by done.
    exists billed. split; [done|]. lra.
Qed.

Lemma po_row_after_invoice env p db r db' d billed amount :
  Invoice.valid p = true →
  create_invoice env p db = (r, db') →
  py_sum ((λ i, get i "amount" (VNum 0))
            <$> find {["po_id" := py_str (get d "_id" VNone)]} (db !!! "invoice"))
    = Ret billed →
  py_float (get d "amount" (VNum 0)) = Ret amount →
  ∃ billed',
    po_row db' d = Ret (<["po_balance" := VNum (Qmax 0 (amount - billed'))]>
                          (<["billed_amount" := VNum billed']> d))
    ∧ (billed <= billed')%Q.
Proof.
  intros Hvalid Hcreate Hbilled Hamount.
  destruct (billed_after_invoice _ _ _ _ _ _ _ Hvalid Hcreate Hbilled)
    as (_ & billed' & Hbilled' & Hle).
  exists billed'. split; [|done].
  apply po_row_Ret. by exists billed', amount.
Qed.

Lemma for_each_transfer {A B} (f g : A → result B) l l' :
  Forall2 (λ a b, f a = Ret b) l l' →
  (∀ a b, f a = Ret b → ∃ b', g a = Ret b') →
  ∃ l'', for_each g l = Ret l''.
Proof.
  intros Hl Hfg. apply for_each_total.
  induction Hl as [|a b l l' Hab _ IH]; constructor; eauto.
Qed.

Lemma list_pos_rows customer_id db out :
  list_pos customer_id db = Ret (RDocs out) ↔
  ∃ rows,
    Forall2 (λ d row, po_row db d = Ret row)
      (sort_desc "created_at"
         (find (with_filter "customer_id" customer_id ∅) (db !!! "po")))
      rows
    ∧ out = oid_str <$> rows.
Proof.
  unfold list_pos. split.
  - destruct (for_each (po_row db) _) as [rows|] eqn:Hrows; [|done]. simpl.
    intros [= <-]. exists rows. split; [by apply for_each_Ret|done].
  - intros (rows & Hrows & ->).
    destruct (for_each_transfer _ (po_row db) _ _ Hrows) as [rows' Hrows']; [eauto|].
    rewrite Hrows'. simpl. apply for_each_Ret in Hrows'.
    do 3 f_equal. revert Hrows'. generalize rows'. clear -Hrows.
    induction Hrows as [|a b l l' Hab _ IH]; intros rows' Hrows'.
    + by inversion Hrows'.
    + inversion Hrows' as [|? b' ? l'' Hab' Hl'']; subst.
      rewrite Hab in Hab'. injection Hab' as <-. f_equal. by apply IH.
Qed.

Lemma po_row_fields (d : document) amount billed :
  let row := oid_str (<["po_balance" := VNum (Qmax 0 (amount - billed))]>
                        (<["billed_amount" := VNum billed]> d)) in
  row !! "billed_amount" = Some (VNum billed)
  ∧ row !! "po_balance" = Some (VNum (Qmax 0 (amount - billed))).
Proof.
  simpl. rewrite !oid_str_lookup by done. split.
  - rewrite lookup_insert_ne by done. by rewrite lookup_insert_eq.
  - by rewrite lookup_insert_eq.
Qed.

(** C3: every PO that GET /api/pos selects is reported with billed_amount
    the sum of the amounts of all invoices whose po_id is the PO's id (their
    amount, not amount_received) and with po_balance max(0, amount −
    billed_amount), which is never negative and 0 when the PO is over-billed;
    after one more POST /api/invoices, accepted or refused, the same PO is
    reported with a billed_amount at least as large and a po_balance at most
    as large. *)
Theorem po_billed_and_balance customer_id w out (d : document) :
  list_pos customer_id (db w) = Ret (RDocs out) →
  d ∈ find (with_filter "customer_id" customer_id ∅) (db w !!! "po") →
  ∃ row billed amount,
    row ∈ out
    ∧ row = oid_str (<["po_balance" := VNum (Qmax 0 (amount - billed))]>
                       (<["billed_amount" := VNum billed]> d))
    ∧ py_float (get d "amount" (VNum 0)) = Ret amount
    ∧ row !! "billed_amount" = Some (VNum billed)
    ∧ (billed == total_amount (invoices_of (py_str (get d "_id" VNone)) (db w)))%Q
    ∧ row !! "po_balance" = Some (VNum (Qmax 0 (amount - billed)))
    ∧ (0 <= Qmax 0 (amount - billed))%Q
    ∧ ((amount <= billed)%Q → (Qmax 0 (amount - billed) == 0)%Q)
    ∧ ∀ env payload r w',
        serve env (PostInvoices payload) w = (r, w') →
        ∃ out' row' billed',
          list_pos customer_id (db w') = Ret (RDocs out')
          ∧ row' ∈ out'
          ∧ row' = oid_str (<["po_balance" := VNum (Qmax 0 (amount - billed'))]>
                              (<["billed_amount" := VNum billed']> d))
          ∧ row' !! "billed_amount" = Some (VNum billed')
          ∧ row' !! "po_balance" = Some (VNum (Qmax 0 (amount - billed')))
          ∧ (billed <= billed')%Q
          ∧ (Qmax 0 (amount - billed') <= Qmax 0 (amount - billed))%Q.
Proof.
  intros Hout Hd.
  apply list_pos_rows in Hout as (rows & Hrows & ->).
  apply (elem_of_sort_desc "created_at") in Hd.
  apply list_elem_of_lookup in Hd as [i Hi].
  destruct (Forall2_lookup_l _ _ _ _ _ Hrows Hi) as (row & Hrow & Hrun).
  apply po_row_Ret in Hrun as (billed & amount & Hbilled & Hamount & ->).
  eexists _, billed, amount.
  split.
  { apply list_elem_of_fmap. eexists. split; [reflexivity|].
    apply list_elem_of_lookup. by exists i. }
  split; [reflexivity|]. split; [done|].
  split; [apply po_row_fields|].
  split.
  { apply py_sum_amounts. rewrite <- Hbilled. unfold invoices_of.
    by rewrite find_singleton. }
  split; [apply po_row_fields|].
  split; [apply Qmax_0_nonneg|].
  split; [intros; apply Qmax_0_neg; lra|].
  intros env payload r w' Hserve.
  assert ((∃ r', Invoice.valid payload = true
                 ∧ create_invoice env payload (db w) = (r', db w'))
          ∨ db w' = db w) as Hcases.
  { simpl in Hserve. destruct (Invoice.valid payload).
    - destruct (create_invoice env payload (db w)) as [r' db'] eqn:Hc.
      simpl in Hserve. injection Hserve as <- <-. left. by exists r'.
    - injection Hserve as <- <-. by right. }
  destruct Hcases as [(r' & Hvalid & Hcreate)|Hsame].
  - destruct (po_row_after_invoice _ _ _ _ _ d _ _ Hvalid Hcreate Hbilled Hamount)
      as (billed' & Hrow' & Hle).
    assert (db w' !!! "po" = db w !!! "po") as Hpo.
    { apply create_invoice_cases in Hcreate as [[_ ->]|(doc & _ & -> & _)]; [done|].
      by rewrite lookup_total_insert_ne. }
    destruct (for_each_transfer _ (po_row (db w')) _ _ Hrows) as [rows' Hrows'].
    { intros d0 row0 (b0 & a0 & Hb0 & Ha0 & _)%po_row_Ret.
      destruct (po_row_after_invoice _ _ _ _ _ d0 _ _ Hvalid Hcreate Hb0 Ha0)
        as (b0' & Hrow0 & _).
      by eexists. }
    eexists (oid_str <$> rows'), _, billed'.
    split.
    { unfold list_pos. rewrite Hpo, Hrows'. done. }
    apply for_each_Ret in Hrows'.
    destruct (Forall2_lookup_l _ _ _ _ _ Hrows' Hi) as (row' & Hrow'i & Hrun').
    rewrite Hrow' in Hrun'. injection Hrun' as <-.
    split.
    { apply list_elem_of_fmap. eexists. split; [reflexivity|].
      apply list_elem_of_lookup. by exists i. }
    split; [reflexivity|].
    split; [apply po_row_fields|].
    split; [apply po_row_fields|].
    split; [done|]. apply Qmax_0_mono. lra.
  - eexists (oid_str <$> rows), _, billed.
    split.
    { rewrite Hsame. apply list_pos_rows. by exists rows. }
    split.
    { apply list_elem_of_fmap. eexists. split; [reflexivity|].
      apply list_elem_of_lookup. by exists i. }
    split; [reflexivity|].
    split; [apply po_row_fields|].
    split; [apply po_row_fields|].
    split; lra.
Qed.

(** ** Agreement renewal *)




Lemma date_plus_days_Ret d n d' :
  date_plus_days d n = Ret d' ↔ (d' = d + n ∧ date_min ≤ d + n ≤ date_max)%Z.
Proof.
  unfold date_plus_days. case_bool_decide; split.
  - by intros [= <-].
  - by intros [-> _].
  - done.
  - tauto.
Qed.

Lemma with_renewal_date today e rd (d : document) :
  date_plus_days e (-30) = Ret rd →
  with_renewal today (VDate e) d =
    Ret (<["renewal_status" := VStr (renewal_status_str (renewal_status_of e rd today))]>
           (<["renewal_due" := VDate rd]> d)).
Proof. intros Hrd. unfold with_renewal. simpl. by rewrite Hrd. Qed.

Lemma agreement_dump_end_date p :
  Agreement.model_dump p !! "end_date" = Some (opt_date (Agreement.end_date p)).
Proof. vm_compute. reflexivity. Qed.

Lemma agreement_dump_renewal p :
  Agreement.model_dump p !! "renewal_status"
    = Some (VStr (renewal_status_str (Agreement.renewal_status p)))
  ∧ Agreement.model_dump p !! "renewal_due" = Some (opt_date (Agreement.renewal_due p)).
Proof. split; vm_compute; reflexivity. Qed.

(** What a successful [create_agreement] stores and schedules. *)
Lemma create_agreement_Ret env p db resp tasks db' :
  create_agreement env p db = (Ret (resp, tasks), db') ↔
  ∃ data,
    resolves "customer" (Agreement.customer_id p) db
    ∧ computed_renewal (today env) (Agreement.model_dump p) = Ret data
    ∧ encodable (stamp (now env) data)
    ∧ resp = RId (fresh_id env)
    ∧ tasks = [fresh_id env]
    ∧ db' = insert_one "agreement" (fresh_id env) (stamp (now env) data) db.
Proof.
  unfold create_agreement, bson_encode. split.
  - destruct (resolve "customer" _ _ _ db) as [cust|] eqn:Hcust; [|done].
    destruct (computed_renewal _ _) as [data|]; [|done].
    case_bool_decide as Henc; [|done].
    intros [= <- <- <-]. exists data. split; [by eapply resolve_Ret_resolves|done].
  - intros (data & Hcust & -> & Henc & -> & -> & ->).
    apply (resolve_resolves _ _ "Customer not found" "Invalid customer_id") in Hcust
      as [cust ->]. by rewrite bool_decide_eq_true_2.
Qed.


(** ** Reference validation before persistence *)

Lemma world_eta w : {| db := db w; uploads := uploads w; outbox := outbox w |} = w.
Proof. by destruct w. Qed.

Lemma create_po_unresolved env p db :
  ¬ resolves "customer" (Po.customer_id p) db →
  create_po env p db = (Raise (HTTPException 400 "Invalid customer_id"), db).
Proof.
  intros Hno. unfold create_po. by rewrite resolve_unresolved.
Qed.

Lemma create_invoice_unresolved env p db :
  ¬ resolves "po" (Invoice.po_id p) db
  ∨ ¬ resolves "customer" (Invoice.customer_id p) db →
  ∃ e, create_invoice env p db = (Raise e, db).
Proof.
  intros Hno. unfold create_invoice.
  destruct (resolve_cases "po" (Invoice.po_id p) "PO not found" "Invalid po_id" db)
    as [[po Hpo]|Hpo]; rewrite Hpo; [|by eexists].
  destruct Hno as [Hno|Hno].
  - destruct Hno. by eapply resolve_Ret_resolves.
  - rewrite resolve_unresolved by done. by eexists.
Qed.

Lemma create_payment_unresolved env p db :
  ¬ resolves "invoice" (Payment.invoice_id p) db
  ∨ ¬ resolves "customer" (Payment.customer_id p) db →
  ∃ e, create_payment env p db = (Raise e, db).
Proof.
  intros Hno. unfold create_payment.
  destruct (resolve_cases "invoice" (Payment.invoice_id p)
              "Invoice not found" "Invalid invoice_id" db)
    as [[inv Hinv]|Hinv]; rewrite Hinv; [|by eexists].
  destruct Hno as [Hno|Hno].
  - destruct Hno. by eapply resolve_Ret_resolves.
  - rewrite resolve_unresolved by done. by eexists.
Qed.

Lemma create_agreement_unresolved env p db :
  ¬ resolves "customer" (Agreement.customer_id p) db →
  create_agreement env p db = (Raise (HTTPException 400 "Invalid customer_id"), db).
Proof.
  intros Hno. unfold create_agreement. by rewrite resolve_unresolved.
Qed.

(** C6: a creation request for a PO, an invoice, a payment or an agreement
    one of whose declared references does not resolve is answered with an
    error and leaves the whole world as it was: no document inserted, none
    changed, no file written, no mail sent. *)
Theorem unresolved_reference_writes_nothing env req w name ref :
  (name, ref) ∈ references req →
  ¬ resolves name ref (db w) →
  ∃ e, serve env req w = (Raise e, w).
Proof.
  intros Href Hno. destruct req; simpl in Href; try by apply elem_of_nil in Href.
  - apply list_elem_of_singleton in Href as [= -> ->]. simpl.
    destruct (Po.valid payload); [|by eexists].
    rewrite create_po_unresolved by done. simpl. rewrite world_eta. by eexists.
  - simpl. destruct (Invoice.valid payload); [|by eexists].
    destruct (create_invoice_unresolved env payload (db w)) as [e ->].
    { set_unfold in Href. destruct Href as [[= -> ->]|[[= -> ->]|[]]]; auto. }
    simpl. rewrite world_eta. by eexists.
  - simpl. destruct (Payment.valid payload); [|by eexists].
    destruct (create_payment_unresolved env payload (db w)) as [e ->].
    { set_unfold in Href. destruct Href as [[= -> ->]|[[= -> ->]|[]]]; auto. }
    simpl. rewrite world_eta. by eexists.
  - apply list_elem_of_singleton in Href as [= -> ->]. simpl.
    rewrite create_agreement_unresolved by done. simpl. rewrite world_eta.
    by eexists.
Qed.

(** ** Uploads *)

Lemma update_one_cases name o (set : document) (db db' : database) :
  update_one name o set db = Ret db' →
  db' = db
  ∨ (set !! "_id" = None ∨ set !! "_id" = Some (VOid o))
    ∧ (∃ d, find_one o (db !!! name) = Some d)
    ∧ db' = <[name := set_first o set (db !!! name)]> db.
Proof.
  unfold update_one. rewrite lookup_total_alt.
  destruct (db !! name) as [c|] eqn:Hc; simpl; [|intros [= <-]; by left].
  destruct (find_one o c) as [d|] eqn:Hd; [|intros [= <-]; by left].
  destruct (set !! "_id") as [v|] eqn:Hv.
  - case_bool_decide as Hvo; [|done]. subst v.
    intros [= <-]. right. eauto.
  - intros [= <-]. right. eauto.
Qed.

Lemma upload_name_no_dots entity rest :
  entity ∈ ["customer"; "po"; "invoice"; "agreement"] →
  entity +:+ rest ∉ ["."; ".."].
Proof.
  intros Hent Hdots.
  assert (∃ a s, entity = String a s ∧ a ≠ "."%char) as (a & s & -> & Ha).
  { repeat (apply elem_of_cons in Hent as [->|Hent]; [by eexists _, _|]).
    by apply elem_of_nil in Hent. }
  change (String a (s +:+ rest) ∈ ["."; ".."]) in Hdots.
  repeat (apply elem_of_cons in Hdots as [[= -> _]|Hdots]; [done|]).
  by apply elem_of_nil in Hdots.
Qed.

(** C10 (amended): an upload for a supported entity whose well-formed id
    matches no stored document is answered with the URL of the saved file,
    not with an error, when the file system accepts the name built from
    entity, id, field, time stamp and the client's file name; the file is
    then stored under the name in the URL and can be served, and the
    document store is unchanged.  When the name holds a NUL or a [/] or is
    longer than [NAME_MAX], [open] raises outside the handler's [try]: the
    request fails and nothing at all is saved or changed. *)
Theorem upload_for_unknown_id env entity entity_id field filename content w o :
  lower entity ∈ ["customer"; "po"; "invoice"; "agreement"] →
  ObjectId entity_id = Ret o →
  find_one o (db w !!! lower entity) = None →
  let safe_name :=
    lower entity +:+ "_" +:+ entity_id +:+ "_" +:+ field +:+ "_"
      +:+ strftime_compact (now env) +:+ "_" +:+ filename in
  let w' := {| db := db w;
               uploads := <[safe_name := content]> (uploads w);
               outbox := outbox w |} in
  match file_name_error safe_name with
  | None =>
      serve env (PostUpload entity entity_id field filename content) w
        = (Ret (RUrl ("/uploads/" +:+ safe_name)), w')
      ∧ serve_upload safe_name (uploads w') = Ret (RFile content)
      ∧ db w' = db w
  | Some e =>
      serve env (PostUpload entity entity_id field filename content) w = (Raise e, w)
  end.
Proof.
  intros Hentity Ho Hnone safe_name w'.
  cbn [serve]. unfold upload_document, save_upload.
  rewrite bool_decide_eq_true_2 by done. cbn [negb]. fold safe_name.
  destruct (file_name_error safe_name) as [e|]; [done|].
  split; [|split; [|done]].
  - rewrite Ho. cbn [mbind result_bind].
    by rewrite update_one_missing.
  - unfold serve_upload.
    rewrite bool_decide_eq_false_2 by (by apply upload_name_no_dots).
    unfold w'. cbn [uploads]. by rewrite lookup_insert_eq.
Qed.

(** ** Renewal notifier *)

Lemma append_assoc (a b c : string) : (a +:+ b) +:+ c = a +:+ b +:+ c.
Proof.
  induction a as [|x a IH]; [done|].
  change (String x ((a +:+ b) +:+ c) = String x (a +:+ b +:+ c)). by f_equal.
Qed.

Lemma check_and_notify_cases env agreement_id db sent :
  (∃ ag e,
     in_due_window (today env) agreement_id db ag e
     ∧ check_and_notify_agreement env agreement_id db sent
       = (Ret (), sent ++ [renewal_mail env ag e]))
  ∨ ((¬ ∃ ag e, in_due_window (today env) agreement_id db ag e)
     ∧ (check_and_notify_agreement env agreement_id db sent).2 = sent).
Proof.
  unfold check_and_notify_agreement, in_due_window.
  destruct (ObjectId agreement_id) as [o|] eqn:Ho; cycle 1.
  { right. split; [|done]. by intros (? & ? & ? & ? & ? & _). }
  destruct (find_one o (db !!! "agreement")) as [ag|] eqn:Hag; cycle 1.
  { right. split; [|done]. intros (? & ? & ? & ? & [= <-] & ? & _). congruence. }
  assert ((∃ ag' e, ∃ o' rd,
              Ret o = Ret o' ∧ find_one o' (db !!! "agreement") = Some ag'
              ∧ parsed_end_date ag' = VDate e ∧ date_plus_days e (-30) = Ret rd
              ∧ (rd ≤ today env ∧ today env ≤ e)%Z) →
          ∃ e rd, parsed_end_date ag = VDate e ∧ date_plus_days e (-30) = Ret rd
                  ∧ (rd ≤ today env ∧ today env ≤ e)%Z) as Hinv.
  { intros (ag' & e & o' & rd & [= <-] & Hag' & He & Hrd & Hwin).
    rewrite Hag in Hag'. injection Hag' as <-. eauto. }
  destruct (negb (truthy (parsed_end_date ag))) eqn:Htruthy.
  { right. split; [|done]. intros (e & rd & He & _)%Hinv.
    rewrite He in Htruthy. simpl in Htruthy. discriminate. }
  destruct (parsed_end_date ag) as [|q|s|e|t|l|x] eqn:Hend; simpl;
    try (right; split; [intros (e' & rd' & He' & _)%Hinv; congruence|done]).
  destruct (date_plus_days e (-30)) as [rd|] eqn:Hrd; simpl; cycle 1.
  { right. split; [|done]. intros (e' & rd' & [= <-] & Hrd' & _)%Hinv. congruence. }
  case_bool_decide as Hwin.
  - left. exists ag, e. split; [|done]. by exists o, rd.
  - right. split; [|done]. intros (e' & rd' & [= <-] & Hrd' & Hwin')%Hinv.
    rewrite Hrd in Hrd'. by injection Hrd' as <-.
Qed.

(** C9: a renewal check sends exactly one mail, to the configured
    recipient and naming the agreement's name, type, customer reference and
    end date, iff the agreement exists, its end date is a date or a string
    that parses, and end_date − 30 days ≤ today ≤ end_date; otherwise it
    sends nothing.  No record of earlier mails is consulted: the same check
    run twice in the window sends the mail twice. *)
Theorem renewal_check_notifies env agreement_id db sent :
  ((∃ ag e, in_due_window (today env) agreement_id db ag e)
   ↔ ∃ mail, (check_and_notify_agreement env agreement_id db sent).2 = sent ++ [mail])
  ∧ ((¬ ∃ ag e, in_due_window (today env) agreement_id db ag e)
     ↔ (check_and_notify_agreement env agreement_id db sent).2 = sent)
  ∧ (∀ ag e,
       in_due_window (today env) agreement_id db ag e →
       let mail := renewal_mail env ag e in
       check_and_notify_agreement env agreement_id db sent = (Ret (), sent ++ [mail])
       ∧ run_background_tasks env [agreement_id; agreement_id] db sent
         = sent ++ [mail; mail]
       ∧ to_emails mail = [default "admin@example.com" (ADMIN_EMAIL env)]
       ∧ contains (py_str (get ag "name" VNone)) (subject mail)
       ∧ contains (py_str (get ag "type" VNone)) (subject mail)
       ∧ contains (py_str (get ag "name" VNone)) (body mail)
       ∧ contains (py_str (get ag "customer_id" VNone)) (body mail)
       ∧ contains (date_isoformat e) (body mail)).
Proof.
  assert (∀ mail, sent ++ [mail] ≠ sent) as Hgrow.
  { intros mail Heq. apply (f_equal length) in Heq.
    rewrite length_app in Heq. simpl in Heq. lia. }
  assert (∀ ag e ag' e',
            in_due_window (today env) agreement_id db ag e →
            in_due_window (today env) agreement_id db ag' e' →
            ag' = ag ∧ e' = e) as Hfun.
  { intros ag e ag' e' (o & rd & Ho & Hag & He & _) (o' & rd' & Ho' & Hag' & He' & _).
    rewrite Ho in Ho'. injection Ho' as <-. rewrite Hag in Hag'.
    injection Hag' as <-. rewrite He in He'. by injection He' as <-. }
  assert (∀ sent' ag e,
            in_due_window (today env) agreement_id db ag e →
            check_and_notify_agreement env agreement_id db sent'
            = (Ret (), sent' ++ [renewal_mail env ag e])) as Hsend.
  { intros sent' ag e Hdue.
    destruct (check_and_notify_cases env agreement_id db sent')
      as [(ag' & e' & Hdue' & ->)|[Hno _]].
    - by destruct (Hfun _ _ _ _ Hdue Hdue') as [-> ->].
    - destruct Hno. eauto. }
  split; [|split].
  - split.
    + intros (ag & e & Hdue). rewrite (Hsend sent ag e Hdue). by eexists.
    + intros [mail Hmail].
      destruct (check_and_notify_cases env agreement_id db sent)
        as [(ag & e & Hdue & _)|[_ Hsame]]; [eauto|].
      rewrite Hsame in Hmail. symmetry in Hmail. by apply Hgrow in Hmail.
  - split.
    + intros Hno.
      destruct (check_and_notify_cases env agreement_id db sent)
        as [(ag & e & Hdue & _)|[_ Hsame]]; [|done].
      destruct Hno. eauto.
    + intros Hsame (ag & e & Hdue). rewrite (Hsend sent ag e Hdue) in Hsame.
      by apply Hgrow in Hsame.
  - intros ag e Hdue mail. split; [by apply Hsend|]. split.
    { simpl. rewrite (Hsend sent ag e Hdue).
      rewrite (Hsend (sent ++ [renewal_mail env ag e]) ag e Hdue).
      by rewrite <- app_assoc. }
    split; [done|].
    unfold contains, mail, renewal_mail, renewal_subject, renewal_body. simpl.
    split; [by eexists "Renewal due for ", _|].
    split.
    { exists ("Renewal due for " +:+ py_str (get ag "name" VNone) +:+ " ("), ")".
      by rewrite !append_assoc. }
    split; [by eexists "Agreement ", _|].
    split.
    { eexists ("Agreement " +:+ py_str (get ag "name" VNone) +:+ " for customer "), _.
      by rewrite !append_assoc. }
    eexists ("Agreement " +:+ py_str (get ag "name" VNone) +:+ " for customer "
               +:+ py_str (get ag "customer_id" VNone) +:+ " is due on "), _.
    by rewrite !append_assoc.
Qed.

(** ** Status on the read paths *)

Lemma payment_status_str_inj st st' :
  payment_status_str st = payment_status_str st' → st = st'.
Proof. by destruct st, st'. Qed.




Lemma count_documents_status st (c : collection) :
  count_documents {["payment_status" := payment_status_str st]} c
  = length (filter (stored_status_is st) c).
Proof. unfold count_documents. by rewrite find_singleton. Qed.



(** ** Who changes amount_received *)

Lemma find_one_app_l o (c c' : collection) d :
  find_one o c = Some d → find_one o (c ++ c') = Some d.
Proof.
  unfold find_one. rewrite filter_app. intros Hd.
  destruct (filter (has_id o) c); [done|]. done.
Qed.

(** The store after an upload: as before, or one document of the entity's
    collection with the uploaded field and the time stamp set. *)
Lemma upload_document_db env entity entity_id field filename content w r w' :
  upload_document env entity entity_id field filename content w = (r, w') →
  db w' = db w
  ∨ ∃ o url,
      (∃ d, find_one o (db w !!! lower entity) = Some d)
      ∧ field ≠ "_id"
      ∧ db w' = <[lower entity :=
                   set_first o (<["updated_at" := VDateTime (now env)]>
                                  {[field := VStr url]})
                     (db w !!! lower entity)]> (db w).
Proof.
  unfold upload_document. case_bool_decide; simpl; [|intros [= _ <-]; by left].
  destruct (save_upload _ _ _ _ _ _ _) as [[url files]|];
    [|intros [= _ <-]; by left].
  destruct (ObjectId entity_id) as [o|]; simpl; [|intros [= _ <-]; by left].
  destruct (update_one _ _ _ _) as [db'|] eqn:Hupd; simpl;
    [|intros [= _ <-]; by left].
  intros [= _ <-]. simpl.
  apply update_one_cases in Hupd as [->|(Hid & Hd & ->)]; [by left|].
  right. eexists o, _. split; [done|]. split; [|done].
  intros ->. destruct Hid as [Hid|Hid]; vm_compute in Hid; discriminate.
Qed.

Lemma create_agreement_db env p db r db' :
  create_agreement env p db = (r, db') →
  db' = db ∨ ∃ data, db' = insert_one "agreement" (fresh_id env) data db.
Proof.
  unfold create_agreement.
  destruct (resolve "customer" _ _ _ db); [|intros [= _ <-]; by left].
  destruct (computed_renewal _ _); [|intros [= _ <-]; by left].
  destruct (bson_encode _); intros [= _ <-]; [right; by eexists|by left].
Qed.

Lemma create_po_db env p db r db' :
  create_po env p db = (r, db') →
  db' = db ∨ ∃ data, db' = insert_one "po" (fresh_id env) data db.
Proof.
  unfold create_po.
  destruct (resolve "customer" _ _ _ db); [|intros [= _ <-]; by left].
  destruct (bson_encode _); intros [= _ <-]; [right; by eexists|by left].
Qed.

Lemma create_customer_db env p db r db' :
  create_customer env p db = (r, db') →
  db' = db ∨ ∃ data, db' = insert_one "customer" (fresh_id env) data db.
Proof.
  unfold create_customer.
  destruct (bson_encode _); intros [= _ <-]; [right; by eexists|by left].
Qed.

(** C8 (amended): a request other than a payment creation, and other than
    an upload that names the field amount_received, leaves the stored
    amount_received of every invoice as it was. *)
Theorem amount_received_frame env req w r w' o (inv : document) :
  serve env req w = (r, w') →
  find_one o (db w !!! "invoice") = Some inv →
  (∀ payload, req ≠ PostPayments payload) →
  (∀ entity entity_id filename content,
     req ≠ PostUpload entity entity_id "amount_received" filename content) →
  ∃ inv',
    find_one o (db w' !!! "invoice") = Some inv'
    ∧ inv' !! "amount_received" = inv !! "amount_received".
Proof.
  intros Hserve Hinv Hpay Hupload.
  set (kept := λ db' : database,
         ∃ inv', find_one o (db' !!! "invoice") = Some inv'
                 ∧ inv' !! "amount_received" = inv !! "amount_received").
  change (kept (db w')).
  assert (kept (db w)) as Hsame by by exists inv.
  assert (∀ name oid data,
            name ≠ "invoice" → kept (insert_one name oid data (db w))) as Hother.
  { intros name oid data Hname. exists inv. by rewrite insert_one_other. }
  destruct req; cbn [serve] in Hserve;
    lazymatch type of Hserve with
    | (_, w) = _ => by injection Hserve as _ <-
    | _ => idtac
    end.
  - destruct (create_customer env payload (db w)) as [r' db'] eqn:Hc.
    injection Hserve as _ <-. simpl.
    apply create_customer_db in Hc as [->|[data ->]]; [done|by apply Hother].
  - destruct (Po.valid payload); [|by injection Hserve as _ <-].
    destruct (create_po env payload (db w)) as [r' db'] eqn:Hc.
    injection Hserve as _ <-. simpl.
    apply create_po_db in Hc as [->|[data ->]]; [done|by apply Hother].
  - destruct (Invoice.valid payload); [|by injection Hserve as _ <-].
    destruct (create_invoice env payload (db w)) as [r' db'] eqn:Hc.
    injection Hserve as _ <-. simpl.
    apply create_invoice_cases in Hc as [[_ ->]|(doc & _ & -> & _)]; [done|].
    exists inv. rewrite lookup_total_insert_eq. split; [|done].
    by apply find_one_app_l.
  - by destruct (Hpay payload).
  - destruct (create_agreement env payload (db w)) as [[[resp tasks]|e] db'] eqn:Hc;
      injection Hserve as _ <-; simpl;
      apply create_agreement_db in Hc as [->|[data ->]];
      done || by apply Hother.
  - unfold manual_check_renewals in Hserve. by injection Hserve as _ <-.
  - apply upload_document_db in Hserve as [->|(o' & url & _ & Hfield & ->)]; [done|].
    destruct (decide (lower entity = "invoice")) as [Hentity|Hentity].
    + unfold kept. rewrite Hentity, lookup_total_insert_eq.
      assert (field ≠ "amount_received") as Hrec.
      { intros ->. by eapply Hupload. }
      rewrite find_one_set_first.
      * case_bool_decide as Ho.
        -- subst o'. rewrite Hinv. simpl. eexists. split; [done|].
           rewrite lookup_union_r; [done|].
           rewrite lookup_insert_ne by done. by rewrite lookup_singleton_ne.
        -- by exists inv.
      * rewrite lookup_insert_ne by done. by rewrite lookup_singleton_ne.
    + unfold kept. rewrite lookup_total_insert_ne by done. by exists inv.
Qed.

End properties.

(** * Further properties *)

(** ** Sums, counts and the store *)

Lemma find_all (c : collection) : find ∅ c = c.
Proof.
  unfold find. induction c as [|d c IH]; [done|].
  rewrite filter_cons_True; [by rewrite IH|]. apply map_Forall_empty.
Qed.

Lemma Qsum_app {A} (f : A → Q) l1 l2 :
  (Qsum f (l1 ++ l2) == Qsum f l1 + Qsum f l2)%Q.
Proof.
  induction l1 as [|a l1 IH]; simpl; [ring|]. rewrite IH. ring.
Qed.

Lemma Qsum_perm {A} (f : A → Q) l1 l2 :
  l1 ≡ₚ l2 → (Qsum f l1 == Qsum f l2)%Q.
Proof.
  induction 1 as [|a l1 l2 _ IH|a b l|l1 l2 l3 _ IH1 _ IH2]; simpl.
  - reflexivity.
  - by rewrite IH.
  - ring.
  - by rewrite IH1.
Qed.

Lemma Qsum_nonneg {A} (f : A → Q) l :
  (∀ a, 0 <= f a)%Q → (0 <= Qsum f l)%Q.
Proof.
  intros Hf. induction l as [|a l IH]; simpl; [apply Qle_refl|].
  specialize (Hf a). lra.
Qed.

Lemma Qsum_fmap {A B} (g : A → B) (f : B → Q) l :
  Qsum f (g <$> l) = Qsum (f ∘ g) l.
Proof.
  unfold Qsum. induction l as [|a l IH]; [done|].
  rewrite fmap_cons. simpl. by rewrite IH.
Qed.

Lemma Qsum_ext_in {A B} (f : A → Q) (g : B → Q) l l' :
  Forall2 (λ a b, f a = g b) l l' → Qsum f l = Qsum g l'.
Proof. induction 1 as [|a b l l' Hab _ IH]; simpl; [done|]. by rewrite Hab, IH. Qed.

Lemma count_true_cons b l :
  count_true (b :: l) = ((if b then 1 else 0) + count_true l)%nat.
Proof.
  unfold count_true. destruct b.
  - by rewrite filter_cons_True.
  - by rewrite filter_cons_False.
Qed.

Lemma count_true_perm l1 l2 : l1 ≡ₚ l2 → count_true l1 = count_true l2.
Proof. unfold count_true. by intros ->. Qed.

Lemma Forall2_fmap_total {A B} (f : A → result B) (g : A → B) l l' :
  Forall2 (λ a b, f a = Ret b) l l' →
  (∀ a b, f a = Ret b → g a = b) →
  l' = g <$> l.
Proof.
  intros Hl Hg. induction Hl as [|a b l l' Hab _ IH]; simpl; [done|].
  by rewrite (Hg a b Hab), IH.
Qed.

Lemma length_set_first o (set : document) (c : collection) :
  length (set_first o set c) = length c.
Proof.
  induction c as [|d c IH]; [done|]. cbn [set_first].
  case_bool_decide; simpl; [done|]. by rewrite IH.
Qed.

Lemma ObjectId_nonempty s o : ObjectId s = Ret o → s ≠ "".
Proof. intros Ho ->. vm_compute in Ho. discriminate Ho. Qed.

Lemma find_one_app_None o (c c' : collection) :
  find_one o c = None → find_one o (c ++ c') = find_one o c'.
Proof.
  unfold find_one. rewrite filter_app. intros Hc.
  destruct (filter (has_id o) c); [done|]. done.
Qed.

Lemma keeps_documents_refl db : keeps_documents db db.
Proof. intros name. split; [done|]. eauto. Qed.

Lemma keeps_documents_trans db1 db2 db3 :
  keeps_documents db1 db2 → keeps_documents db2 db3 → keeps_documents db1 db3.
Proof.
  intros H12 H23 name. destruct (H12 name) as [Hl Hf], (H23 name) as [Hl' Hf'].
  split; [lia|]. intros o d [d' Hd']%Hf. eauto.
Qed.

Lemma keeps_documents_append name (c : collection) (db : database) :
  keeps_documents db (<[name := db !!! name ++ c]> db).
Proof.
  intros name'. destruct (decide (name = name')) as [<-|Hne].
  - rewrite lookup_total_insert_eq. split; [rewrite length_app; lia|].
    intros o d Hd. exists d. by apply find_one_app_l.
  - rewrite lookup_total_insert_ne by done. split; [done|]. eauto.
Qed.

Lemma keeps_documents_set_first name o (set : document) (db : database) :
  set !! "_id" = None →
  keeps_documents db (<[name := set_first o set (db !!! name)]> db).
Proof.
  intros Hset name'. destruct (decide (name = name')) as [<-|Hne].
  - rewrite lookup_total_insert_eq. split; [by rewrite length_set_first|].
    intros o' d Hd. rewrite find_one_set_first by done.
    case_bool_decide as Ho; [subst o'; rewrite Hd|]; eauto.
  - rewrite lookup_total_insert_ne by done. split; [done|]. eauto.
Qed.

Lemma given_Some p s : given p = Some s ↔ p = Some s ∧ s ≠ "".
Proof.
  unfold given. destruct p as [s'|]; [|by split; [|intros [? _]]].
  destruct (String.eqb_spec s' "") as [->|Hne]; split.
  - done.
  - intros [[= <-] ?]. done.
  - intros [= <-]. done.
  - by intros [[= <-] _].
Qed.

Lemma elem_of_find_with_filter k p q (c : collection) d :
  q !! k = None →
  d ∈ find (with_filter k p q) c ↔ d ∈ find q c ∧ passes k p d.
Proof.
  intros Hq. unfold with_filter, passes.
  destruct (given p) as [s|] eqn:Hp.
  - apply given_Some in Hp as [-> Hs]. unfold find.
    rewrite !list_elem_of_filter. unfold matches.
    rewrite map_Forall_insert by done. split.
    + intros [[Hk Hm] Hd]. split; [done|]. by right.
    + intros [[Hm Hd] [?|Hk]]; done.
  - destruct p as [s|]; [|tauto]. unfold given in Hp.
    destruct (String.eqb_spec s "") as [->|]; [|done]. split; [|tauto].
    intros ?. split; [done|]. by left.
Qed.

Lemma filter_none {A} (P : A → Prop) `{∀ x, Decision (P x)} (l : list A) :
  (∀ x, x ∈ l → ¬ P x) → filter P l = [].
Proof.
  induction l as [|a l IH]; [done|]. intros Hl.
  rewrite filter_cons_False by (apply Hl; left).
  apply IH. intros x Hx. apply Hl. by right.
Qed.

Section more_properties.
Context `{Runtime}.

(** ** Responses *)

Lemma isoformat_value_idemp v : isoformat_value (isoformat_value v) = isoformat_value v.
Proof. by destruct v. Qed.

Lemma isoformat_value_no_date v t :
  isoformat_value v ≠ VDate t ∧ isoformat_value v ≠ VDateTime t.
Proof. by destruct v. Qed.

Lemma oid_str_no_id (d : document) : oid_str d !! "_id" = None.
Proof.
  unfold oid_str. case_bool_decide as Hd; [subst d; apply lookup_empty|].
  rewrite lookup_fmap. destruct (d !! "_id") eqn:Hid.
  - rewrite lookup_insert_ne by done. by rewrite lookup_delete_eq.
  - by rewrite Hid.
Qed.

Lemma oid_str_without_id (d : document) :
  d !! "_id" = None → oid_str d = isoformat_value <$> d.
Proof.
  intros Hid. unfold oid_str. rewrite Hid. case_bool_decide as Hd; [|done].
  subst d. by rewrite fmap_empty.
Qed.

(** X1: the document [oid_str] returns has no [_id]; its [id] is the string
    of the [_id] it had; none of its values is a date or a datetime; and
    converting it again changes nothing. *)
Theorem oid_str_serializable (d : document) :
  oid_str d !! "_id" = None
  ∧ (∀ v, d !! "_id" = Some v → oid_str d !! "id" = Some (VStr (py_str v)))
  ∧ (∀ k x t, oid_str d !! k = Some x → x ≠ VDate t ∧ x ≠ VDateTime t)
  ∧ (∀ k, k ≠ "id" → k ≠ "_id" → oid_str d !! k = isoformat_value <$> d !! k)
  ∧ oid_str (oid_str d) = oid_str d.
Proof.
  split; [apply oid_str_no_id|]. split.
  { intros v Hv. unfold oid_str. case_bool_decide as Hd.
    - subst d. by rewrite lookup_empty in Hv.
    - rewrite lookup_fmap, Hv. by rewrite lookup_insert_eq. }
  split.
  { intros k x t Hx. unfold oid_str in Hx. case_bool_decide as Hd.
    - subst d. by rewrite lookup_empty in Hx.
    - rewrite lookup_fmap in Hx.
      destruct (_ !! k) as [v|]; [|done]. injection Hx as <-.
      apply isoformat_value_no_date. }
  split; [intros k; apply oid_str_lookup|].
  rewrite (oid_str_without_id (oid_str d)) by apply oid_str_no_id.
  unfold oid_str. case_bool_decide as Hd; [subst d; by rewrite fmap_empty|].
  rewrite <- map_fmap_compose. apply map_fmap_ext.
  intros k v _. apply isoformat_value_idemp.
Qed.

(** ** Invoice creation *)

Lemma invoice_status_proper a a' r r' :
  (a == a')%Q → (r == r')%Q → invoice_status a r = invoice_status a' r'.
Proof.
  intros Ha Hr. unfold invoice_status, Qleb, Qltb.
  assert (Qle_bool r 0 = Qle_bool r' 0) as -> by (by apply Qleb_comp).
  by assert (Qle_bool a r = Qle_bool a' r') as -> by (by apply Qleb_comp).
Qed.

Lemma as_num_or_else_eq q :
  ∃ q', as_num (or_else (VNum q) (VNum 0)) = Ret q' ∧ (q' == q)%Q.
Proof.
  unfold or_else. simpl. destruct (Qeq_bool q 0) eqn:Hq; simpl.
  - exists 0%Q. split; [done|]. apply Qeq_bool_iff in Hq. by rewrite Hq.
  - exists q. split; [done|reflexivity].
Qed.

Lemma normalize_payment_status_dump_eq p :
  normalize_payment_status (Invoice.model_dump p)
  = Ret (<["payment_status" :=
             VStr (payment_status_str
                     (invoice_status (Invoice.amount p) (Invoice.amount_received p)))]>
           (Invoice.model_dump p)).
Proof.
  unfold normalize_payment_status, get.
  rewrite invoice_dump_amount, invoice_dump_received.
  destruct (as_num_or_else_eq (Invoice.amount p)) as (a & -> & Ha).
  destruct (as_num_or_else_eq (Invoice.amount_received p)) as (r & -> & Hr).
  simpl. by rewrite (invoice_status_proper _ _ _ _ Ha Hr).
Qed.

(** X2: when its PO and its customer resolve and the payload carries no
    date, [create_invoice] succeeds, returns the new id and appends one
    invoice; the stored payment_status is derived from the payload's amount
    and amount_received, not taken from the payload, and is the status
    GET /api/invoices computes for the stored document.  Nothing relates the
    customer to the PO's customer.  With an [invoice_date] or a [due_date]
    the store cannot encode the document: the request fails with
    [InvalidDocument] and nothing is stored. *)
Theorem create_invoice_stores_normalized_status env p db :
  resolves "po" (Invoice.po_id p) db →
  resolves "customer" (Invoice.customer_id p) db →
  let st := invoice_status (Invoice.amount p) (Invoice.amount_received p) in
  match Invoice.invoice_date p, Invoice.due_date p with
  | None, None =>
      ∃ doc,
        create_invoice env p db
        = (Ret (RId (fresh_id env)), <["invoice" := db !!! "invoice" ++ [doc]]> db)
        ∧ doc !! "_id" = Some (VOid (fresh_id env))
        ∧ doc !! "amount" = Some (VNum (Invoice.amount p))
        ∧ doc !! "amount_received" = Some (VNum (Invoice.amount_received p))
        ∧ doc !! "payment_status" = Some (VStr (payment_status_str st))
        ∧ recomputed_status doc = Some st
  | _, _ => create_invoice env p db = (Raise InvalidDocument, db)
  end.
Proof.
  intros Hpo Hcust.
  set (st := invoice_status (Invoice.amount p) (Invoice.amount_received p)).
  simpl.
  apply (resolve_resolves _ _ "PO not found" "Invalid po_id") in Hpo as [po Hpo].
  apply (resolve_resolves _ _ "Customer not found" "Invalid customer_id") in Hcust
    as [cust Hcust].
  assert (∀ k t, Invoice.model_dump p !! k = Some (VDate t) →
                 k ≠ "payment_status" → k ≠ "created_at" → k ≠ "updated_at" →
                 create_invoice env p db = (Raise InvalidDocument, db)) as Hdate.
  { intros k t Hk ? ? ?. unfold create_invoice.
    rewrite Hpo, Hcust, normalize_payment_status_dump_eq.
    erewrite (bson_encode_date _ k t); [done|].
    unfold stamp. by rewrite !lookup_insert_ne. }
  destruct (invoice_dump_dates p) as [Hinvoice_date Hdue_date].
  destruct (Invoice.invoice_date p) as [t|] eqn:Hi;
    [destruct (Invoice.due_date p); by apply (Hdate "invoice_date" t)|].
  destruct (Invoice.due_date p) as [t|] eqn:Hd; [by apply (Hdate "due_date" t)|].
  eexists. unfold create_invoice.
  rewrite Hpo, Hcust, normalize_payment_status_dump_eq. fold st.
  rewrite bson_encode_Ret; cycle 1.
  { apply encodable_stamp, encodable_insert; [done|].
    by apply invoice_dump_encodable. }
  split; [reflexivity|].
  assert (∀ k v, k ≠ "_id" → k ≠ "updated_at" → k ≠ "created_at" →
                 k ≠ "payment_status" → Invoice.model_dump p !! k = Some v →
                 (<["_id" := VOid (fresh_id env)]>
                    (stamp (now env)
                       (<["payment_status" := VStr (payment_status_str st)]>
                          (Invoice.model_dump p)))) !! k = Some v) as Hkeep.
  { intros k v ? ? ? ? Hk. unfold stamp. by rewrite !lookup_insert_ne. }
  split; [by rewrite lookup_insert_eq|].
  split; [apply Hkeep; try done; apply invoice_dump_amount|].
  split; [apply Hkeep; try done; apply invoice_dump_received|].
  split.
  { unfold stamp. rewrite !lookup_insert_ne by done. by rewrite lookup_insert_eq. }
  unfold recomputed_status, get.
  rewrite (Hkeep "amount" _ ltac:(done) ltac:(done) ltac:(done) ltac:(done)
             (invoice_dump_amount p)).
  by rewrite (Hkeep "amount_received" _ ltac:(done) ltac:(done) ltac:(done)
                ltac:(done) (invoice_dump_received p)).
Qed.

(** ** Status after a payment *)

Lemma status_rules_agree total amt :
  payment_applied_status total amt = invoice_status amt total
  ↔ ¬ (total <= 0 ∧ amt <= total)%Q.
Proof.
  unfold payment_applied_status, invoice_status.
  destruct (Qleb amt total) eqn:E1; destruct (Qleb total 0) eqn:E2;
    destruct (Qltb total amt) eqn:E3; destruct (Qltb 0 total) eqn:E4;
    repeat match goal with
      | H : Qleb _ _ = true |- _ => apply Qleb_le in H
      | H : Qleb _ _ = false |- _ => apply Qleb_gt in H
      | H : Qltb _ _ = true |- _ => apply Qltb_lt in H
      | H : Qltb _ _ = false |- _ => apply Qltb_ge in H
      end;
    split; intros; try done; try lra; exfalso; lra.
Qed.

(** X3: after a successful payment the invoice stores the status computed
    by [create_payment], and GET /api/invoices recomputes it from the stored
    amounts by its own rule.  The two agree unless the total received is ≤ 0
    and the amount is ≤ the total: then the invoice stores Paid and is
    listed as Pending. *)
Theorem payment_status_stored_and_listed env p db resp db' :
  create_payment env p db = (Ret resp, db') →
  ∃ o inv total amt,
    ObjectId (Payment.invoice_id p) = Ret o
    ∧ find_one o (db' !!! "invoice") = Some inv
    ∧ inv !! "amount_received" = Some (VNum total)
    ∧ py_float (get inv "amount" (VNum 0)) = Ret amt
    ∧ stored_status_is (payment_applied_status total amt) inv
    ∧ recomputed_status inv = Some (invoice_status amt total)
    ∧ (payment_applied_status total amt = invoice_status amt total
       ↔ ¬ (total <= 0 ∧ amt <= total)%Q)
    ∧ ((total <= 0)%Q → (amt <= total)%Q →
       payment_applied_status total amt = Paid ∧ invoice_status amt total = Pending).
Proof.
  intros (o & inv & total & amt & Ho & Hinv & _ & Hamt & _ & ->)%create_payment_Ret.
  set (upd := invoice_update (now env) total (payment_applied_status total amt)).
  exists o, (upd ∪ inv), total, amt.
  split; [done|]. split.
  { rewrite lookup_total_insert_eq, (find_one_set_first o o upd) by done.
    rewrite bool_decide_eq_true_2 by done. by rewrite Hinv. }
  split; [by apply lookup_union_Some_l|].
  split.
  { unfold get in *. by rewrite (lookup_union_r upd inv "amount"). }
  split; [by apply lookup_union_Some_l|].
  split.
  { unfold recomputed_status, get in *.
    rewrite (lookup_union_r upd inv "amount") by done. rewrite Hamt.
    by rewrite (lookup_union_Some_l upd inv "amount_received" (VNum total)). }
  split; [apply status_rules_agree|].
  intros Htotal Hamt'. split.
  - unfold payment_applied_status. by rewrite (proj2 (Qleb_le amt total)).
  - by apply invoice_status_Pending.
Qed.

(** ** Listing agreements due within a number of days *)

Lemma list_agreements_rows env customer_id due_within_days db out :
  list_agreements env customer_id due_within_days db = Ret (RDocs out) →
  ∃ rows,
    Forall2 (λ d r, agreement_row (today env) due_within_days d = Ret r)
      (sort_desc "created_at"
         (find (with_filter "customer_id" customer_id ∅) (db !!! "agreement")))
      rows
    ∧ out = omap id rows.
Proof.
  unfold list_agreements.
  destruct (for_each _ _) as [rows|] eqn:Hrows; [|done]. simpl.
  intros [= <-]. exists rows. split; [by apply for_each_Ret|done].
Qed.

Lemma agreement_row_no_end_date today due_within_days (d : document) :
  truthy (parsed_end_date d) = false →
  agreement_row today due_within_days d = Ret (Some (oid_str d)).
Proof. intros Hd. unfold agreement_row. rewrite Hd. by destruct due_within_days. Qed.

Lemma agreement_row_end_date today n (d : document) e r :
  parsed_end_date d = VDate e →
  agreement_row today (Some n) d = Ret r →
  r = if bool_decide (today ≤ e ∧ e ≤ today + n)%Z
      then Some (oid_str (renewed today e d)) else None.
Proof.
  intros Hd. unfold agreement_row, with_renewal, renewed. rewrite Hd. simpl.
  destruct (date_plus_days e (-30)) as [rd|] eqn:Hrd; [|done]. simpl.
  apply date_plus_days_Ret in Hrd as [-> _].
  replace (e + -30)%Z with (e - 30)%Z by lia.
  case_bool_decide as Hle; simpl.
  - destruct (date_plus_days today n) as [upper|] eqn:Hu; [|done]. simpl.
    apply date_plus_days_Ret in Hu as [-> _].
    case_bool_decide as Hup; intros [= <-].
    + by rewrite bool_decide_eq_true_2.
    + rewrite bool_decide_eq_false_2; [done|]. tauto.
  - intros [= <-]. rewrite bool_decide_eq_false_2; [done|]. tauto.
Qed.

Lemma agreement_row_Ret_cases today due_within_days (d : document) r :
  agreement_row today due_within_days d = Ret r →
  truthy (parsed_end_date d) = false ∨ ∃ e, parsed_end_date d = VDate e.
Proof.
  unfold agreement_row, with_renewal.
  destruct (truthy (parsed_end_date d)) eqn:Ht; [|by left].
  destruct (parsed_end_date d); try done. right. by eexists.
Qed.

(** X4: with [due_within_days = n], GET /api/agreements returns the
    agreements without a usable end date, whatever [n] is, and of the others
    exactly those whose end date lies between today and today + [n] days;
    agreements that ended before today are left out. *)
Theorem list_agreements_due_within env customer_id n db out :
  list_agreements env customer_id (Some n) db = Ret (RDocs out) →
  let selected :=
    find (with_filter "customer_id" customer_id ∅) (db !!! "agreement") in
  (∀ row, row ∈ out →
     ∃ d, d ∈ selected
          ∧ ((truthy (parsed_end_date d) = false ∧ row = oid_str d)
             ∨ ∃ e, parsed_end_date d = VDate e
                    ∧ (today env ≤ e ∧ e ≤ today env + n)%Z
                    ∧ row = oid_str (renewed (today env) e d)))
  ∧ (∀ d, d ∈ selected → truthy (parsed_end_date d) = false → oid_str d ∈ out)
  ∧ (∀ d e, d ∈ selected → parsed_end_date d = VDate e →
            (today env ≤ e ∧ e ≤ today env + n)%Z →
            oid_str (renewed (today env) e d) ∈ out).
Proof.
  intros (rows & Hrows & ->)%list_agreements_rows selected.
  assert (∀ d, d ∈ selected →
               ∃ r, agreement_row (today env) (Some n) d = Ret r ∧ r ∈ rows) as Hl.
  { intros d Hd. apply (elem_of_sort_desc "created_at") in Hd.
    apply list_elem_of_lookup in Hd as [i Hi].
    destruct (Forall2_lookup_l _ _ _ _ _ Hrows Hi) as (r & Hr & Hrun).
    exists r. split; [done|]. apply list_elem_of_lookup. by exists i. }
  split; [|split].
  - intros row Hrow. apply list_elem_of_omap in Hrow as (r & Hr & Hid).
    simpl in Hid. subst r.
    apply list_elem_of_lookup in Hr as [i Hi].
    destruct (Forall2_lookup_r _ _ _ _ _ Hrows Hi) as (d & Hd & Hrun).
    exists d. split.
    { apply (elem_of_sort_desc "created_at"). apply list_elem_of_lookup. by exists i. }
    destruct (agreement_row_Ret_cases _ _ _ _ Hrun) as [Hno|[e He]].
    + left. split; [done|].
      rewrite (agreement_row_no_end_date _ _ _ Hno) in Hrun. by injection Hrun as <-.
    + right. exists e. split; [done|].
      pose proof (agreement_row_end_date _ _ _ _ _ He Hrun) as Hr.
      case_bool_decide; [|done]. by injection Hr as ->.
  - intros d Hd Hno. destruct (Hl d Hd) as (r & Hrun & Hr).
    rewrite (agreement_row_no_end_date _ _ _ Hno) in Hrun. injection Hrun as <-.
    apply list_elem_of_omap. by eexists.
  - intros d e Hd He Hwin. destruct (Hl d Hd) as (r & Hrun & Hr).
    pose proof (agreement_row_end_date _ _ _ _ _ He Hrun) as Heq.
    rewrite bool_decide_eq_true_2 in Heq by done. subst r.
    apply list_elem_of_omap. by eexists.
Qed.

(** ** The dashboard *)

Lemma dashboard_summary_Ret env db s :
  dashboard_summary env db = Ret (RSummary s) →
  ∃ outstanding up60 up30 up7 flags,
    outstanding_total (find ∅ (db !!! "invoice")) = Ret outstanding
    ∧ due_within (today env) 60 db = Ret up60
    ∧ due_within (today env) 30 db = Ret up30
    ∧ due_within (today env) 7 db = Ret up7
    ∧ for_each (has_remaining db) (find ∅ (db !!! "po")) = Ret flags
    ∧ s = {| purchase_orders := count_documents ∅ (db !!! "po");
             invoices := count_documents ∅ (db !!! "invoice");
             paid_invoices :=
               count_documents {["payment_status" := "Paid"]} (db !!! "invoice");
             partial_invoices :=
               count_documents {["payment_status" := "Partial"]} (db !!! "invoice");
             pending_invoices :=
               count_documents {["payment_status" := "Pending"]} (db !!! "invoice");
             outstanding_amount := round2 outstanding;
             upcoming_60 := up60;
             upcoming_30 := up30;
             upcoming_7 := up7;
             upcoming_invoices_pos := count_true flags |}.
Proof.
  unfold dashboard_summary.
  destruct (outstanding_total _) as [outstanding|]; [|done]. simpl.
  destruct (due_within _ 60 db) as [up60|]; [|done]. simpl.
  destruct (due_within _ 30 db) as [up30|]; [|done]. simpl.
  destruct (due_within _ 7 db) as [up7|]; [|done]. simpl.
  destruct (for_each _ _) as [flags|]; [|done]. simpl.
  intros [= <-]. by eexists _, _, _, _, _.
Qed.

Lemma outstanding_total_Ret (c : collection) t :
  outstanding_total c = Ret t →
  Forall (λ d, ∃ row, invoice_row d = Ret row) c
  ∧ (t == Qsum balance_of c)%Q.
Proof.
  revert t. induction c as [|d c IH] using rev_ind; intros t.
  - intros [= <-]. split; [constructor|reflexivity].
  - unfold outstanding_total. rewrite foldl_snoc.
    fold (outstanding_total c).
    destruct (outstanding_total c) as [acc|]; [|done]. simpl.
    destruct (IH acc eq_refl) as [Hall Hacc].
    destruct (py_float (get d "amount" (VNum 0))) as [amt|] eqn:Hamt; [|done]. simpl.
    destruct (py_float (get d "amount_received" (VNum 0))) as [rec|] eqn:Hrec; [|done].
    simpl. intros [= <-]. split.
    + apply Forall_app. split; [done|]. apply Forall_singleton.
      unfold invoice_row. rewrite Hamt, Hrec. simpl. by eexists.
    + assert (balance_of d = Qmax 0 (amt - rec)) as Hd.
      { unfold balance_of. by rewrite Hamt, Hrec. }
      rewrite Qsum_app, Hacc. simpl. rewrite Hd. ring.
Qed.

Lemma balance_of_nonneg d : (0 <= balance_of d)%Q.
Proof.
  unfold balance_of.
  destruct (py_float _); [|apply Qle_refl].
  destruct (py_float _); [|apply Qle_refl].
  apply Q.le_max_l.
Qed.

Lemma invoice_row_balance (d row : document) :
  invoice_row d = Ret row →
  num_field "balance_amount" (oid_str row) = balance_of d.
Proof.
  unfold invoice_row, balance_of, num_field.
  destruct (py_float (get d "amount" (VNum 0))) as [amt|]; [|done]. simpl.
  destruct (py_float (get d "amount_received" (VNum 0))) as [rec|]; [|done]. simpl.
  intros [= <-]. rewrite oid_str_lookup by done.
  rewrite lookup_insert_ne by done. by rewrite lookup_insert_eq.
Qed.

(** X5: the dashboard's outstanding amount is, rounded to two decimals, the
    sum of the [balance_amount]s that GET /api/invoices without a filter
    reports, and that sum is not negative; whenever the dashboard answers,
    the unfiltered invoice list answers too. *)
Theorem dashboard_outstanding_is_listed_balance env db s :
  dashboard_summary env db = Ret (RSummary s) →
  ∃ out t,
    list_invoices None None db = Ret (RDocs out)
    ∧ outstanding_amount s = round2 t
    ∧ (t == Qsum (num_field "balance_amount") out)%Q
    ∧ (0 <= t)%Q.
Proof.
  intros (t & up60 & up30 & up7 & flags & Ht & _ & _ & _ & _ & ->)
    %dashboard_summary_Ret.
  rewrite find_all in Ht. apply outstanding_total_Ret in Ht as [Hall Ht].
  unfold list_invoices. cbn [with_filter given]. rewrite find_all.
  destruct (for_each_total invoice_row (sort_desc "created_at" (db !!! "invoice")))
    as [rows Hrows].
  { apply Forall_forall. intros d Hd%elem_of_sort_desc.
    by apply (proj1 (Forall_forall _ _) Hall). }
  exists (oid_str <$> rows), t. rewrite Hrows. simpl.
  split; [done|]. split; [done|]. split.
  - rewrite Ht, Qsum_fmap, <-(Qsum_perm _ _ _ (sort_desc_perm "created_at" _)).
    apply for_each_Ret in Hrows.
    rewrite (Qsum_ext_in balance_of (num_field "balance_amount" ∘ oid_str)
               (sort_desc "created_at" (db !!! "invoice")) rows); [reflexivity|].
    eapply Forall2_impl; [exact Hrows|].
    intros d row Hrow. simpl. symmetry. by apply invoice_row_balance.
  - rewrite Ht. apply Qsum_nonneg, balance_of_nonneg.
Qed.

Lemma status_counts_le (c : collection) :
  (length (filter (stored_status_is Paid) c)
   + length (filter (stored_status_is Partial) c)
   + length (filter (stored_status_is Pending) c) ≤ length c)%nat
  ∧ (Forall (λ d, ∃ st, stored_status_is st d) c →
     (length (filter (stored_status_is Paid) c)
      + length (filter (stored_status_is Partial) c)
      + length (filter (stored_status_is Pending) c) = length c)%nat).
Proof.
  induction c as [|d c [IHle IHeq]]; [done|].
  assert (∀ st st', stored_status_is st d → stored_status_is st' d → st = st') as Hinj.
  { unfold stored_status_is. intros st st' Hst Hst'.
    rewrite Hst in Hst'. injection Hst' as Hst'. by apply payment_status_str_inj. }
  destruct (decide (stored_status_is Paid d)) as [Hp|Hp];
    destruct (decide (stored_status_is Partial d)) as [Hq|Hq];
    destruct (decide (stored_status_is Pending d)) as [Hr|Hr];
    try (by specialize (Hinj _ _ Hp Hq));
    try (by specialize (Hinj _ _ Hp Hr));
    try (by specialize (Hinj _ _ Hq Hr)).
  all: repeat first [rewrite filter_cons_True by done
                    | rewrite filter_cons_False by done];
    cbn [length]; (split; [lia|]); intros Hall;
    apply Forall_cons in Hall as [[st Hst] Hall]; specialize (IHeq Hall);
    try lia.
  by destruct st.
Qed.

(** X6: the dashboard's totals are the sizes of the PO and invoice
    collections; the paid, partial and pending counts never add up to more
    than the invoice total, and add up to it exactly when every invoice
    stores one of the three statuses. *)
Theorem dashboard_totals env db s :
  dashboard_summary env db = Ret (RSummary s) →
  purchase_orders s = length (db !!! "po")
  ∧ invoices s = length (db !!! "invoice")
  ∧ (paid_invoices s + partial_invoices s + pending_invoices s ≤ invoices s)%nat
  ∧ (Forall (λ d, ∃ st, stored_status_is st d) (db !!! "invoice") →
     (paid_invoices s + partial_invoices s + pending_invoices s = invoices s)%nat).
Proof.
  intros (t & up60 & up30 & up7 & flags & _ & _ & _ & _ & _ & ->)
    %dashboard_summary_Ret.
  cbn [purchase_orders invoices paid_invoices partial_invoices pending_invoices].
  change "Paid" with (payment_status_str Paid).
  change "Partial" with (payment_status_str Partial).
  change "Pending" with (payment_status_str Pending).
  rewrite !count_documents_status. unfold count_documents. rewrite !find_all.
  split; [done|]. split; [done|]. apply status_counts_le.
Qed.

Lemma due_in_window_mono today upper upper' ag b b' :
  (upper ≤ upper')%Z →
  due_in_window today upper ag = Ret b →
  due_in_window today upper' ag = Ret b' →
  b = true → b' = true.
Proof.
  intros Hle. unfold due_in_window.
  destruct (get ag "end_date" VNone) as [|q|s|e|t|l|o]; cbv beta iota.
  - by intros [= <-] [= <-].
  - destruct (truthy (VNum q)); simpl; [done|by intros [= <-] [= <-]].
  - destruct (fromisoformat s) as [e|]; intros [= <-] [= <-]; [|done].
    intros Hb%bool_decide_eq_true. apply bool_decide_eq_true. lia.
  - simpl. intros [= <-] [= <-]. intros Hb%bool_decide_eq_true.
    apply bool_decide_eq_true. lia.
  - destruct (truthy (VDateTime t)); simpl; [done|by intros [= <-] [= <-]].
  - destruct (truthy (VList l)); simpl; [done|by intros [= <-] [= <-]].
  - destruct (truthy (VOid o)); simpl; [done|by intros [= <-] [= <-]].
Qed.

Lemma count_true_mono {A} (f g : A → result bool) l fl gl :
  (∀ a b b', f a = Ret b → g a = Ret b' → b = true → b' = true) →
  for_each f l = Ret fl → for_each g l = Ret gl →
  (count_true fl ≤ count_true gl)%nat.
Proof.
  intros Hfg. revert fl gl. induction l as [|a l IH]; simpl; intros fl gl.
  - by intros [= <-] [= <-].
  - destruct (f a) as [b|] eqn:Hb; [|done]. simpl.
    destruct (for_each f l) as [fl'|]; [|done]. simpl. intros [= <-].
    destruct (g a) as [b'|] eqn:Hb'; [|done]. simpl.
    destruct (for_each g l) as [gl'|]; [|done]. simpl. intros [= <-].
    rewrite !count_true_cons. specialize (IH _ _ eq_refl eq_refl).
    specialize (Hfg _ _ _ Hb Hb').
    destruct b, b'; first [lia | by specialize (Hfg eq_refl)].
Qed.

Lemma due_within_mono today n n' db c c' :
  (n ≤ n')%Z →
  due_within today n db = Ret c → due_within today n' db = Ret c' →
  (c ≤ c')%nat.
Proof.
  intros Hn. unfold due_within.
  destruct (date_plus_days today n) as [upper|] eqn:Hu; [|done]. simpl.
  destruct (date_plus_days today n') as [upper'|] eqn:Hu'; [|done]. simpl.
  apply date_plus_days_Ret in Hu as [-> _]. apply date_plus_days_Ret in Hu' as [-> _].
  destruct (for_each _ _) as [fl|] eqn:Hfl; [|done]. simpl. intros [= <-].
  destruct (for_each (due_in_window today (today + n')) _) as [gl|] eqn:Hgl; [|done].
  simpl. intros [= <-].
  eapply count_true_mono; [|exact Hfl|exact Hgl].
  intros a b b'. apply due_in_window_mono. lia.
Qed.

(** X7: the renewal counts of the dashboard are nested: an agreement counted
    as ending within 7 days is counted within 30, and one within 30 is
    counted within 60; and none of them exceeds the number of agreements. *)
Theorem dashboard_upcoming_nested env db s :
  dashboard_summary env db = Ret (RSummary s) →
  (upcoming_7 s ≤ upcoming_30 s)%nat
  ∧ (upcoming_30 s ≤ upcoming_60 s)%nat
  ∧ (upcoming_60 s ≤ length (db !!! "agreement"))%nat.
Proof.
  intros (t & up60 & up30 & up7 & flags & _ & H60 & H30 & H7 & _ & ->)
    %dashboard_summary_Ret.
  cbn [upcoming_7 upcoming_30 upcoming_60].
  split; [by eapply (due_within_mono _ 7 30)|].
  split; [by eapply (due_within_mono _ 30 60)|].
  revert H60. unfold due_within.
  destruct (date_plus_days _ _) as [upper|]; [|done]. simpl.
  destruct (for_each _ _) as [fl|] eqn:Hfl; [|done]. simpl. intros [= <-].
  apply for_each_Ret, Forall2_length in Hfl. rewrite find_all in Hfl.
  rewrite Hfl. unfold count_true. apply length_filter.
Qed.

Lemma Qltb_0_max x : Qltb 0 (Qmax 0 x) = Qltb 0 x.
Proof.
  destruct (Qltb 0 x) eqn:Hx.
  - apply Qltb_lt in Hx. apply Qltb_lt. rewrite Qmax_0_pos; lra.
  - apply Qltb_ge in Hx. apply Qltb_ge. rewrite Qmax_0_neg by done. lra.
Qed.

Lemma has_remaining_po_row db (p : document) b :
  has_remaining db p = Ret b ↔
  ∃ row, po_row db p = Ret row ∧ positive_balance (oid_str row) = b.
Proof.
  unfold has_remaining, po_row.
  destruct (py_sum _) as [billed|]; [|split; [done|by intros (? & ? & _)]]. simpl.
  destruct (py_float _) as [amount|]; [|split; [done|by intros (? & ? & _)]]. simpl.
  assert (positive_balance
            (oid_str (<["po_balance" := VNum (Qmax 0 (amount - billed))]>
                        (<["billed_amount" := VNum billed]> p)))
          = Qltb 0 (amount - billed)) as Hpos.
  { unfold positive_balance. rewrite oid_str_lookup by done.
    rewrite lookup_insert_eq. simpl. apply Qltb_0_max. }
  split.
  - intros [= <-]. eexists. by split.
  - intros (row & [= <-] & <-). by rewrite Hpos.
Qed.

(** X8: the dashboard's number of POs with balance left to invoice is the
    number of rows of GET /api/pos without a filter whose [po_balance] is
    positive; whenever the dashboard answers, the unfiltered PO list answers
    too. *)
Theorem dashboard_pos_with_balance env db s :
  dashboard_summary env db = Ret (RSummary s) →
  ∃ out,
    list_pos None db = Ret (RDocs out)
    ∧ upcoming_invoices_pos s = count_true (positive_balance <$> out).
Proof.
  intros (t & up60 & up30 & up7 & flags & _ & _ & _ & _ & Hflags & ->)
    %dashboard_summary_Ret.
  rewrite find_all in Hflags. apply for_each_Ret in Hflags.
  unfold list_pos. cbn [with_filter given upcoming_invoices_pos]. rewrite find_all.
  set (g := λ d, match has_remaining db d with Ret b => b | Raise _ => false end).
  assert (flags = g <$> db !!! "po") as ->.
  { eapply Forall2_fmap_total; [exact Hflags|]. intros d b Hb. unfold g. by rewrite Hb. }
  destruct (for_each_total (po_row db) (sort_desc "created_at" (db !!! "po")))
    as [rows Hrows].
  { apply Forall_forall. intros d Hd%elem_of_sort_desc.
    apply list_elem_of_lookup in Hd as [i Hi].
    destruct (Forall2_lookup_l _ _ _ _ _ Hflags Hi) as (b & _ & Hb).
    apply has_remaining_po_row in Hb as (row & Hrow & _). by exists row. }
  exists (oid_str <$> rows). rewrite Hrows. simpl. split; [done|].
  apply for_each_Ret in Hrows.
  assert (positive_balance <$> (oid_str <$> rows)
          = g <$> sort_desc "created_at" (db !!! "po")) as ->.
  { clear Hflags. induction Hrows as [|d row l l' Hrow _ IH]; [done|].
    rewrite !fmap_cons, IH. f_equal. unfold g.
    by rewrite (proj2 (has_remaining_po_row db d _) (ex_intro _ row (conj Hrow eq_refl))). }
  apply count_true_perm, fmap_Permutation. symmetry. apply sort_desc_perm.
Qed.

(** ** Uploads *)

(** X9: an upload for a supported entity writes the file under
    [entity_id_field_timestamp_filename] before the id is looked at.  When
    the file system accepts that name, the file is there, and GET /uploads
    serves it, whether the request answers with the url or with status 400;
    the other files and the mails are as before.  When the name holds a NUL
    or a [/] or is too long, [open] raises outside the handler's [try]: the
    request fails with that error and nothing changes.  For any other
    entity the request answers 400 and nothing changes. *)
Theorem upload_saves_file env entity entity_id field filename content w :
  let safe_name :=
    lower entity +:+ "_" +:+ entity_id +:+ "_" +:+ field +:+ "_"
      +:+ strftime_compact (now env) +:+ "_" +:+ filename in
  let r := (upload_document env entity entity_id field filename content w).1 in
  let w' := (upload_document env entity entity_id field filename content w).2 in
  if bool_decide (lower entity ∈ ["customer"; "po"; "invoice"; "agreement"]) then
    match file_name_error safe_name with
    | None =>
        (r = Ret (RUrl ("/uploads/" +:+ safe_name))
         ∨ r = Raise (HTTPException 400 "Invalid entity id or field"))
        ∧ serve_upload safe_name (uploads w') = Ret (RFile content)
        ∧ (∀ f, f ≠ safe_name → uploads w' !! f = uploads w !! f)
        ∧ outbox w' = outbox w
    | Some e => r = Raise e ∧ w' = w
    end
  else r = Raise (HTTPException 400 "Unsupported entity") ∧ w' = w.
Proof.
  intros safe_name. unfold upload_document, save_upload.
  case_bool_decide as Hent; cbn [negb]; [|done].
  fold safe_name.
  destruct (file_name_error safe_name) as [e|]; [done|].
  assert (∀ files : gmap string string,
            serve_upload safe_name (<[safe_name := content]> files) = Ret (RFile content))
    as Hserve.
  { intros files. unfold serve_upload.
    rewrite bool_decide_eq_false_2 by (by apply upload_name_no_dots).
    by rewrite lookup_insert_eq. }
  destruct (try_except _ _) as [db'|e] eqn:Htry; simpl.
  - split; [by left|]. split; [apply Hserve|]. split; [|done].
    intros f Hf. by rewrite lookup_insert_ne.
  - split.
    + right. unfold try_except in Htry.
      destruct (_ ≫= _); [done|]. by injection Htry as <-.
    + split; [apply Hserve|]. split; [|done].
      intros f Hf. by rewrite lookup_insert_ne.
Qed.

Lemma lookup_set_first o (set : document) (c : collection) d :
  set !! "_id" = None →
  find_one o c = Some d →
  find_one o (set_first o set c) = Some (set ∪ d).
Proof.
  intros Hset Hd. rewrite find_one_set_first by done.
  rewrite bool_decide_eq_true_2 by done. by rewrite Hd.
Qed.

(** X10: an upload for an existing document of a supported entity, under a
    file name the file system accepts and with a plain field name (no [.],
    which would address an embedded document, no leading [$], not [_id]),
    answers with the url of the saved file and sets two fields of that
    document: [field] to the url and [updated_at] to the time of the request
    (which wins when [field] is [updated_at] itself).  Every other field of
    the document, every other document and every other collection is as
    before. *)
Theorem upload_sets_field env entity entity_id field filename content w o d :
  lower entity ∈ ["customer"; "po"; "invoice"; "agreement"] →
  ObjectId entity_id = Ret o →
  find_one o (db w !!! lower entity) = Some d →
  plain_field field = true →
  file_name_error
    (lower entity +:+ "_" +:+ entity_id +:+ "_" +:+ field +:+ "_"
       +:+ strftime_compact (now env) +:+ "_" +:+ filename) = None →
  ∃ url d' w',
    upload_document env entity entity_id field filename content w
      = (Ret (RUrl url), w')
    ∧ find_one o (db w' !!! lower entity) = Some d'
    ∧ d' !! "updated_at" = Some (VDateTime (now env))
    ∧ (field ≠ "updated_at" → d' !! field = Some (VStr url))
    ∧ (∀ k, k ≠ field → k ≠ "updated_at" → d' !! k = d !! k)
    ∧ (∀ o', o' ≠ o →
         find_one o' (db w' !!! lower entity) = find_one o' (db w !!! lower entity))
    ∧ length (db w' !!! lower entity) = length (db w !!! lower entity)
    ∧ (∀ name, name ≠ lower entity → db w' !!! name = db w !!! name).
Proof.
  intros Hent Ho Hd Hplain Hname.
  assert (field ≠ "_id") as Hfield.
  { intros ->. vm_compute in Hplain. discriminate Hplain. }
  unfold upload_document, save_upload.
  rewrite bool_decide_eq_true_2 by done. cbn [negb]. rewrite Hname.
  set (url := "/uploads/" +:+ _).
  set (upd := <["updated_at" := VDateTime (now env)]> ({[field := VStr url]} : document)).
  assert (upd !! "_id" = None) as Hupd.
  { unfold upd. rewrite lookup_insert_ne by done. by apply lookup_singleton_None. }
  rewrite Ho. cbn [mbind result_bind].
  rewrite (update_one_found _ _ _ _ _ Hd Hupd). cbn [try_except].
  eexists url, (upd ∪ d), _. split; [done|]. cbn [db].
  rewrite lookup_total_insert_eq.
  split; [by apply lookup_set_first|].
  split; [apply lookup_union_Some_l; unfold upd; by rewrite lookup_insert_eq|].
  split.
  { intros Hne. apply lookup_union_Some_l. unfold upd.
    rewrite lookup_insert_ne by done. by rewrite lookup_singleton_eq. }
  split.
  { intros k Hk Hk'. apply lookup_union_r. unfold upd.
    rewrite lookup_insert_ne by done. by apply lookup_singleton_None. }
  split.
  { intros o' Ho'. rewrite find_one_set_first by done.
    by rewrite bool_decide_eq_false_2. }
  split; [apply length_set_first|].
  intros name Hname'. by rewrite lookup_total_insert_ne.
Qed.

(** ** Customers *)

(** X11: creating a customer never fails, and the customer is then listed:
    GET /api/customers has one row more, among them a row with the returned
    id as [id], the payload's name, the creation time as an ISO string and no
    [_id]; every row listed before is still listed. *)
Theorem customer_created_then_listed env p db :
  ∃ db' out row,
    create_customer env p db = (Ret (RId (fresh_id env)), db')
    ∧ list_customers db' = Ret (RDocs out)
    ∧ length out = S (length (db !!! "customer"))
    ∧ row ∈ out
    ∧ row !! "id" = Some (VStr (fresh_id env))
    ∧ row !! "_id" = None
    ∧ row !! "name" = Some (VStr (Customer.name p))
    ∧ row !! "created_at" = Some (VStr (datetime_isoformat (now env)))
    ∧ (∀ out0 r, list_customers db = Ret (RDocs out0) → r ∈ out0 → r ∈ out).
Proof.
  set (doc := <["_id" := VOid (fresh_id env)]> (stamp (now env) (Customer.model_dump p))).
  exists (insert_one "customer" (fresh_id env) (stamp (now env) (Customer.model_dump p)) db).
  eexists _, (oid_str doc). split.
  { unfold create_customer.
    by rewrite bson_encode_Ret by apply encodable_stamp, customer_dump_encodable. }
  unfold list_customers. rewrite find_all, insert_one_same. fold doc.
  split; [done|].
  split.
  { rewrite length_fmap, (sort_desc_perm "created_at"), length_app. simpl. lia. }
  split.
  { apply list_elem_of_fmap. exists doc. split; [done|].
    apply (elem_of_sort_desc "created_at"). apply elem_of_app. right. by left. }
  assert (doc ≠ ∅) as Hdoc.
  { intros Heq. apply (f_equal (λ m : document, m !! "_id")) in Heq.
    unfold doc in Heq. by rewrite lookup_insert_eq, lookup_empty in Heq. }
  assert (doc !! "_id" = Some (VOid (fresh_id env))) as Hid.
  { unfold doc. by rewrite lookup_insert_eq. }
  split.
  { unfold oid_str. rewrite bool_decide_eq_false_2 by done. rewrite Hid.
    rewrite lookup_fmap. by rewrite lookup_insert_eq. }
  split.
  { unfold oid_str. rewrite bool_decide_eq_false_2 by done. rewrite Hid.
    rewrite lookup_fmap. rewrite lookup_insert_ne by done.
    by rewrite lookup_delete_eq. }
  split.
  { rewrite oid_str_lookup by done. unfold doc, stamp.
    rewrite !lookup_insert_ne by done. done. }
  split.
  { rewrite oid_str_lookup by done. unfold doc, stamp.
    rewrite lookup_insert_ne by done. rewrite lookup_insert_ne by done.
    by rewrite lookup_insert_eq. }
  intros out0 r Hout Hr. unfold list_customers in Hout. injection Hout as <-.
  rewrite find_all in Hr.
  apply list_elem_of_fmap in Hr as (d & -> & Hd).
  apply list_elem_of_fmap. exists d. split; [done|].
  apply (elem_of_sort_desc "created_at"). apply elem_of_app. left.
  exact (proj1 (elem_of_sort_desc "created_at" _ _) Hd).
Qed.

(** ** Payments *)

Lemma num_field_amount_oid_str (d : document) q :
  get d "amount" (VNum 0) = VNum q → (num_field "amount" (oid_str d) == q)%Q.
Proof.
  unfold get, num_field. rewrite oid_str_lookup by done.
  destruct (d !! "amount") as [v|]; simpl.
  - intros ->. reflexivity.
  - intros [= <-]. reflexivity.
Qed.

Lemma py_sum_listed (c : collection) t :
  py_sum ((λ d, get d "amount" (VNum 0)) <$> c) = Ret t →
  (t == Qsum (num_field "amount" ∘ oid_str) c)%Q.
Proof.
  revert t. induction c as [|d c IH] using rev_ind; intros t.
  - intros [= <-]. reflexivity.
  - rewrite fmap_app. simpl. rewrite py_sum_snoc.
    destruct (py_sum _) as [a|]; [|done]. simpl.
    destruct (get d "amount" (VNum 0)) eqn:Hd; try done. simpl.
    intros [= <-]. rewrite Qsum_app, <-(IH a) by done. simpl.
    rewrite (num_field_amount_oid_str _ _ Hd). ring.
Qed.

(** X12: the [invoice_amount_received] a payment creation returns is the sum
    of the [amount]s of the rows GET /api/payments then lists for the
    payload's invoice id, and that list has one row more than payments
    referenced the invoice before. *)
Theorem payment_total_is_listed_sum env p db id total status db' :
  create_payment env p db = (Ret (RPayment id total status), db') →
  ∃ out,
    list_payments (Some (Payment.invoice_id p)) db' = Ret (RDocs out)
    ∧ (total == Qsum (num_field "amount") out)%Q
    ∧ length out = S (length (payments_of (Payment.invoice_id p) db)).
Proof.
  intros (o & inv & total' & amt & Ho & Hinv & Htotal & Hamt & Hresp & ->)
    %create_payment_Ret.
  injection Hresp as -> -> ->.
  unfold list_payments, with_filter, given.
  rewrite (proj2 (String.eqb_neq _ _) (ObjectId_nonempty _ _ Ho)).
  rewrite insert_empty.
  rewrite lookup_total_insert_ne by done. rewrite insert_one_same.
  fold (payment_doc (env, p)).
  eexists. split; [done|]. split.
  - rewrite Qsum_fmap, (Qsum_perm _ _ _ (sort_desc_perm "created_at" _)).
    by apply py_sum_listed.
  - rewrite length_fmap, (sort_desc_perm "created_at"), find_singleton.
    rewrite filter_app, length_app. unfold payments_of.
    rewrite filter_cons_True by apply (payment_doc_invoice_id (env, p)).
    simpl. lia.
Qed.

(** ** Renewal checks *)

Lemma run_background_tasks_grows env tasks db sent :
  ∃ mails,
    run_background_tasks env tasks db sent = sent ++ mails
    ∧ (length mails ≤ length tasks)%nat
    ∧ ∀ m, m ∈ mails →
        ∃ agreement_id ag e,
          agreement_id ∈ tasks
          ∧ in_due_window (today env) agreement_id db ag e
          ∧ m = renewal_mail env ag e.
Proof.
  revert sent. induction tasks as [|id tasks IH]; intros sent.
  - exists []. simpl. rewrite app_nil_r. split; [done|]. split; [done|].
    by intros m Hm%elem_of_nil.
  - cbn [run_background_tasks].
    destruct (check_and_notify_cases env id db sent)
      as [(ag & e & Hdue & ->)|[_ Hsent]].
    + destruct (IH (sent ++ [renewal_mail env ag e])) as (mails & -> & Hlen & Hm).
      exists (renewal_mail env ag e :: mails). rewrite <-app_assoc.
      split; [done|]. split; [simpl; lia|].
      intros m [->|Hin]%elem_of_cons.
      * exists id, ag, e. split; [left|done].
      * destruct (Hm m Hin) as (id' & ag' & e' & ? & ? & ?).
        exists id', ag', e'. split; [by right|done].
    + destruct (check_and_notify_agreement env id db sent) as [[[]|ex] sent'];
        simpl in Hsent; subst sent'.
      * destruct (IH sent) as (mails & -> & Hlen & Hm).
        exists mails. split; [done|]. split; [simpl; lia|].
        intros m Hin. destruct (Hm m Hin) as (id' & ag' & e' & ? & ? & ?).
        exists id', ag', e'. split; [by right|done].
      * exists []. rewrite app_nil_r. split; [done|]. split; [simpl; lia|].
        by intros m Hm%elem_of_nil.
Qed.

(** X13: POST /api/agreements/check-renewals always answers, with
    [checked] the number of stored agreements; it changes neither the store
    nor the uploaded files, keeps the mails sent so far and adds at most one
    mail per agreement, each of them the renewal mail of a stored agreement
    whose end date [e] has [e − 30 days ≤ today ≤ e]. *)
Theorem check_renewals_effect env w :
  ∃ mails,
    serve env PostCheckRenewals w
      = (Ret (RChecked (length (db w !!! "agreement"))),
         {| db := db w; uploads := uploads w; outbox := outbox w ++ mails |})
    ∧ (length mails ≤ length (db w !!! "agreement"))%nat
    ∧ ∀ m, m ∈ mails →
        ∃ ag e,
          ag ∈ db w !!! "agreement"
          ∧ parsed_end_date ag = VDate e
          ∧ (e - 30 ≤ today env ∧ today env ≤ e)%Z
          ∧ m = renewal_mail env ag e.
Proof.
  cbn [serve manual_check_renewals]. rewrite find_all.
  destruct (run_background_tasks_grows env
              ((λ d, py_str (get d "_id" VNone)) <$> db w !!! "agreement")
              (db w) (outbox w)) as (mails & -> & Hlen & Hm).
  exists mails. split; [done|]. split; [by rewrite length_fmap in Hlen|].
  intros m Hin.
  destruct (Hm m Hin) as (id & ag & e & _ & (o & rd & _ & Hag & He & Hrd & Hwin) & ->).
  exists ag, e. apply find_one_Some in Hag as [_ Hag].
  apply date_plus_days_Ret in Hrd as [-> _].
  split; [done|]. split; [done|]. split; [lia|done].
Qed.

(** ** Agreement creation and its notification *)

Lemma stamp_lookup_ne t (d : document) k :
  k ≠ "created_at" → k ≠ "updated_at" → stamp t d !! k = d !! k.
Proof. intros ? ?. unfold stamp. by rewrite !lookup_insert_ne. Qed.

Lemma computed_renewal_no_end_date today p :
  Agreement.end_date p = None →
  computed_renewal today (Agreement.model_dump p) = Ret (Agreement.model_dump p).
Proof.
  intros He. unfold computed_renewal, get. by rewrite agreement_dump_end_date, He.
Qed.

(** A payload with a date is refused: by the date arithmetic, or by the
    store that cannot encode it. *)
Lemma create_agreement_dates env p db :
  resolves "customer" (Agreement.customer_id p) db →
  Agreement.start_date p ≠ None ∨ Agreement.end_date p ≠ None
  ∨ Agreement.renewal_due p ≠ None →
  ∃ e, create_agreement env p db = (Raise e, db)
       ∧ (e = InvalidDocument ∨ e = OverflowError).
Proof.
  intros Hcust Hdates.
  apply (resolve_resolves _ _ "Customer not found" "Invalid customer_id") in Hcust
    as [cust Hcust].
  unfold create_agreement. rewrite Hcust.
  assert (∀ data k t,
            data !! k = Some (VDate t) → k ≠ "created_at" → k ≠ "updated_at" →
            bson_encode (stamp (now env) data) = Raise InvalidDocument) as Hdate.
  { intros data k t Hk ? ?. apply (bson_encode_date _ k t).
    unfold stamp. by rewrite !lookup_insert_ne. }
  destruct (Agreement.end_date p) as [e|] eqn:He.
  - unfold computed_renewal, get. rewrite agreement_dump_end_date, He.
    cbn [opt_date truthy mbind result_bind].
    destruct (date_plus_days e (-30)) as [rd|ex] eqn:Hrd.
    + rewrite (with_renewal_date _ _ _ _ Hrd).
      rewrite (Hdate _ "end_date" e); [by eauto| |done|done].
      rewrite !lookup_insert_ne by done. by rewrite agreement_dump_end_date, He.
    + unfold with_renewal. cbn [as_date mbind result_bind]. rewrite Hrd.
      cbn [mbind result_bind]. exists ex. split; [done|]. right.
      revert Hrd. unfold date_plus_days. case_bool_decide; [done|]. by intros [= <-].
  - rewrite computed_renewal_no_end_date by done.
    destruct (Agreement.start_date p) as [t|] eqn:Hs.
    { rewrite (Hdate _ "start_date" t); [by eauto| |done|done].
      by rewrite agreement_dump_start_date, Hs. }
    destruct (Agreement.renewal_due p) as [t|] eqn:Hr.
    { rewrite (Hdate _ "renewal_due" t); [by eauto| |done|done].
      by rewrite (proj2 (agreement_dump_renewal p)), Hr. }
    by destruct Hdates as [?|[?|?]].
Qed.

(** X14: POST /api/agreements and dates.  A payload with a start date, an
    end date or a renewal_due is never stored: the renewal fields are
    computed, then the store refuses the [datetime.date] values
    ([InvalidDocument]; [OverflowError] when end_date − 30 days is no date);
    nothing is written and no notification task runs.  A payload without
    dates is stored as it is, with the payload's renewal_status, and the
    notification that runs after the response finds no end date and sends
    nothing.  So no agreement creation sends a renewal mail.  (The customer
    resolves and the generated id is a well-formed id no stored agreement
    has yet.) *)
Theorem agreement_creation_and_dates env p w :
  resolves "customer" (Agreement.customer_id p) (db w) →
  ObjectId (fresh_id env) = Ret (fresh_id env) →
  find_one (fresh_id env) (db w !!! "agreement") = None →
  match Agreement.start_date p, Agreement.end_date p, Agreement.renewal_due p with
  | None, None, None =>
      ∃ ag w',
        serve env (PostAgreements p) w = (Ret (RId (fresh_id env)), w')
        ∧ db w' !!! "agreement" = db w !!! "agreement" ++ [ag]
        ∧ ag !! "_id" = Some (VOid (fresh_id env))
        ∧ ag !! "end_date" = Some VNone
        ∧ ag !! "renewal_due" = Some VNone
        ∧ ag !! "renewal_status"
            = Some (VStr (renewal_status_str (Agreement.renewal_status p)))
        ∧ uploads w' = uploads w
        ∧ outbox w' = outbox w
  | _, _, _ =>
      ∃ e, serve env (PostAgreements p) w = (Raise e, w)
           ∧ (e = InvalidDocument ∨ e = OverflowError)
  end.
Proof.
  intros Hcust Hfresh Hunused.
  assert (Agreement.start_date p ≠ None ∨ Agreement.end_date p ≠ None
          ∨ Agreement.renewal_due p ≠ None →
          ∃ e, serve env (PostAgreements p) w = (Raise e, w)
               ∧ (e = InvalidDocument ∨ e = OverflowError)) as Hdates.
  { intros Hd. destruct (create_agreement_dates env p (db w) Hcust Hd) as (e & He & Hkind).
    exists e. split; [|done]. cbn [serve]. rewrite He. cbn [fst snd].
    by rewrite world_eta. }
  destruct (Agreement.start_date p) as [t|] eqn:Hs.
  { destruct (Agreement.end_date p), (Agreement.renewal_due p); apply Hdates; auto. }
  destruct (Agreement.end_date p) as [t|] eqn:He.
  { destruct (Agreement.renewal_due p); apply Hdates; auto. }
  destruct (Agreement.renewal_due p) as [t|] eqn:Hr; [apply Hdates; auto|].
  clear Hdates.
  set (data := Agreement.model_dump p).
  set (ag := <["_id" := VOid (fresh_id env)]> (stamp (now env) data)).
  set (db' := insert_one "agreement" (fresh_id env) (stamp (now env) data) (db w)).
  assert (create_agreement env p (db w) = (Ret (RId (fresh_id env), [fresh_id env]), db'))
    as Hcreate.
  { apply create_agreement_Ret. exists data. split; [done|].
    split; [by apply computed_renewal_no_end_date|].
    split; [by apply encodable_stamp, agreement_dump_encodable|done]. }
  assert (∀ k, k ≠ "_id" → k ≠ "created_at" → k ≠ "updated_at" →
               ag !! k = Agreement.model_dump p !! k) as Hkeep.
  { intros k ? ? ?. unfold ag, stamp. by rewrite !lookup_insert_ne. }
  assert (ag !! "end_date" = Some VNone) as Hend.
  { rewrite Hkeep by done. by rewrite agreement_dump_end_date, He. }
  assert (find_one (fresh_id env) (db' !!! "agreement") = Some ag) as Hag.
  { unfold db'. rewrite insert_one_same, find_one_app_None by done.
    unfold find_one. rewrite filter_cons_True; [done|].
    unfold has_id. apply lookup_insert_eq. }
  exists ag. eexists. cbn [serve]. rewrite Hcreate. split; [done|].
  cbn [db uploads outbox].
  split; [unfold db'; by rewrite insert_one_same|].
  split; [unfold ag; by rewrite lookup_insert_eq|].
  split; [done|].
  split; [rewrite Hkeep by done; by rewrite (proj2 (agreement_dump_renewal p)), Hr|].
  split; [rewrite Hkeep by done; apply agreement_dump_renewal|].
  split; [done|].
  cbn [run_background_tasks].
  destruct (check_and_notify_cases env (fresh_id env) db' (outbox w))
    as [(ag' & e' & (o & rd & Ho & Hag' & He' & _) & _)|[_ Hsent]].
  - rewrite Hfresh in Ho. injection Ho as <-. rewrite Hag in Hag'. injection Hag' as <-.
    unfold parsed_end_date, get in He'. by rewrite Hend in He'.
  - destruct (check_and_notify_agreement env (fresh_id env) db' (outbox w))
      as [[[]|ex] sent']; simpl in Hsent; by subst sent'.
Qed.

(** ** Listing invoices *)

(** X15: GET /api/invoices answers exactly when [amount] and
    [amount_received] of every selected invoice convert to a number, with one
    row per selected invoice; a single stored invoice whose amount does not
    convert makes every listing that selects it fail. *)
Theorem list_invoices_answers po_id customer_id db :
  let selected :=
    find (with_filter "customer_id" customer_id (with_filter "po_id" po_id ∅))
      (db !!! "invoice") in
  ((∃ out, list_invoices po_id customer_id db = Ret (RDocs out))
   ↔ Forall (λ d, ∃ amt rec,
                py_float (get d "amount" (VNum 0)) = Ret amt
                ∧ py_float (get d "amount_received" (VNum 0)) = Ret rec) selected)
  ∧ (∀ out, list_invoices po_id customer_id db = Ret (RDocs out) →
            length out = length selected)
  ∧ (∀ d e, d ∈ selected →
            py_float (get d "amount" (VNum 0)) = Raise e →
            ∃ e', list_invoices po_id customer_id db = Raise e').
Proof.
  intros selected.
  assert (∀ d, (∃ row, invoice_row d = Ret row)
               ↔ ∃ amt rec, py_float (get d "amount" (VNum 0)) = Ret amt
                  ∧ py_float (get d "amount_received" (VNum 0)) = Ret rec) as Hrow.
  { intros d. unfold invoice_row.
    destruct (py_float (get d "amount" (VNum 0))) as [amt|]; simpl;
      [|split; [by intros [? ?]|by intros (? & ? & ? & _)]].
    destruct (py_float (get d "amount_received" (VNum 0))) as [rec|]; simpl;
      [|split; [by intros [? ?]|by intros (? & ? & _ & ?)]].
    split; [by eexists _, _|by eexists]. }
  assert (∀ out, list_invoices po_id customer_id db = Ret (RDocs out) →
                 Forall (λ d, ∃ row, invoice_row d = Ret row) selected
                 ∧ length out = length selected) as Hout.
  { intros out (rows & Hrows & ->)%list_invoices_rows. fold selected in Hrows. split.
    - apply Forall_forall. intros d Hd%(elem_of_sort_desc "created_at").
      apply list_elem_of_lookup in Hd as [i Hi].
      destruct (Forall2_lookup_l _ _ _ _ _ Hrows Hi) as (row & _ & Hr). by exists row.
    - rewrite length_fmap, <-(Forall2_length _ _ _ Hrows).
      by rewrite (sort_desc_perm "created_at"). }
  assert (Forall (λ d, ∃ row, invoice_row d = Ret row) selected →
          ∃ out, list_invoices po_id customer_id db = Ret (RDocs out)) as Hin.
  { intros Hall. unfold list_invoices. fold selected.
    destruct (for_each_total invoice_row (sort_desc "created_at" selected)) as [rows ->].
    - apply Forall_forall. intros d Hd%elem_of_sort_desc.
      by apply (proj1 (Forall_forall _ _) Hall).
    - simpl. by eexists. }
  split; [|split].
  - split.
    + intros [out [Hall _]%Hout]. eapply Forall_impl; [exact Hall|].
      intros d. apply Hrow.
    + intros Hall. apply Hin. eapply Forall_impl; [exact Hall|].
      intros d. apply Hrow.
  - intros out Ho. by apply Hout.
  - intros d e Hd He.
    assert ((∃ out, list_invoices po_id customer_id db = Ret (RDocs out))
            ∨ ∃ e', list_invoices po_id customer_id db = Raise e') as [[out Hl]|Hl].
    { unfold list_invoices. destruct (for_each _ _); simpl; eauto. }
    + apply Hout in Hl as [Hall _].
      apply (proj1 (Forall_forall _ _) Hall) in Hd.
      apply Hrow in Hd as (? & ? & ? & _). congruence.
    + done.
Qed.

(** ** Payment creation, step by step *)

Lemma create_payment_outcomes env p db r db' :
  create_payment env p db = (r, db') →
  let db1 := insert_one "payment" (fresh_id env)
               (stamp (now env) (Payment.model_dump p)) db in
  (¬ (resolves "invoice" (Payment.invoice_id p) db
      ∧ resolves "customer" (Payment.customer_id p) db)
   ∧ db' = db ∧ ∃ detail, r = Raise (HTTPException 400 detail))
  ∨ (resolves "invoice" (Payment.invoice_id p) db
     ∧ resolves "customer" (Payment.customer_id p) db
     ∧ ((db' = db1 ∧ (r = Raise TypeError ∨ r = Raise ValueError))
        ∨ ∃ o total status,
            r = Ret (RPayment (fresh_id env) total (payment_status_str status))
            ∧ db' = <["invoice" :=
                       set_first o (invoice_update (now env) total status)
                         (db1 !!! "invoice")]> db1)).
Proof.
  intros Hrun db1. unfold create_payment in Hrun. fold db1 in Hrun. revert Hrun.
  destruct (resolve_cases "invoice" (Payment.invoice_id p)
              "Invoice not found" "Invalid invoice_id" db) as [[inv Hinv]|Hinv];
    rewrite Hinv; cycle 1.
  { intros [= <- <-]. left. split; [|split; [done|by eexists]].
    intros [Hres _].
    apply (resolve_resolves _ _ "Invoice not found" "Invalid invoice_id") in Hres
      as [? Hres]. congruence. }
  destruct (resolve_cases "customer" (Payment.customer_id p)
              "Customer not found" "Invalid customer_id" db) as [[cust Hcust]|Hcust];
    rewrite Hcust; cycle 1.
  { intros [= <- <-]. left. split; [|split; [done|by eexists]].
    intros [_ Hres].
    apply (resolve_resolves _ _ "Customer not found" "Invalid customer_id") in Hres
      as [? Hres]. congruence. }
  intros Hrun. right.
  split; [by eapply resolve_Ret_resolves|]. split; [by eapply resolve_Ret_resolves|].
  revert Hrun.
  rewrite bson_encode_Ret by apply encodable_stamp, payment_dump_encodable.
  unfold invoice_totals.
  destruct (py_sum _) as [total|e] eqn:Hsum; simpl; cycle 1.
  { intros [= <- <-]. left. split; [done|].
    left. f_equal. revert Hsum. generalize (find {["invoice_id" := Payment.invoice_id p]}
                                   (db1 !!! "payment")).
    intros c. induction c as [|d c IH] using rev_ind; [done|].
    rewrite fmap_app. simpl. rewrite py_sum_snoc.
    destruct (py_sum _); simpl; [|by auto].
    destruct (get d "amount" (VNum 0)); simpl; by intros [= <-]. }
  destruct (py_float (get inv "amount" (VNum 0))) as [amt|e] eqn:Hamt; simpl; cycle 1.
  { intros [= <- <-]. left. split; [done|].
    revert Hamt. unfold py_float.
    destruct (get inv "amount" (VNum 0)); try (intros [= <-]; by left).
    destruct (float_of_str _); [done|]. intros [= <-]. by right. }
  apply resolve_Ret in Hinv as (o & Ho & Hinv).
  rewrite (id_of_found _ _ _ Hinv). simpl.
  erewrite update_one_found; cycle 1.
  { unfold db1. rewrite insert_one_other by done. exact Hinv. }
  { done. }
  intros [= <- <-]. right. by eexists o, total, _.
Qed.

(** X16: a payment creation whose references resolve stores the payment
    before it sums the payments and converts the invoice's amount; when one
    of these raises ([TypeError], [ValueError]), the request fails but the
    payment stays stored, and the invoice is not updated. *)
Theorem failed_payment_is_stored env p db e db' :
  resolves "invoice" (Payment.invoice_id p) db →
  resolves "customer" (Payment.customer_id p) db →
  create_payment env p db = (Raise e, db') →
  (e = TypeError ∨ e = ValueError)
  ∧ db' !!! "payment" = db !!! "payment" ++ [payment_doc (env, p)]
  ∧ db' !!! "invoice" = db !!! "invoice"
  ∧ payments_of (Payment.invoice_id p) db'
    = payments_of (Payment.invoice_id p) db ++ [payment_doc (env, p)].
Proof.
  intros Hinv Hcust Hrun.
  apply create_payment_outcomes in Hrun
    as [[Hno _]|(_ & _ & [[-> He]|(? & ? & ? & ? & _)])]; [tauto| |done].
  split; [destruct He as [[= <-]|[= <-]]; auto|].
  rewrite insert_one_same, insert_one_other by done.
  split; [done|]. split; [done|].
  unfold payments_of. rewrite insert_one_same. rewrite filter_app.
  rewrite filter_cons_True by apply (payment_doc_invoice_id (env, p)). done.
Qed.

(** ** Nothing is deleted *)

Lemma run_background_tasks_prefix env tasks db sent :
  sent `prefix_of` run_background_tasks env tasks db sent.
Proof.
  revert sent. induction tasks as [|id tasks IH]; intros sent; [done|].
  cbn [run_background_tasks].
  destruct (check_and_notify_cases env id db sent)
    as [(ag & e & _ & ->)|[_ Hsent]].
  - etrans; [|apply IH]. by apply prefix_app_r.
  - destruct (check_and_notify_agreement env id db sent) as [[[]|ex] sent'];
      simpl in Hsent; subst sent'; [apply IH|done].
Qed.

Lemma serve_keeps env req w :
  let w' := (serve env req w).2 in
  keeps_documents (db w) (db w')
  ∧ outbox w `prefix_of` outbox w'
  ∧ ∀ f, is_Some (uploads w !! f) → is_Some (uploads w' !! f).
Proof.
  assert (∀ w, keeps_documents (db w) (db w)
               ∧ outbox w `prefix_of` outbox w
               ∧ ∀ f, is_Some (uploads w !! f) → is_Some (uploads w !! f)) as Hsame.
  { intros w0. split; [apply keeps_documents_refl|]. by split. }
  assert (∀ db', keeps_documents (db w) db' →
                 keeps_documents (db w) db'
                 ∧ outbox w `prefix_of` outbox w
                 ∧ ∀ f, is_Some (uploads w !! f) → is_Some (uploads w !! f)) as Hdb.
  { intros db' Hk. split; [done|]. by split. }
  destruct req; cbn [serve]; try apply Hsame.
  - cbn [snd fst db uploads outbox]. apply Hdb.
    destruct (create_customer env payload (db w)) as [r db'] eqn:Hrun.
    apply create_customer_db in Hrun as [->|[data ->]]; cbn [snd].
    + apply keeps_documents_refl.
    + apply keeps_documents_append.
  - destruct (Po.valid payload); [|apply Hsame].
    cbn [snd fst db uploads outbox]. apply Hdb.
    destruct (create_po env payload (db w)) as [r db'] eqn:Hrun.
    apply create_po_db in Hrun as [->|[data ->]]; cbn [snd].
    + apply keeps_documents_refl.
    + apply keeps_documents_append.
  - destruct (Invoice.valid payload); [|apply Hsame].
    cbn [snd fst db uploads outbox]. apply Hdb.
    destruct (create_invoice env payload (db w)) as [r db'] eqn:Hrun.
    apply create_invoice_cases in Hrun as [[_ ->]|(doc & _ & -> & _)]; cbn [snd].
    + apply keeps_documents_refl.
    + apply keeps_documents_append.
  - destruct (Payment.valid payload); [|apply Hsame].
    cbn [snd fst db uploads outbox]. apply Hdb.
    destruct (create_payment env payload (db w)) as [r db'] eqn:Hrun.
    apply create_payment_outcomes in Hrun
      as [(_ & -> & _)|(_ & _ & [[-> _]|(o & total & st & _ & ->)])]; cbn [snd].
    + apply keeps_documents_refl.
    + apply keeps_documents_append.
    + eapply keeps_documents_trans; [apply keeps_documents_append|].
      by apply keeps_documents_set_first.
  - destruct (create_agreement env payload (db w)) as [[[resp tasks]|e] db'] eqn:Hrun;
      apply create_agreement_db in Hrun; cbn [snd fst db uploads outbox].
    + split; [|split; [apply run_background_tasks_prefix|done]].
      destruct Hrun as [->|[data ->]];
        [apply keeps_documents_refl|apply keeps_documents_append].
    + apply Hdb. destruct Hrun as [->|[data ->]];
        [apply keeps_documents_refl|apply keeps_documents_append].
  - cbn [manual_check_renewals snd db uploads outbox].
    split; [apply keeps_documents_refl|].
    split; [apply run_background_tasks_prefix|done].
  - destruct (upload_document env entity entity_id field filename content w)
      as [r w'] eqn:Hrun. cbn [snd].
    split; [|split].
    + apply upload_document_db in Hrun as [->|(o & url & _ & Hfield & ->)].
      * apply keeps_documents_refl.
      * apply keeps_documents_set_first.
        rewrite lookup_insert_ne by done. by apply lookup_singleton_None.
    + revert Hrun. unfold upload_document.
      destruct (negb _); [by intros [= _ <-]|].
      destruct (save_upload _ _ _ _ _ _ _) as [[url files]|]; [|by intros [= _ <-]].
      destruct (try_except _ _); by intros [= _ <-].
    + revert Hrun. unfold upload_document, save_upload.
      destruct (negb _); [by intros [= _ <-]|].
      destruct (file_name_error _); [by intros [= _ <-]|].
      assert (∀ (files : gmap string string) k v f,
                is_Some (files !! f) → is_Some (<[k := v]> files !! f)) as Hins.
      { intros files k v f Hf. destruct (decide (k = f)) as [->|].
        - rewrite lookup_insert_eq. eauto.
        - by rewrite lookup_insert_ne. }
      destruct (try_except _ _); intros [= _ <-]; cbn [uploads]; intros f; apply Hins.
Qed.

(** X17: no session deletes anything.  Over any sequence of requests every
    collection keeps its documents under their ids and never shrinks, the
    mails sent so far stay a prefix of the mails sent, and every uploaded
    file name keeps a file. *)
Theorem nothing_is_ever_deleted reqs w :
  let w' := (run reqs w).2 in
  keeps_documents (db w) (db w')
  ∧ outbox w `prefix_of` outbox w'
  ∧ ∀ f, is_Some (uploads w !! f) → is_Some (uploads w' !! f).
Proof.
  revert w. induction reqs as [|[env req] reqs IH]; intros w.
  - simpl. split; [apply keeps_documents_refl|]. by split.
  - rewrite run_cons.
    destruct (serve_keeps env req w) as (Hk & Ho & Hu).
    destruct (serve env req w) as [r w1]. cbn [snd] in Hk, Ho, Hu.
    specialize (IH w1). destruct (run reqs w1) as [rs w2]. cbn [snd] in IH |- *.
    destruct IH as (Hk' & Ho' & Hu').
    split; [by eapply keeps_documents_trans|].
    split; [by etrans|]. intros f Hf. by apply Hu', Hu.
Qed.

(** ** Query parameters *)

(** X18: the two query parameters of GET /api/invoices are conjoined, and
    an empty string filters nothing: the rows returned are the rows of
    exactly the stored invoices whose [po_id] and [customer_id] are the
    given non-empty strings. *)
Theorem list_invoices_filters po_id customer_id db out :
  list_invoices po_id customer_id db = Ret (RDocs out) →
  (∀ row, row ∈ out ↔
          ∃ d r, d ∈ db !!! "invoice"
                 ∧ passes "po_id" po_id d
                 ∧ passes "customer_id" customer_id d
                 ∧ invoice_row d = Ret r
                 ∧ row = oid_str r)
  ∧ list_invoices (Some "") customer_id db = list_invoices None customer_id db
  ∧ list_invoices po_id (Some "") db = list_invoices po_id None db.
Proof.
  intros (rows & Hrows & ->)%list_invoices_rows.
  assert (∀ d, d ∈ find (with_filter "customer_id" customer_id
                           (with_filter "po_id" po_id ∅)) (db !!! "invoice")
               ↔ d ∈ db !!! "invoice" ∧ passes "po_id" po_id d
                 ∧ passes "customer_id" customer_id d) as Hsel.
  { intros d. rewrite elem_of_find_with_filter; cycle 1.
    { unfold with_filter. destruct (given po_id); [|done].
      by rewrite lookup_insert_ne. }
    rewrite elem_of_find_with_filter by done.
    unfold find at 1. rewrite list_elem_of_filter.
    split; [intros [[[_ ?] ?] ?]; done|intros (? & ? & ?)].
    split; [|done]. split; [|done]. split; [apply map_Forall_empty|done]. }
  split; [|done].
  intros row. rewrite list_elem_of_fmap. split.
  - intros (r & -> & Hr). apply list_elem_of_lookup in Hr as [i Hi].
    destruct (Forall2_lookup_r _ _ _ _ _ Hrows Hi) as (d & Hd & Hrow).
    exists d, r.
    assert (d ∈ db !!! "invoice" ∧ passes "po_id" po_id d
            ∧ passes "customer_id" customer_id d) as (? & ? & ?).
    { apply Hsel, (elem_of_sort_desc "created_at"), list_elem_of_lookup. by exists i. }
    done.
  - intros (d & r & Hd & Hpo & Hcust & Hrow & ->).
    assert (d ∈ sort_desc "created_at"
                  (find (with_filter "customer_id" customer_id
                           (with_filter "po_id" po_id ∅)) (db !!! "invoice"))) as Hin.
    { apply elem_of_sort_desc, Hsel. done. }
    apply list_elem_of_lookup in Hin as [i Hi].
    destruct (Forall2_lookup_l _ _ _ _ _ Hrows Hi) as (r' & Hr' & Hrow').
    rewrite Hrow in Hrow'. injection Hrow' as <-.
    exists r. split; [done|]. apply list_elem_of_lookup. by exists i.
Qed.

(** ** A new purchase order *)

Lemma oid_str_id (d : document) v :
  d !! "_id" = Some v → oid_str d !! "id" = Some (VStr (py_str v)).
Proof.
  intros Hv. unfold oid_str. case_bool_decide as Hd.
  - subst d. by rewrite lookup_empty in Hv.
  - rewrite lookup_fmap, Hv. by rewrite lookup_insert_eq.
Qed.

Lemma po_dump_amount p : Po.model_dump p !! "amount" = Some (VNum (Po.amount p)).
Proof. vm_compute. reflexivity. Qed.

(** X19: a purchase order just created for an existing customer, from a
    payload without a date (a [po_date] the store cannot encode, and nothing
    is created), whose new id no stored invoice references, is listed by
    GET /api/pos with [billed_amount] 0 and [po_balance] equal to its
    amount. *)
Theorem new_po_is_listed_unbilled env p db out :
  Po.valid p = true →
  Po.po_date p = None →
  resolves "customer" (Po.customer_id p) db →
  (∀ i, i ∈ db !!! "invoice" → i !! "po_id" ≠ Some (VStr (fresh_id env))) →
  list_pos None (create_po env p db).2 = Ret (RDocs out) →
  ∃ row bal,
    row ∈ out
    ∧ row !! "id" = Some (VStr (fresh_id env))
    ∧ row !! "billed_amount" = Some (VNum 0)
    ∧ row !! "po_balance" = Some (VNum bal)
    ∧ (bal == Po.amount p)%Q.
Proof.
  intros Hvalid Hdate Hcust Hfresh.
  apply (resolve_resolves _ _ "Customer not found" "Invalid customer_id") in Hcust
    as [cust Hcust].
  unfold create_po. rewrite Hcust.
  rewrite bson_encode_Ret by (by apply encodable_stamp, po_dump_encodable).
  cbn [snd].
  set (doc := <["_id" := VOid (fresh_id env)]> (stamp (now env) (Po.model_dump p))).
  set (db' := insert_one "po" (fresh_id env) (stamp (now env) (Po.model_dump p)) db).
  intros (rows & Hrows & ->)%list_pos_rows.
  assert (doc ∈ sort_desc "created_at"
                  (find (with_filter "customer_id" None ∅) (db' !!! "po"))) as Hin.
  { apply elem_of_sort_desc. cbn [with_filter given]. rewrite find_all.
    unfold db'. rewrite insert_one_same. apply elem_of_app. right. by left. }
  apply list_elem_of_lookup in Hin as [i Hi].
  destruct (Forall2_lookup_l _ _ _ _ _ Hrows Hi) as (row & Hrow & Hrun).
  apply po_row_Ret in Hrun as (billed & amount & Hbilled & Hamount & ->).
  assert (doc !! "_id" = Some (VOid (fresh_id env))) as Hid.
  { unfold doc. by rewrite lookup_insert_eq. }
  assert (billed = 0%Q) as ->.
  { revert Hbilled. unfold get. rewrite Hid. cbn [py_str].
    unfold db'. rewrite insert_one_other by done. rewrite find_singleton.
    rewrite filter_none by exact Hfresh. by intros [= <-]. }
  assert (amount = Po.amount p) as ->.
  { revert Hamount. unfold get, doc, stamp.
    rewrite !lookup_insert_ne by done. rewrite po_dump_amount. by intros [= <-]. }
  pose proof (po_row_fields doc (Po.amount p) 0) as Hfields.
  cbv zeta in Hfields. destruct Hfields as [Hb Hbal].
  eexists _, (Qmax 0 (Po.amount p - 0)).
  split; [apply list_elem_of_fmap; eexists; split; [done|];
          apply list_elem_of_lookup; by exists i|].
  split.
  { apply (oid_str_id _ (VOid (fresh_id env))).
    rewrite !lookup_insert_ne by done. exact Hid. }
  split; [exact Hb|]. split; [exact Hbal|].
  rewrite Qmax_0_pos.
  - ring.
  - apply Qleb_le in Hvalid. lra.
Qed.

End more_properties.

(** * The properties on the example data *)

#[local] Existing Instance Sample.runtime.

(** A closed equation, or a decidable closed proposition, checked by
    evaluation. *)
Ltac evaluated :=
  lazymatch goal with
  | |- ?l = ?r => vm_cast_no_check (@eq_refl _ r)
  end.

Ltac decided := apply (bool_decide_unpack _); vm_cast_no_check I.

Ltac unresolved :=
  let o := fresh "o" in
  let d := fresh "d" in
  let Ho := fresh "Ho" in
  let Hd := fresh "Hd" in
  intros (o & d & Ho & Hd); vm_compute in Ho;
  first [discriminate Ho | injection Ho as <-; vm_compute in Hd; discriminate Hd].

(** C1, an invoice of 1000 with one payment of 300: Partial, balance 700. *)
Lemma list_invoices_status_balance_witness :
  let w := Sample.with_payment 1000 300 in
  let d := Sample.first_of "invoice" w in
  let out := Sample.rows_of (list_invoices None None (db w)) in
  list_invoices None None (db w) = Ret (RDocs out)
  ∧ d ∈ find (with_filter "customer_id" None (with_filter "po_id" None ∅))
          (db w !!! "invoice")
  ∧ d !! "amount" = Some (VNum 1000)
  ∧ d !! "amount_received" = Some (VNum 300)
  ∧ ∃ row,
      row ∈ out
      ∧ row !! "payment_status" = Some (VStr "Partial")
      ∧ row !! "balance_amount" = Some (VNum 700).
Proof.
  intros w d out.
  assert (list_invoices None None (db w) = Ret (RDocs out)) as Hout by evaluated.
  assert (d ∈ find (with_filter "customer_id" None (with_filter "po_id" None ∅))
                (db w !!! "invoice")) as Hd by decided.
  assert (d !! "amount" = Some (VNum 1000)) as Ha by evaluated.
  assert (d !! "amount_received" = Some (VNum 300)) as Hr by evaluated.
  split; [exact Hout|]. split; [exact Hd|]. split; [exact Ha|]. split; [exact Hr|].
  destruct (list_invoices_status_balance None None (db w) out d 1000 300 Hout Hd Ha Hr)
    as (row & st & bal & Hrow & _ & Hst & Hbal & _ & Hpartial & _ & Hbaleq & _).
  exists row. split; [exact Hrow|].
  assert (st = Partial) as -> by (apply Hpartial; split; reflexivity).
  subst bal. split; [exact Hst|exact Hbal].
Defined.

(** C1, an invoice of amount 0 with nothing received: the amount received
    is at least the amount, and GET /api/invoices reports Pending, not Paid. *)
Lemma list_invoices_paid_counterexample :
  let w := Sample.with_invoice 0 in
  let d := Sample.first_of "invoice" w in
  db w !!! "invoice" = [d]
  ∧ d !! "amount" = Some (VNum 0)
  ∧ d !! "amount_received" = Some (VNum 0)
  ∧ ∃ row,
      list_invoices None None (db w) = Ret (RDocs [row])
      ∧ row !! "payment_status" = Some (VStr "Pending")
      ∧ ¬ (row !! "payment_status" = Some (VStr "Paid") ↔ (0 <= 0)%Q).
Proof.
  intros w d. split; [evaluated|]. split; [evaluated|]. split; [evaluated|].
  exists (default ∅ (head (Sample.rows_of (list_invoices None None (db w))))).
  split; [evaluated|]. split; [evaluated|].
  intros [_ Hpaid]. assert (0 <= 0)%Q as Hle by lra.
  apply Hpaid in Hle. vm_compute in Hle. discriminate Hle.
Qed.



(** C3, a PO of 1000 with one invoice of 1200: billed 1200, balance 0. *)
Lemma po_billed_and_balance_witness :
  let w := Sample.with_invoice 1200 in
  let d := Sample.first_of "po" w in
  let out := Sample.rows_of (list_pos None (db w)) in
  list_pos None (db w) = Ret (RDocs out)
  ∧ d ∈ find (with_filter "customer_id" None ∅) (db w !!! "po")
  ∧ ∃ row,
      row ∈ out
      ∧ row !! "billed_amount" = Some (VNum 1200)
      ∧ row !! "po_balance" = Some (VNum 0).
Proof.
  intros w d out.
  assert (list_pos None (db w) = Ret (RDocs out)) as Hout by evaluated.
  assert (d ∈ find (with_filter "customer_id" None ∅) (db w !!! "po")) as Hd by decided.
  split; [exact Hout|]. split; [exact Hd|].
  destruct (po_billed_and_balance None w out d Hout Hd)
    as (row & billed & amount & Hrow & Heq & Hamount & Hbilled & _ & Hbal & _).
  exists row. split; [exact Hrow|].
  assert (py_float (get d "amount" (VNum 0)) = Ret 1000%Q) as Ha by evaluated.
  (rewrite Ha in Hamount; injection Hamount as <-).
  assert (∀ r, r ∈ out → r !! "billed_amount" = Some (VNum 1200)) as Hall.
  { assert (out = [default ∅ (head out)]) as -> by evaluated.
    intros r Hr. apply list_elem_of_singleton in Hr. rewrite Hr. evaluated. }
  (rewrite (Hall row Hrow) in Hbilled; injection Hbilled as <-).
  split; [exact (Hall row Hrow)|]. rewrite Hbal. reflexivity.
Defined.



(** C6, a PO for a customer id that matches no customer: status 400 and the
    world as it was. *)
Lemma unresolved_reference_writes_nothing_witness :
  let req := PostPos (Sample.po_for Sample.unknown_id) in
  let w := Sample.with_po in
  ("customer", Sample.unknown_id) ∈ references req
  ∧ ¬ resolves "customer" Sample.unknown_id (db w)
  ∧ ∃ e, serve (Sample.request_env Sample.po_1_id) req w = (Raise e, w).
Proof.
  intros req w.
  assert (("customer", Sample.unknown_id) ∈ references req) as Href.
  { apply list_elem_of_here. }
  assert (¬ resolves "customer" Sample.unknown_id (db w)) as Hno by unresolved.
  split; [exact Href|]. split; [exact Hno|].
  exact (unresolved_reference_writes_nothing
           (Sample.request_env Sample.po_1_id) req w _ _ Href Hno).
Defined.

(** C5, creating a PO: a well-formed customer id that matches no customer
    and a malformed one are answered with the same error, status 400 and
    detail "Invalid customer_id"; the 404 raised for the missing customer is
    caught by the handler's own [except Exception]. *)
Lemma missing_and_malformed_reference_same_error :
  let env := Sample.request_env Sample.po_1_id in
  let db0 := db Sample.with_po in
  ObjectId Sample.unknown_id = Ret Sample.unknown_id
  ∧ find_one Sample.unknown_id (db0 !!! "customer") = None
  ∧ ObjectId "not-an-id" = Raise InvalidId
  ∧ create_po env (Sample.po_for Sample.unknown_id) db0
    = (Raise (HTTPException 400 "Invalid customer_id"), db0)
  ∧ create_po env (Sample.po_for "not-an-id") db0
    = (Raise (HTTPException 400 "Invalid customer_id"), db0).
Proof.
  intros env db0. split; [evaluated|]. split; [evaluated|]. split; [evaluated|].
  split; evaluated.
Qed.



(** C8, an upload of the invoice PDF: amount_received stays 0. *)
Lemma amount_received_frame_witness :
  let env := Sample.request_env "" in
  let req := PostUpload "invoice" Sample.invoice_1_id "invoice_pdf_url"
               "invoice.pdf" "%PDF" in
  let w := Sample.with_invoice 1000 in
  let inv := Sample.first_of "invoice" w in
  serve env req w = ((serve env req w).1, (serve env req w).2)
  ∧ find_one Sample.invoice_1_id (db w !!! "invoice") = Some inv
  ∧ (∀ payload, req ≠ PostPayments payload)
  ∧ (∀ entity entity_id filename content,
       req ≠ PostUpload entity entity_id "amount_received" filename content)
  ∧ ∃ inv',
      find_one Sample.invoice_1_id (db (serve env req w).2 !!! "invoice") = Some inv'
      ∧ inv' !! "invoice_pdf_url"
        = Some (VStr "/uploads/invoice_65f0a1b2c3d4e5f601020303_invoice_pdf_url_20261104080000_invoice.pdf")
      ∧ inv' !! "amount_received" = Some (VNum 0).
Proof.
  intros env req w inv.
  assert (serve env req w = ((serve env req w).1, (serve env req w).2)) as Hserve.
  { apply surjective_pairing. }
  assert (find_one Sample.invoice_1_id (db w !!! "invoice") = Some inv) as Hinv
    by evaluated.
  assert (∀ payload, req ≠ PostPayments payload) as Hpay.
  { intros payload. discriminate. }
  assert (∀ entity entity_id filename content,
            req ≠ PostUpload entity entity_id "amount_received" filename content)
    as Hupload.
  { intros entity entity_id filename content. discriminate. }
  split; [exact Hserve|]. split; [exact Hinv|]. split; [exact Hpay|].
  split; [exact Hupload|].
  destruct (amount_received_frame env req w _ _ Sample.invoice_1_id inv
              Hserve Hinv Hpay Hupload) as (inv' & Hinv' & Hrec).
  exists inv'. split; [exact Hinv'|].
  assert (inv !! "amount_received" = Some (VNum 0)) as Hzero by evaluated.
  split; [|rewrite Hrec; exact Hzero].
  assert (find_one Sample.invoice_1_id (db (serve env req w).2 !!! "invoice")
          ≫= (.!! "invoice_pdf_url")
          = Some (VStr "/uploads/invoice_65f0a1b2c3d4e5f601020303_invoice_pdf_url_20261104080000_invoice.pdf"))
    as Hurl by evaluated.
  rewrite Hinv' in Hurl. exact Hurl.
Defined.

(** C8, an upload that names the field amount_received: the invoice's
    amount_received, 0 before, is the URL of the file afterwards. *)
Lemma upload_overwrites_amount_received_counterexample :
  let env := Sample.request_env "" in
  let req := PostUpload "invoice" Sample.invoice_1_id "amount_received"
               "slip.pdf" "%PDF" in
  let w := Sample.with_invoice 1000 in
  invoice_field Sample.invoice_1_id "amount_received" (db w) = Some (VNum 0)
  ∧ (serve env req w).1
    = Ret (RUrl "/uploads/invoice_65f0a1b2c3d4e5f601020303_amount_received_20261104080000_slip.pdf")
  ∧ invoice_field Sample.invoice_1_id "amount_received" (db (serve env req w).2)
    = Some (VStr "/uploads/invoice_65f0a1b2c3d4e5f601020303_amount_received_20261104080000_slip.pdf")
  ∧ invoice_field Sample.invoice_1_id "amount_received" (db (serve env req w).2)
    ≠ invoice_field Sample.invoice_1_id "amount_received" (db w).
Proof.
  intros env req w.
  assert (invoice_field Sample.invoice_1_id "amount_received" (db w) = Some (VNum 0))
    as Hbefore by evaluated.
  assert (invoice_field Sample.invoice_1_id "amount_received" (db (serve env req w).2)
          = Some (VStr "/uploads/invoice_65f0a1b2c3d4e5f601020303_amount_received_20261104080000_slip.pdf"))
    as Hafter by evaluated.
  split; [exact Hbefore|]. split; [evaluated|]. split; [exact Hafter|].
  rewrite Hbefore, Hafter. discriminate.
Qed.

(** C9, an agreement ending on 2026-11-14 checked on 2026-11-04: one mail
    per check. *)
Lemma renewal_check_notifies_witness :
  let env := Sample.request_env "" in
  let w := Sample.with_stored_agreement "2026-11-14" in
  let ag := Sample.first_of "agreement" w in
  let mail := {| to_emails := ["admin@example.com"];
                 subject := "Renewal due for MSA (Agreement)";
                 body := "Agreement MSA for customer 65f0a1b2c3d4e5f601020301 is due on 2026-11-14."
                           +:+ newline +:+ "Please review and renew." |} in
  in_due_window (today env) Sample.agreement_1_id (db w) ag 739934
  ∧ renewal_mail env ag 739934 = mail
  ∧ check_and_notify_agreement env Sample.agreement_1_id (db w) [] = (Ret (), [mail])
  ∧ run_background_tasks env [Sample.agreement_1_id; Sample.agreement_1_id] (db w) []
    = [mail; mail].
Proof.
  intros env w ag mail.
  assert (in_due_window (today env) Sample.agreement_1_id (db w) ag 739934) as Hdue.
  { exists Sample.agreement_1_id, 739904%Z.
    split; [evaluated|]. split; [evaluated|]. split; [evaluated|].
    split; [evaluated|]. split; decided. }
  assert (renewal_mail env ag 739934 = mail) as Hmail by evaluated.
  destruct (proj2 (proj2 (renewal_check_notifies env Sample.agreement_1_id (db w) []))
              ag 739934%Z Hdue) as (Hcheck & Htwice & _).
  split; [exact Hdue|]. split; [exact Hmail|].
  rewrite Hmail in Hcheck, Htwice. split; [exact Hcheck|exact Htwice].
Defined.

(** C10, a PDF for an id no invoice has, under a plain file name: the url
    is returned, the file is saved and the store is unchanged. *)
Lemma upload_for_unknown_id_witness :
  let env := Sample.request_env "" in
  let w := Sample.with_invoice 1000 in
  let name := "invoice_65f0a1b2c3d4e5f6010203ff_invoice_pdf_url_20261104080000_invoice.pdf" in
  lower "Invoice" ∈ ["customer"; "po"; "invoice"; "agreement"]
  ∧ ObjectId Sample.unknown_id = Ret Sample.unknown_id
  ∧ find_one Sample.unknown_id (db w !!! lower "Invoice") = None
  ∧ file_name_error name = None
  ∧ serve env (PostUpload "Invoice" Sample.unknown_id "invoice_pdf_url"
                 "invoice.pdf" "%PDF") w
    = (Ret (RUrl ("/uploads/" +:+ name)),
       {| db := db w; uploads := <[name := "%PDF"]> (uploads w); outbox := outbox w |})
  ∧ serve_upload name (<[name := "%PDF"]> (uploads w)) = Ret (RFile "%PDF").
Proof.
  intros env w name.
  assert (lower "Invoice" ∈ ["customer"; "po"; "invoice"; "agreement"]) as Hentity
    by decided.
  assert (ObjectId Sample.unknown_id = Ret Sample.unknown_id) as Ho by evaluated.
  assert (find_one Sample.unknown_id (db w !!! lower "Invoice") = None) as Hnone
    by evaluated.
  assert (file_name_error name = None) as Hvalid by reflexivity.
  split; [exact Hentity|]. split; [exact Ho|]. split; [exact Hnone|].
  split; [exact Hvalid|].
  pose proof (upload_for_unknown_id env "Invoice" Sample.unknown_id "invoice_pdf_url"
                "invoice.pdf" "%PDF" w Sample.unknown_id Hentity Ho Hnone) as Hthm.
  cbv zeta in Hthm.
  assert (lower "Invoice" +:+ "_" +:+ Sample.unknown_id +:+ "_"
            +:+ "invoice_pdf_url" +:+ "_" +:+ strftime_compact (now env) +:+ "_"
            +:+ "invoice.pdf" = name) as Hname by evaluated.
  rewrite Hname in Hthm. rewrite Hvalid in Hthm.
  destruct Hthm as (Hserve & Hfile & _).
  split; [exact Hserve|exact Hfile].
Defined.

(** C10, the same upload with the file name [a/b.pdf]: the id is
    well formed and matches nothing, the request fails with [OSError], no
    url is returned, no file is saved and nothing changes. *)
Lemma upload_with_path_in_file_name_counterexample :
  let env := Sample.request_env "" in
  let w := Sample.with_invoice 1000 in
  let req := PostUpload "Invoice" Sample.unknown_id "invoice_pdf_url" "a/b.pdf" "%PDF" in
  lower "Invoice" ∈ ["customer"; "po"; "invoice"; "agreement"]
  ∧ ObjectId Sample.unknown_id = Ret Sample.unknown_id
  ∧ find_one Sample.unknown_id (db w !!! lower "Invoice") = None
  ∧ serve env req w = (Raise OSError, w)
  ∧ (∀ url, (serve env req w).1 ≠ Ret (RUrl url))
  ∧ uploads (serve env req w).2 = uploads w.
Proof.
  intros env w req.
  assert (serve env req w = (Raise OSError, w)) as Hserve by evaluated.
  split; [decided|]. split; [evaluated|]. split; [evaluated|].
  split; [exact Hserve|]. rewrite Hserve. split; [discriminate|reflexivity].
Qed.

(** ** The further properties on the example data *)

(** X2, an invoice of 1000 with nothing received whose payload says Paid:
    stored as Pending. *)
Lemma create_invoice_stores_normalized_status_witness :
  let env := Sample.request_env Sample.invoice_1_id in
  let p :=
    {| Invoice.invoice_number := "INV-1";
       Invoice.po_id := Sample.po_1_id;
       Invoice.customer_id := Sample.acme_id;
       Invoice.invoice_date := None;
       Invoice.due_date := None;
       Invoice.amount := 1000;
       Invoice.amount_received := 0;
       Invoice.payment_status := Paid;
       Invoice.mode_of_payment := None;
       Invoice.payment_timeline := None;
       Invoice.invoice_pdf_url := None;
       Invoice.proof_of_payment_url := None |} in
  let db0 := db Sample.with_po in
  resolves "po" (Invoice.po_id p) db0
  ∧ resolves "customer" (Invoice.customer_id p) db0
  ∧ ∃ doc,
      create_invoice env p db0
      = (Ret (RId Sample.invoice_1_id), <["invoice" := db0 !!! "invoice" ++ [doc]]> db0)
      ∧ doc !! "payment_status" = Some (VStr "Pending")
      ∧ recomputed_status doc = Some Pending.
Proof.
  intros env p db0.
  assert (resolves "po" (Invoice.po_id p) db0) as Hpo.
  { exists Sample.po_1_id, (Sample.first_of "po" Sample.with_po). split; evaluated. }
  assert (resolves "customer" (Invoice.customer_id p) db0) as Hcust.
  { exists Sample.acme_id, (Sample.first_of "customer" Sample.with_po). split; evaluated. }
  split; [exact Hpo|]. split; [exact Hcust|].
  pose proof (create_invoice_stores_normalized_status env p db0 Hpo Hcust) as Hthm.
  cbv zeta in Hthm.
  destruct Hthm as (doc & Hrun & _ & _ & _ & Hst & Hrec).
  exists doc. split; [exact Hrun|]. split; [exact Hst|exact Hrec].
Defined.

(** X3, an invoice of amount 0 and a payment of 0: the invoice stores Paid
    and GET /api/invoices recomputes Pending. *)
Lemma payment_status_stored_and_listed_witness :
  let env := Sample.request_env Sample.payment_1_id in
  let p := Sample.payment 0 in
  let db0 := db (Sample.with_invoice 0) in
  let db' := (create_payment env p db0).2 in
  create_payment env p db0 = (Ret (RPayment Sample.payment_1_id 0 "Paid"), db')
  ∧ ∃ inv,
      find_one Sample.invoice_1_id (db' !!! "invoice") = Some inv
      ∧ stored_status_is Paid inv
      ∧ recomputed_status inv = Some Pending.
Proof.
  intros env p db0 db'.
  assert (create_payment env p db0 = (Ret (RPayment Sample.payment_1_id 0 "Paid"), db'))
    as Hrun by evaluated.
  split; [exact Hrun|].
  destruct (payment_status_stored_and_listed env p db0 _ db' Hrun)
    as (o & inv & total & amt & Ho & Hinv & Hrec & Hamt & Hstored & Hlisted & _ & Hdiv).
  assert (o = Sample.invoice_1_id) as ->.
  { vm_compute in Ho. injection Ho as <-. reflexivity. }
  assert (find_one Sample.invoice_1_id (db' !!! "invoice")
          ≫= (λ inv, Some (inv !! "amount_received",
                           py_float (get inv "amount" (VNum 0))))
          = Some (Some (VNum 0), Ret 0%Q)) as Hvals by evaluated.
  rewrite Hinv in Hvals. cbn [mbind option_bind] in Hvals.
  injection Hvals as Hrec' Hamt'.
  rewrite Hrec' in Hrec. injection Hrec as <-.
  rewrite Hamt' in Hamt. injection Hamt as <-.
  destruct (Hdiv ltac:(apply Qle_refl) ltac:(apply Qle_refl)) as [Hpaid Hpending].
  exists inv. split; [exact Hinv|].
  rewrite Hpaid in Hstored. rewrite Hpending in Hlisted.
  split; [exact Hstored|exact Hlisted].
Defined.

(** X4, an agreement ending in ten days is listed with
    [due_within_days = 30]. *)
Lemma list_agreements_due_within_witness :
  let env := Sample.request_env "" in
  let w := Sample.with_stored_agreement "2026-11-14" in
  let d := Sample.first_of "agreement" w in
  let out := Sample.rows_of (list_agreements env None (Some 30%Z) (db w)) in
  list_agreements env None (Some 30%Z) (db w) = Ret (RDocs out)
  ∧ d ∈ find (with_filter "customer_id" None ∅) (db w !!! "agreement")
  ∧ parsed_end_date d = VDate 739934
  ∧ oid_str (renewed (today env) 739934 d) ∈ out.
Proof.
  intros env w d out.
  assert (list_agreements env None (Some 30%Z) (db w) = Ret (RDocs out)) as Hout
    by evaluated.
  assert (d ∈ find (with_filter "customer_id" None ∅) (db w !!! "agreement")) as Hd
    by decided.
  assert (parsed_end_date d = VDate 739934) as He by evaluated.
  split; [exact Hout|]. split; [exact Hd|]. split; [exact He|].
  pose proof (list_agreements_due_within env None 30%Z (db w) out Hout) as Hthm.
  cbv zeta in Hthm. destruct Hthm as (_ & _ & Hin).
  apply (Hin d 739934%Z Hd He). cbn [today env Sample.request_env]. lia.
Defined.

(** X5, an invoice of 1000 with 300 received: 700 outstanding. *)
Lemma dashboard_outstanding_is_listed_balance_witness :
  let env := Sample.request_env "" in
  let db0 := db (Sample.with_payment 1000 300) in
  let s := default (Build_summary 0 0 0 0 0 0 0 0 0 0)
             (Sample.summary_of (dashboard_summary env db0)) in
  dashboard_summary env db0 = Ret (RSummary s)
  ∧ ∃ out t,
      list_invoices None None db0 = Ret (RDocs out)
      ∧ outstanding_amount s = round2 t
      ∧ (t == 700)%Q.
Proof.
  intros env db0 s.
  assert (dashboard_summary env db0 = Ret (RSummary s)) as Hs by evaluated.
  split; [exact Hs|].
  destruct (dashboard_outstanding_is_listed_balance env db0 s Hs)
    as (out & t & Hout & Hround & Ht & _).
  exists out, t. split; [exact Hout|]. split; [exact Hround|].
  assert (Qsum (num_field "balance_amount")
            (Sample.rows_of (list_invoices None None db0)) == 700)%Q as H700.
  { unfold Qeq. evaluated. }
  rewrite Hout in H700. cbn [Sample.rows_of] in H700.
  rewrite Ht. exact H700.
Defined.

(** X6, one PO and one invoice, which stores Partial. *)
Lemma dashboard_totals_witness :
  let env := Sample.request_env "" in
  let db0 := db (Sample.with_payment 1000 300) in
  let s := default (Build_summary 0 0 0 0 0 0 0 0 0 0)
             (Sample.summary_of (dashboard_summary env db0)) in
  dashboard_summary env db0 = Ret (RSummary s)
  ∧ purchase_orders s = 1%nat
  ∧ invoices s = 1%nat
  ∧ (paid_invoices s + partial_invoices s + pending_invoices s ≤ invoices s)%nat.
Proof.
  intros env db0 s.
  assert (dashboard_summary env db0 = Ret (RSummary s)) as Hs by evaluated.
  split; [exact Hs|].
  destruct (dashboard_totals env db0 s Hs) as (Hpo & Hinv & Hle & _).
  assert (length (db0 !!! "po") = 1%nat) as Hpo1 by evaluated.
  assert (length (db0 !!! "invoice") = 1%nat) as Hinv1 by evaluated.
  rewrite Hpo1 in Hpo. rewrite Hinv1 in Hinv.
  split; [exact Hpo|]. split; [exact Hinv|exact Hle].
Defined.

(** X7, an agreement ending in ten days: not within 7, within 30 and 60. *)
Lemma dashboard_upcoming_nested_witness :
  let env := Sample.request_env "" in
  let db0 := db (Sample.with_stored_agreement "2026-11-14") in
  let s := default (Build_summary 0 0 0 0 0 0 0 0 0 0)
             (Sample.summary_of (dashboard_summary env db0)) in
  dashboard_summary env db0 = Ret (RSummary s)
  ∧ upcoming_7 s = 0%nat
  ∧ upcoming_30 s = 1%nat
  ∧ (upcoming_7 s ≤ upcoming_30 s)%nat
  ∧ (upcoming_30 s ≤ upcoming_60 s)%nat
  ∧ (upcoming_60 s ≤ length (db0 !!! "agreement"))%nat.
Proof.
  intros env db0 s.
  assert (dashboard_summary env db0 = Ret (RSummary s)) as Hs by evaluated.
  assert (upcoming_7 s = 0%nat) as H7 by evaluated.
  assert (upcoming_30 s = 1%nat) as H30 by evaluated.
  split; [exact Hs|]. split; [exact H7|]. split; [exact H30|].
  exact (dashboard_upcoming_nested env db0 s Hs).
Defined.

(** X8, a PO of 1000 with one invoice of 400: one PO with balance left. *)
Lemma dashboard_pos_with_balance_witness :
  let env := Sample.request_env "" in
  let db0 := db (Sample.with_invoice 400) in
  let s := default (Build_summary 0 0 0 0 0 0 0 0 0 0)
             (Sample.summary_of (dashboard_summary env db0)) in
  dashboard_summary env db0 = Ret (RSummary s)
  ∧ upcoming_invoices_pos s = 1%nat
  ∧ ∃ out,
      list_pos None db0 = Ret (RDocs out)
      ∧ count_true (positive_balance <$> out) = 1%nat.
Proof.
  intros env db0 s.
  assert (dashboard_summary env db0 = Ret (RSummary s)) as Hs by evaluated.
  assert (upcoming_invoices_pos s = 1%nat) as H1 by evaluated.
  split; [exact Hs|]. split; [exact H1|].
  destruct (dashboard_pos_with_balance env db0 s Hs) as (out & Hout & Hcount).
  exists out. split; [exact Hout|]. rewrite <- Hcount. exact H1.
Defined.

(** X10, the PDF of the example invoice: the url is set, the amount stays. *)
Lemma upload_sets_field_witness :
  let env := Sample.request_env "" in
  let w := Sample.with_invoice 1000 in
  let d := Sample.first_of "invoice" w in
  lower "Invoice" ∈ ["customer"; "po"; "invoice"; "agreement"]
  ∧ ObjectId Sample.invoice_1_id = Ret Sample.invoice_1_id
  ∧ find_one Sample.invoice_1_id (db w !!! lower "Invoice") = Some d
  ∧ plain_field "invoice_pdf_url" = true
  ∧ file_name_error
      "invoice_65f0a1b2c3d4e5f601020303_invoice_pdf_url_20261104080000_invoice.pdf"
    = None
  ∧ ∃ url d' w',
      upload_document env "Invoice" Sample.invoice_1_id "invoice_pdf_url"
        "invoice.pdf" "%PDF" w = (Ret (RUrl url), w')
      ∧ find_one Sample.invoice_1_id (db w' !!! lower "Invoice") = Some d'
      ∧ d' !! "invoice_pdf_url" = Some (VStr url)
      ∧ d' !! "amount" = Some (VNum 1000).
Proof.
  intros env w d.
  assert (lower "Invoice" ∈ ["customer"; "po"; "invoice"; "agreement"]) as Hentity
    by decided.
  assert (ObjectId Sample.invoice_1_id = Ret Sample.invoice_1_id) as Ho by evaluated.
  assert (find_one Sample.invoice_1_id (db w !!! lower "Invoice") = Some d) as Hd
    by evaluated.
  assert (plain_field "invoice_pdf_url" = true) as Hfield by reflexivity.
  assert (file_name_error
            "invoice_65f0a1b2c3d4e5f601020303_invoice_pdf_url_20261104080000_invoice.pdf"
          = None) as Hname by reflexivity.
  assert (file_name_error
            (lower "Invoice" +:+ "_" +:+ Sample.invoice_1_id +:+ "_"
               +:+ "invoice_pdf_url" +:+ "_" +:+ strftime_compact (now env) +:+ "_"
               +:+ "invoice.pdf") = None) as Hname' by evaluated.
  split; [exact Hentity|]. split; [exact Ho|]. split; [exact Hd|].
  split; [exact Hfield|]. split; [exact Hname|].
  destruct (upload_sets_field env "Invoice" Sample.invoice_1_id "invoice_pdf_url"
              "invoice.pdf" "%PDF" w Sample.invoice_1_id d Hentity Ho Hd Hfield Hname')
    as (url & d' & w' & Hrun & Hd' & _ & Hurl & Hkeep & _).
  exists url, d', w'. split; [exact Hrun|]. split; [exact Hd'|].
  split; [apply Hurl; discriminate|].
  assert (d !! "amount" = Some (VNum 1000)) as Hamt by evaluated.
  rewrite (Hkeep "amount"); [exact Hamt|discriminate|discriminate].
Defined.

(** X12, a second payment of 400 after one of 300: the response carries 700,
    the sum of the two rows listed. *)
Lemma payment_total_is_listed_sum_witness :
  let env := Sample.request_env Sample.payment_2_id in
  let p := Sample.payment 400 in
  let db0 := db (Sample.with_payment 1000 300) in
  let db' := (create_payment env p db0).2 in
  create_payment env p db0 = (Ret (RPayment Sample.payment_2_id 700 "Partial"), db')
  ∧ ∃ out,
      list_payments (Some Sample.invoice_1_id) db' = Ret (RDocs out)
      ∧ (700 == Qsum (num_field "amount") out)%Q
      ∧ length out = 2%nat.
Proof.
  intros env p db0 db'.
  assert (create_payment env p db0
          = (Ret (RPayment Sample.payment_2_id 700 "Partial"), db')) as Hrun
    by evaluated.
  split; [exact Hrun|].
  destruct (payment_total_is_listed_sum env p db0 _ _ _ db' Hrun)
    as (out & Hout & Hsum & Hlen).
  exists out. split; [exact Hout|]. split; [exact Hsum|].
  assert (length (payments_of (Payment.invoice_id p) db0) = 1%nat) as Hone by evaluated.
  rewrite Hone in Hlen. exact Hlen.
Defined.

(** X14, the example agreement: without dates it is stored and no mail is
    sent; with an end date ten days ahead the request fails and nothing is
    stored. *)
Lemma agreement_creation_and_dates_witness :
  let env := Sample.request_env Sample.agreement_1_id in
  let w := Sample.with_po in
  resolves "customer" Sample.acme_id (db w)
  ∧ ObjectId (fresh_id env) = Ret (fresh_id env)
  ∧ find_one (fresh_id env) (db w !!! "agreement") = None
  ∧ (∃ ag w',
       serve env (PostAgreements (Sample.agreement None)) w
       = (Ret (RId Sample.agreement_1_id), w')
       ∧ db w' !!! "agreement" = [ag]
       ∧ ag !! "renewal_status" = Some (VStr "Active")
       ∧ outbox w' = [])
  ∧ ∃ e, serve env (PostAgreements (Sample.agreement (Some 739934%Z))) w = (Raise e, w)
         ∧ (e = InvalidDocument ∨ e = OverflowError).
Proof.
  intros env w.
  assert (resolves "customer" Sample.acme_id (db w)) as Hcust.
  { exists Sample.acme_id, (Sample.first_of "customer" w). split; evaluated. }
  assert (ObjectId (fresh_id env) = Ret (fresh_id env)) as Hfresh by evaluated.
  assert (find_one (fresh_id env) (db w !!! "agreement") = None) as Hunused by evaluated.
  split; [exact Hcust|]. split; [exact Hfresh|]. split; [exact Hunused|].
  split.
  - destruct (agreement_creation_and_dates env (Sample.agreement None) w
                Hcust Hfresh Hunused)
      as (ag & w' & Hrun & Hdb & _ & _ & _ & Hstatus & _ & Hout).
    exists ag, w'. split; [exact Hrun|].
    assert (db w !!! "agreement" = ([] : collection)) as Hnone by evaluated.
    assert (outbox w = []) as Hsent by reflexivity.
    rewrite Hnone in Hdb. rewrite Hsent in Hout.
    split; [exact Hdb|]. split; [exact Hstatus|exact Hout].
  - exact (agreement_creation_and_dates env (Sample.agreement (Some 739934%Z)) w
             Hcust Hfresh Hunused).
Defined.

(** X16, an invoice whose [amount] an upload replaced by a url: the payment
    fails with [ValueError] and is stored all the same. *)
Lemma failed_payment_is_stored_witness :
  let w :=
    Sample.after [(Sample.request_env "",
                   PostUpload "invoice" Sample.invoice_1_id "amount" "scan.pdf" "%PDF")]
      (Sample.with_invoice 1000) in
  let env := Sample.request_env Sample.payment_1_id in
  let p := Sample.payment 300 in
  let db' := (create_payment env p (db w)).2 in
  resolves "invoice" (Payment.invoice_id p) (db w)
  ∧ resolves "customer" (Payment.customer_id p) (db w)
  ∧ create_payment env p (db w) = (Raise ValueError, db')
  ∧ db' !!! "payment" = [payment_doc (env, p)]
  ∧ db' !!! "invoice" = db w !!! "invoice".
Proof.
  intros w env p db'.
  assert (resolves "invoice" (Payment.invoice_id p) (db w)) as Hinv.
  { exists Sample.invoice_1_id, (Sample.first_of "invoice" w). split; evaluated. }
  assert (resolves "customer" (Payment.customer_id p) (db w)) as Hcust.
  { exists Sample.acme_id, (Sample.first_of "customer" w). split; evaluated. }
  assert (create_payment env p (db w) = (Raise ValueError, db')) as Hrun by evaluated.
  split; [exact Hinv|]. split; [exact Hcust|]. split; [exact Hrun|].
  destruct (failed_payment_is_stored env p (db w) ValueError db' Hinv Hcust Hrun)
    as (_ & Hpay & Hsame & _).
  assert (db w !!! "payment" = ([] : collection)) as Hnone by evaluated.
  rewrite Hnone in Hpay. split; [exact Hpay|exact Hsame].
Defined.

(** X18, the example invoice is listed under its PO's id with an empty
    customer parameter. *)
Lemma list_invoices_filters_witness :
  let db0 := db (Sample.with_invoice 1000) in
  let d := Sample.first_of "invoice" (Sample.with_invoice 1000) in
  let r := <["payment_status" := VStr "Pending"]>
             (<["balance_amount" := VNum (Qmax 0 (1000 - 0))]> d) in
  let out := Sample.rows_of (list_invoices (Some Sample.po_1_id) (Some "") db0) in
  list_invoices (Some Sample.po_1_id) (Some "") db0 = Ret (RDocs out)
  ∧ passes "po_id" (Some Sample.po_1_id) d
  ∧ passes "customer_id" (Some "") d
  ∧ oid_str r ∈ out.
Proof.
  intros db0 d r out.
  assert (list_invoices (Some Sample.po_1_id) (Some "") db0 = Ret (RDocs out)) as Hout
    by evaluated.
  assert (d !! "po_id" = Some (VStr Sample.po_1_id)) as Hpo by evaluated.
  assert (d ∈ db0 !!! "invoice") as Hd by decided.
  assert (invoice_row d = Ret r) as Hr by evaluated.
  split; [exact Hout|]. split; [right; exact Hpo|]. split; [left; reflexivity|].
  destruct (list_invoices_filters (Some Sample.po_1_id) (Some "") db0 out Hout)
    as (Hrows & _).
  apply Hrows. exists d, r.
  split; [exact Hd|]. split; [right; exact Hpo|]. split; [left; reflexivity|].
  split; [exact Hr|reflexivity].
Defined.

(** X19, the example PO of 1000, just created: billed 0, balance 1000. *)
Lemma new_po_is_listed_unbilled_witness :
  let env := Sample.request_env Sample.po_1_id in
  let p := Sample.po_for Sample.acme_id in
  let db0 :=
    db (Sample.after [(Sample.request_env Sample.acme_id, PostCustomers Sample.acme)]
          Sample.empty) in
  let out := Sample.rows_of (list_pos None (create_po env p db0).2) in
  Po.valid p = true
  ∧ Po.po_date p = None
  ∧ resolves "customer" (Po.customer_id p) db0
  ∧ list_pos None (create_po env p db0).2 = Ret (RDocs out)
  ∧ ∃ row bal,
      row ∈ out
      ∧ row !! "id" = Some (VStr Sample.po_1_id)
      ∧ row !! "billed_amount" = Some (VNum 0)
      ∧ row !! "po_balance" = Some (VNum bal)
      ∧ (bal == 1000)%Q.
Proof.
  intros env p db0 out.
  assert (Po.valid p = true) as Hvalid by reflexivity.
  assert (resolves "customer" (Po.customer_id p) db0) as Hcust.
  { exists Sample.acme_id, (default ∅ (head (db0 !!! "customer"))). split; evaluated. }
  assert (∀ i, i ∈ db0 !!! "invoice" → i !! "po_id" ≠ Some (VStr (fresh_id env)))
    as Hfresh.
  { assert (db0 !!! "invoice" = ([] : collection)) as Hnil by evaluated.
    intros i Hi. rewrite Hnil in Hi. apply elem_of_nil in Hi. destruct Hi. }
  assert (list_pos None (create_po env p db0).2 = Ret (RDocs out)) as Hout by evaluated.
  split; [exact Hvalid|]. split; [reflexivity|]. split; [exact Hcust|].
  split; [exact Hout|].
  exact (new_po_is_listed_unbilled env p db0 out Hvalid eq_refl Hcust Hfresh Hout).
Defined.
